(** * DepthFrame processing service: depth store and ingestion pipeline

    A shallow embedding of

      - [db/repository.py]       (class [ImageRepository], the SQLite depth store),
      - [ingestion/pipeline.py]  ([validate_and_clean], [resize_image],
                                  [store_to_database], [run_ingestion]),
      - [api/routes.py]          ([get_image_frame], [get_raw_frame]),
      - [colormaps/registry.py]  (class [ColormapRegistry]),

    followed by the properties of the specification that concern them.

    Conventions of the embedding.

      - A Python [float] is a [cell]: [NaN], or the rational a number
        denotes, a canonical rational [Qc], so that [=] is numeric equality
        (what SQLite uses to compare [REAL] keys).  Rounding of float64
        arithmetic and the two infinities are not represented; the rounding
        to float32 in [resize_image] is a parameter.
      - SQLite stores a [nan] as NULL.  A value of column [depth] is an
        [option real], [None] being NULL.
      - A call that may raise returns an [outcome]; a method that also
        mutates the repository returns the outcome paired with the new
        repository.
      - A table of the database is the list of its rows in rowid order.
      - What the libraries leave open is a parameter: the order in which
        [sort_values] leaves rows of equal depth, the resampling kernels of
        OpenCV, the text of a float. *)

From Stdlib Require Import String Ascii DecimalString.
From Stdlib Require Import ZArith QArith Qcanon Bool Lia.
From Stdlib Require Import List Sorted Permutation.
Import ListNotations.

Open Scope string_scope.
Open Scope Z_scope.

(* ================================================================== *)
(** ** Python values *)

(** The exceptions the modelled code raises, with their message.  Of a
    [cv2.error] the attributes [code], [func] and [err]: its text also names
    the OpenCV build and source line. *)
Inductive exn : Type :=
| ValueError (msg : string)
| TypeError (msg : string)
| RuntimeError (msg : string)
| HTTPException (status_code : Z) (detail : string)
| cv2_error (code : Z) (func : string) (err : string).

Inductive outcome (A : Type) : Type :=
| Returned (a : A)
| Raised (e : exn).

Arguments Returned {A} a.
Arguments Raised {A} e.

Definition bind {A B : Type} (m : outcome A) (k : A -> outcome B) : outcome B :=
  match m with
  | Returned a => k a
  | Raised e => Raised e
  end.

Notation "'do' x <- m ;; k" := (bind m (fun x => k))
  (at level 10, x name, m at level 100, k at level 200).

(** [str(n)] for a non-negative [int]. *)
Definition str_of_nat (n : nat) : string :=
  NilZero.string_of_uint (Nat.to_uint n).

(** Finite floats. *)
Definition real : Type := Qc.

Definition real_of_Z (z : Z) : real := Q2Qc (inject_Z z).

Definition Qc_leb (x y : real) : bool := Qle_bool x y.
Definition Qc_eqb (x y : real) : bool := Qeq_bool x y.
Definition Qc_ltb (x y : real) : bool := negb (Qc_leb y x).

(** A [float]: [nan] or a number. *)
Inductive cell : Type :=
| NaN
| Num (q : real).

Definition isnull (c : cell) : bool :=
  match c with NaN => true | Num _ => false end.

(** IEEE comparisons: false as soon as one side is [NaN]. *)
Definition cell_ltb (x y : cell) : bool :=
  match x, y with
  | Num a, Num b => Qc_ltb a b
  | _, _ => false
  end.

Definition cell_eqb (x y : cell) : bool :=
  match x, y with
  | Num a, Num b => Qc_eqb a b
  | _, _ => false
  end.

(** The numbers of an array, [nan] left out, and how many [nan] it has. *)
Fixpoint numbers (row : list cell) : list real :=
  match row with
  | [] => []
  | NaN :: row' => numbers row'
  | Num q :: row' => q :: numbers row'
  end.

Definition count_nan (l : list cell) : nat := length (filter isnull l).

(** An integer with the class it has at run time: Python's [int], or
    [numpy.int64], which is what the [sum] of a boolean Series is.  [str]
    and arithmetic treat both alike; [json.dumps] does not. *)
Inductive integer : Type :=
| py_int (n : nat)
| np_int64 (n : nat).

Definition int_value (i : integer) : nat :=
  match i with py_int n | np_int64 n => n end.

(* ================================================================== *)
(** ** Insertion sort, shared by [ORDER BY], [np.median] and [sorted] *)

Fixpoint insert_by {A : Type} (leb : A -> A -> bool) (x : A) (l : list A)
  : list A :=
  match l with
  | [] => [x]
  | y :: l' => if leb x y then x :: l else y :: insert_by leb x l'
  end.

Definition sort_by {A : Type} (leb : A -> A -> bool) (l : list A) : list A :=
  fold_right (insert_by leb) [] l.

(** The relation a boolean comparison decides. *)
Definition holds {A : Type} (leb : A -> A -> bool) (x y : A) : Prop :=
  leb x y = true.

(* ================================================================== *)
(** ** numpy arrays as the store receives them *)

Inductive np_dtype : Type := uint8 | int64 | float32 | float64.

Definition np_dtype_eqb (a b : np_dtype) : bool :=
  match a, b with
  | uint8, uint8 | int64, int64 | float32, float32 | float64, float64 => true
  | _, _ => false
  end.

Definition dtype_name (t : np_dtype) : string :=
  match t with
  | uint8 => "uint8"
  | int64 => "int64"
  | float32 => "float32"
  | float64 => "float64"
  end.

Definition itemsize (t : np_dtype) : nat :=
  match t with
  | uint8 => 1
  | int64 => 8
  | float32 => 4
  | float64 => 8
  end.

(** A C-contiguous 2-D array: element type, shape and the raw buffer, one
    [Z] in [0, 255] per byte.  All rows have [shape1] elements by
    construction, as in numpy. *)
Record ndarray : Type := mk_ndarray {
  dtype : np_dtype;
  shape0 : nat;
  shape1 : nat;
  buffer : list Z
}.

Definition bytes : Type := list Z.

(** [a[i].tobytes()] *)
Definition row_tobytes (a : ndarray) (i : nat) : bytes :=
  let n := (shape1 a * itemsize (dtype a))%nat in
  firstn n (skipn (i * n) (buffer a)).

(* ================================================================== *)
(** ** db/repository.py *)

(** [@dataclass(frozen=True) class ScanRow] *)
Record ScanRow : Type := mk_ScanRow {
  depth : real;
  pixel_data : bytes
}.

(** A row of table [image_scans (depth REAL PRIMARY KEY, pixel_data BLOB)].
    The key is neither [NOT NULL] nor an [INTEGER PRIMARY KEY], so SQLite
    lets it hold NULL ([None]). *)
Definition scan_record : Type := (option real * bytes)%type.

(** A row that has a depth, as a [SELECT] returns it. *)
Definition depth_record : Type := (real * bytes)%type.

(** How [sqlite3] binds a Python [float] to a parameter: [nan] becomes
    NULL. *)
Definition bind_float (c : cell) : option real :=
  match c with
  | NaN => None
  | Num q => Some q
  end.

(** [ScanRow(depth=row[0], pixel_data=np.frombuffer(row[1], dtype=np.uint8))] *)
Definition to_ScanRow (row : depth_record) : ScanRow :=
  mk_ScanRow (fst row) (snd row).

(** The database file: both tables. *)
Record database : Type := mk_database {
  image_scans : list scan_record;
  metadata : list (string * string)
}.

Definition empty_database : database := mk_database [] [].

(** SQL fragments used by the repository. *)
Module Sql.

(** [=] on the key of [image_scans]: NULL equals nothing, NULL included, so
    a row whose depth is NULL conflicts with no row. *)
Definition key_eqb (x y : option real) : bool :=
  match x, y with
  | Some a, Some b => Qc_eqb a b
  | _, _ => false
  end.

(** [INSERT OR REPLACE INTO image_scans (depth, pixel_data) VALUES (?, ?)]:
    the row that conflicts on the primary key is deleted, then the new
    row is inserted. *)
Definition insert_or_replace_scan (t : list scan_record) (r : scan_record)
  : list scan_record :=
  filter (fun x => negb (key_eqb (fst x) (fst r))) t ++ [r].

(** [executemany] *)
Definition executemany_scans (t : list scan_record) (rows : list scan_record)
  : list scan_record :=
  fold_left insert_or_replace_scan rows t.

(** [INSERT OR REPLACE INTO metadata (key, value) VALUES (?, ?)] *)
Definition insert_or_replace_meta (t : list (string * string))
  (r : string * string) : list (string * string) :=
  filter (fun x => negb (String.eqb (fst x) (fst r))) t ++ [r].

(** The rows whose depth is not NULL.  A comparison with NULL is not true
    and [MIN] and [MAX] skip NULL, so these are the only rows that the
    [SELECT] statements on [depth] see. *)
Definition not_null (t : list scan_record) : list depth_record :=
  flat_map (fun r => match fst r with
                     | Some d => [(d, snd r)]
                     | None => []
                     end) t.

(** [WHERE depth >= ? AND depth <= ?] *)
Definition in_range (a b : real) (r : depth_record) : bool :=
  Qc_leb a (fst r) && Qc_leb (fst r) b.

(** [ORDER BY depth] *)
Definition depth_order (r1 r2 : depth_record) : bool :=
  Qc_leb (fst r1) (fst r2).

Definition order_by_depth (l : list depth_record) : list depth_record :=
  sort_by depth_order l.

(** [SELECT depth, pixel_data FROM image_scans
     WHERE depth >= ? AND depth <= ? ORDER BY depth] *)
Definition select_range (t : list scan_record) (a b : real)
  : list depth_record :=
  order_by_depth (filter (in_range a b) (not_null t)).

Definition rmin (x y : real) : real := if Qc_leb x y then x else y.
Definition rmax (x y : real) : real := if Qc_leb x y then y else x.

(** [SELECT MIN(depth), MAX(depth) FROM image_scans], [fetchone()]: one
    row, which is [(NULL, NULL)] exactly when no row of the table has a
    depth that is not NULL; [None] stands for that row. *)
Definition select_min_max (t : list scan_record) : option (real * real) :=
  match map fst (not_null t) with
  | [] => None
  | x :: l => Some (fold_left rmin l x, fold_left rmax l x)
  end.

(** [SELECT COUNT( * ) FROM image_scans] *)
Definition select_count (t : list scan_record) : nat := length t.

(** [SELECT value FROM metadata WHERE key = ?], [fetchone()] *)
Definition select_meta (t : list (string * string)) (k : string)
  : option string :=
  match filter (fun x => String.eqb (fst x) k) t with
  | [] => None
  | x :: _ => Some (snd x)
  end.

End Sql.

(** [class ImageRepository]: the database file at [_db_path] and whether a
    connection to it is open ([_conn is not None]). *)
Record ImageRepository : Type := mk_repo {
  db : database;
  _conn : bool
}.

(** A repository on a path where no database exists yet. *)
Definition new_repository : ImageRepository := mk_repo empty_database false.

(** [connect]: opens the file; [CREATE TABLE IF NOT EXISTS] leaves existing
    tables as they are. *)
Definition connect (self : ImageRepository) : ImageRepository :=
  mk_repo (db self) true.

Definition close (self : ImageRepository) : ImageRepository :=
  mk_repo (db self) false.

(** The [conn] property. *)
Definition conn (self : ImageRepository) : outcome database :=
  if _conn self then Returned (db self)
  else Raised (RuntimeError "Repository not connected. Call connect() first.").

(** [[(float(depths[i]), pixel_array[i].tobytes()) for i in range(len(depths))]],
    each tuple as [executemany] binds it. *)
Definition scan_rows (depths : list cell) (pixel_array : ndarray)
  : list scan_record :=
  map (fun i => (bind_float (nth i depths NaN), row_tobytes pixel_array i))
      (seq 0 (length depths)).

Definition bulk_insert_scans (self : ImageRepository)
  (depths : list cell) (pixel_array : ndarray)
  : outcome nat * ImageRepository :=
  if negb (length depths =? shape0 pixel_array)%nat then
    (Raised (ValueError ("Shape mismatch: " ++ str_of_nat (length depths)
                         ++ " depths vs " ++ str_of_nat (shape0 pixel_array)
                         ++ " pixel rows")), self)
  else if negb (np_dtype_eqb (dtype pixel_array) uint8) then
    (Raised (TypeError ("Expected uint8 pixel data, got "
                        ++ dtype_name (dtype pixel_array))), self)
  else
    let rows := scan_rows depths pixel_array in
    match conn self with
    | Raised e => (Raised e, self)
    | Returned d =>
        (Returned (length rows),
         mk_repo (mk_database (Sql.executemany_scans (image_scans d) rows)
                              (metadata d))
                 (_conn self))
    end.

Definition set_metadata (self : ImageRepository) (key value : string)
  : outcome unit * ImageRepository :=
  match conn self with
  | Raised e => (Raised e, self)
  | Returned d =>
      (Returned tt,
       mk_repo (mk_database (image_scans d)
                            (Sql.insert_or_replace_meta (metadata d) (key, value)))
               (_conn self))
  end.

Definition query_depth_range (self : ImageRepository) (depth_min depth_max : real)
  : outcome (list ScanRow) :=
  do d <- conn self;;
  Returned (map to_ScanRow
                (Sql.select_range (image_scans d) depth_min depth_max)).

Definition get_metadata (self : ImageRepository) (key : string)
  : outcome (option string) :=
  do d <- conn self;;
  Returned (Sql.select_meta (metadata d) key).

Definition get_all_metadata (self : ImageRepository)
  : outcome (list (string * string)) :=
  do d <- conn self;;
  Returned (metadata d).

(** [row[0] is None] exactly when [MIN(depth)] is NULL. *)
Definition get_depth_bounds (self : ImageRepository) : outcome (real * real) :=
  do d <- conn self;;
  match Sql.select_min_max (image_scans d) with
  | None => Raised (ValueError "No scan data in database")
  | Some row => Returned (fst row, snd row)
  end.

Definition get_row_count (self : ImageRepository) : outcome nat :=
  do d <- conn self;;
  Returned (Sql.select_count (image_scans d)).

Definition is_populated (self : ImageRepository) : outcome bool :=
  do n <- get_row_count self;;
  Returned (0 <? n)%nat.

(** Every call a client can make on a repository, and the repository it
    leaves behind. *)
Inductive store_op : Type :=
| OpConnect
| OpClose
| OpBulkInsertScans (depths : list cell) (pixel_array : ndarray)
| OpSetMetadata (key value : string)
| OpQueryDepthRange (depth_min depth_max : real)
| OpGetMetadata (key : string)
| OpGetAllMetadata
| OpGetDepthBounds
| OpGetRowCount
| OpIsPopulated.

Definition apply_op (self : ImageRepository) (op : store_op) : ImageRepository :=
  match op with
  | OpConnect => connect self
  | OpClose => close self
  | OpBulkInsertScans depths pixel_array =>
      snd (bulk_insert_scans self depths pixel_array)
  | OpSetMetadata key value => snd (set_metadata self key value)
  | OpQueryDepthRange _ _ | OpGetMetadata _ | OpGetAllMetadata
  | OpGetDepthBounds | OpGetRowCount | OpIsPopulated => self
  end.

Definition run_ops (ops : list store_op) : ImageRepository :=
  fold_left apply_op ops new_repository.

(** The depths stored, in rowid order: those of the rows that have one. *)
Definition stored_depths (self : ImageRepository) : list real :=
  map fst (Sql.not_null (image_scans (db self))).

(** No two rows of [image_scans] share a depth that is a number. *)
Definition depth_unique (self : ImageRepository) : Prop :=
  NoDup (stored_depths self).

(** The rows stored without a depth (NULL). *)
Definition null_rows (t : list scan_record) : list scan_record :=
  filter (fun x => match fst x with None => true | Some _ => false end) t.

(** The row conflicts with one of the keys [ks] of a bulk write. *)
Definition key_in (ks : list (option real)) (x : scan_record) : bool :=
  existsb (Sql.key_eqb (fst x)) ks.

(* ================================================================== *)
(** ** ingestion/pipeline.py: validate_and_clean *)

(** One row of the frame: the [depth] column and the other columns. *)
Record df_row : Type := mk_row {
  row_depth : cell;
  row_pixels : list cell
}.

(** A [DataFrame] with a [depth] column and [pixel_cols] other columns. *)
Record DataFrame : Type := mk_df {
  pixel_cols : nat;
  df_rows : list df_row
}.

Definition df_wf (df : DataFrame) : Prop :=
  Forall (fun r => length (row_pixels r) = pixel_cols df) (df_rows df).

(** [@dataclass class ValidationReport] *)
Record ValidationReport : Type := mk_report {
  raw_rows : nat;
  clean_rows : nat;
  null_rows_dropped : integer;
  duplicate_depths_dropped : integer;
  depth_min : cell;
  depth_max : cell;
  depth_step : cell;
  is_monotonic : bool;
  pixel_min : cell;
  pixel_max : cell;
  original_width : nat
}.

(** The number of [True] in a mask, and [mask.sum()], which holds it as a
    [numpy.int64]. *)
Definition count_true (mask : list bool) : nat :=
  length (filter (fun b => b) mask).

Definition mask_sum (mask : list bool) : integer := np_int64 (count_true mask).

(** [df[~mask]] *)
Fixpoint drop_masked {A : Type} (l : list A) (mask : list bool) : list A :=
  match l, mask with
  | x :: l', m :: mask' =>
      if m then drop_masked l' mask' else x :: drop_masked l' mask'
  | _, _ => []
  end.

(** The order [sort_values("depth")] establishes: numbers ascending, missing
    last. *)
Definition depth_leb (r1 r2 : df_row) : bool :=
  match row_depth r1, row_depth r2 with
  | Num a, Num b => Qc_leb a b
  | _, NaN => true
  | NaN, Num _ => false
  end.

(** [Series.duplicated(keep="first")]: marks a value already seen above. *)
Fixpoint duplicated_from (seen : list cell) (l : list cell) : list bool :=
  match l with
  | [] => []
  | x :: l' =>
      existsb (fun y => cell_eqb y x || (isnull y && isnull x)) seen
        :: duplicated_from (x :: seen) l'
  end.

Definition duplicated (l : list cell) : list bool := duplicated_from [] l.

Definition real_of_nat (n : nat) : real := real_of_Z (Z.of_nat n).

Definition rsum (l : list real) : real := fold_left Qcplus l (real_of_Z 0).

(** [np.nanmean(row)]: the mean of the numbers; of no number at all it is
    [nan] (numpy warns "Mean of empty slice" and returns). *)
Definition nanmean (row : list cell) : cell :=
  match numbers row with
  | [] => NaN
  | q :: l => Num (rsum (q :: l) / real_of_nat (length (q :: l)))%Qc
  end.

(** [np.where(np.isnan(row), row_mean, row)] *)
Definition fill_row (row : list cell) : list cell :=
  let row_mean := nanmean row in
  map (fun c => if isnull c then row_mean else c) row.

(** The loop over [np.where(row_has_nan)[0]]. *)
Definition fill_nan_rows (pixels : list (list cell)) : list (list cell) :=
  map (fun row => if existsb isnull row then fill_row row else row) pixels.

(** [a.min()], [a.max()]: [nan] as soon as an element is; an error on an
    array without element. *)
Definition cell_min (x y : cell) : cell :=
  match x, y with
  | Num a, Num b => Num (if Qc_leb a b then a else b)
  | _, _ => NaN
  end.

Definition cell_max (x y : cell) : cell :=
  match x, y with
  | Num a, Num b => Num (if Qc_leb a b then b else a)
  | _, _ => NaN
  end.

Definition np_min (l : list cell) : outcome cell :=
  match l with
  | [] => Raised (ValueError
      "zero-size array to reduction operation minimum which has no identity")
  | x :: l' => Returned (fold_left cell_min l' x)
  end.

Definition np_max (l : list cell) : outcome cell :=
  match l with
  | [] => Raised (ValueError
      "zero-size array to reduction operation maximum which has no identity")
  | x :: l' => Returned (fold_left cell_max l' x)
  end.

(** [np.clip(x, 0, 255)] on one element. *)
Definition clip_cell (c : cell) : cell :=
  match c with
  | NaN => NaN
  | Num q =>
      Num (if Qc_ltb q (real_of_Z 0) then real_of_Z 0
           else if Qc_ltb (real_of_Z 255) q then real_of_Z 255 else q)
  end.

(** [np.diff] *)
Fixpoint np_diff (l : list cell) : list cell :=
  match l with
  | x :: ((y :: _) as l') =>
      match x, y with
      | Num a, Num b => Num (b - a)%Qc
      | _, _ => NaN
      end :: np_diff l'
  | _ => []
  end.

(** [np.median]: [nan] on no element or on a [nan] element. *)
Definition np_median (l : list cell) : cell :=
  if existsb isnull l then NaN
  else
    let s := sort_by Qc_leb (numbers l) in
    let n := length s in
    match n with
    | O => NaN
    | _ =>
        if Nat.even n
        then Num ((nth (n / 2 - 1) s (real_of_Z 0) + nth (n / 2) s (real_of_Z 0))
                  / real_of_Z 2)%Qc
        else Num (nth (n / 2) s (real_of_Z 0))
    end.

Section Validate.

(** [df.sort_values("depth")] on a frame without missing depth.  pandas
    sorts with numpy's quicksort unless told otherwise, which is not stable:
    the order in which it leaves rows of equal depth is numpy's choice. *)
Variable sort_values : list df_row -> list df_row.

Definition validate_and_clean (df : DataFrame)
  : outcome (list cell * list (list cell) * ValidationReport) :=
  let raw_rows := length (df_rows df) in
  (* drop rows where all values are null *)
  let null_mask :=
    map (fun r => isnull (row_depth r) && forallb isnull (row_pixels r))
        (df_rows df) in
  let null_count := mask_sum null_mask in
  let rows1 :=
    if (0 <? int_value null_count)%nat then drop_masked (df_rows df) null_mask
    else df_rows df in
  (* drop rows with null depth *)
  let depth_null := map (fun r => isnull (row_depth r)) rows1 in
  let rows2 :=
    if existsb (fun b => b) depth_null then drop_masked rows1 depth_null
    else rows1 in
  (* sort by depth *)
  let rows3 := sort_values rows2 in
  (* drop duplicate depths, keep first *)
  let dup_mask := duplicated (map row_depth rows3) in
  let dup_count := mask_sum dup_mask in
  let rows4 :=
    if (0 <? int_value dup_count)%nat then drop_masked rows3 dup_mask
    else rows3 in
  (* extract arrays *)
  let depths := map row_depth rows4 in
  let pixels0 := map row_pixels rows4 in
  (* fill remaining NaN pixels with the row mean *)
  let row_has_nan := map (existsb isnull) pixels0 in
  let pixels1 :=
    if existsb (fun b => b) row_has_nan then fill_nan_rows pixels0
    else pixels0 in
  (* validate pixel range *)
  do px_min <- np_min (concat pixels1);;
  do px_max <- np_max (concat pixels1);;
  let pixels :=
    if cell_ltb px_min (Num (real_of_Z 0)) || cell_ltb (Num (real_of_Z 255)) px_max
    then map (map clip_cell) pixels1
    else pixels1 in
  (* depth step analysis *)
  let depth_diffs := np_diff depths in
  let is_monotonic :=
    forallb (fun c => cell_ltb (Num (real_of_Z 0)) c) depth_diffs in
  let depth_step := np_median depth_diffs in
  do dmin <- np_min depths;;
  do dmax <- np_max depths;;
  let report :=
    mk_report raw_rows (length depths) null_count dup_count dmin dmax
              depth_step is_monotonic px_min px_max (pixel_cols df) in
  Returned (depths, pixels, report).

End Validate.

(** What [validate_and_clean] relies on from [sort_values]: on rows that
    all have a depth, the result holds the same rows, in ascending order of
    depth. *)
Definition sort_values_contract (sort_values : list df_row -> list df_row)
  : Prop :=
  forall rows : list df_row,
    Forall (fun r => isnull (row_depth r) = false) rows ->
    Permutation rows (sort_values rows)
    /\ StronglySorted (holds depth_leb) (sort_values rows).

(** The output matrix holds a missing value. *)
Definition has_nan (pixels : list (list cell)) : bool :=
  existsb (existsb isnull) pixels.

(* ================================================================== *)
(** ** ingestion/pipeline.py: resize_image *)

(** OpenCV's interpolation flags. *)
Definition INTER_NEAREST : Z := 0.
Definition INTER_LINEAR : Z := 1.
Definition INTER_CUBIC : Z := 2.
Definition INTER_AREA : Z := 3.
Definition INTER_LANCZOS4 : Z := 4.

Definition INTERPOLATION_METHODS : list (string * Z) :=
  [ ("NEAREST", INTER_NEAREST);
    ("BILINEAR", INTER_LINEAR);
    ("BICUBIC", INTER_CUBIC);
    ("AREA", INTER_AREA);
    ("LANCZOS4", INTER_LANCZOS4) ].

(** [d.keys()], [key in d] and [d[key]] on a dict kept as its item list. *)
Definition dict_keys {V : Type} (d : list (string * V)) : list string :=
  map fst d.

Fixpoint dict_get {V : Type} (d : list (string * V)) (key : string) : option V :=
  match d with
  | [] => None
  | (k, v) :: d' => if String.eqb key k then Some v else dict_get d' key
  end.

(** [repr] of a key of the table: letters and digits, so the text between
    single quotes. *)
Definition repr_key (s : string) : string := "'" ++ s ++ "'".

(** [str] of a list of such keys. *)
Definition str_key_list (l : list string) : string :=
  "[" ++ String.concat ", " (map repr_key l) ++ "]".

(** [t] occurs in [s] ([t in s]). *)
Definition occurs_in (t s : string) : Prop :=
  exists pre post : string, s = pre ++ t ++ post.

(** C conversion of a number to an integer: towards zero. *)
Definition trunc (q : real) : Z := Z.quot (Qnum q) (Zpos (Qden q)).

(** A matrix without element: no row, or rows without column. *)
Definition is_empty {A : Type} (m : list (list A)) : bool :=
  match m with
  | [] => true
  | [] :: _ => true
  | _ => false
  end.

Section Resize.

(** The rounding of a number to the nearest [float32]. *)
Variable to_float32 : real -> real.

(** OpenCV's resampling of a source that has an element to the size
    [dsize = (width, height)], with the kernel [flag] names. *)
Variable resample :
  list (list cell) -> Z * nat -> Z -> outcome (list (list cell)).

(** The integer a platform produces when it converts [nan]. *)
Variable invalid_cast : Z.

(** [repr] of an arbitrary [str]. *)
Variable py_repr : string -> string.

(** [x.astype(np.float32)] *)
Definition astype_float32 (m : list (list cell)) : list (list cell) :=
  map (map (fun c => match c with
                     | NaN => NaN
                     | Num q => Num (to_float32 q)
                     end)) m.

(** [cv2.resize(src, dsize, interpolation=flag)]: OpenCV first asserts that
    the source has an element and raises [cv2.error] when it has none. *)
Definition cv2_resize (src : list (list cell)) (dsize : Z * nat) (flag : Z)
  : outcome (list (list cell)) :=
  if is_empty src then
    Raised (cv2_error (-215) "resize" "!ssize.empty()")
  else resample src dsize flag.

(** [c.astype(np.uint8)] on one element: conversion, then the low 8 bits. *)
Definition astype_uint8 (c : cell) : Z :=
  match c with
  | NaN => invalid_cast mod 256
  | Num q => trunc q mod 256
  end.

Definition resize_image (pixels : list (list cell)) (target_width : Z)
  (method : string) : outcome (list (list Z)) :=
  match dict_get INTERPOLATION_METHODS method with
  | None =>
      Raised (ValueError
        ("Unknown interpolation method: " ++ py_repr method
         ++ ". Available: " ++ str_key_list (dict_keys INTERPOLATION_METHODS)))
  | Some interp_flag =>
      let img_f32 := astype_float32 pixels in
      do resized <- cv2_resize img_f32 (target_width, length img_f32) interp_flag;;
      Returned (map (map (fun c => astype_uint8 (clip_cell c))) resized)
  end.

End Resize.

(** What [resize_image] relies on from OpenCV's resampling: on a source
    with at least one row and one column, a target size of at least 1 x 1
    and one of the five flags, it returns an array of the target size. *)
Definition cv2_resize_contract
  (resample : list (list cell) -> Z * nat -> Z -> outcome (list (list cell)))
  : Prop :=
  forall (src : list (list cell)) (w0 : nat) (w : Z) (h : nat) (flag : Z),
    src <> [] ->
    (1 <= w0)%nat ->
    Forall (fun row => length row = w0) src ->
    1 <= w ->
    (1 <= h)%nat ->
    In flag (map snd INTERPOLATION_METHODS) ->
    exists dst : list (list cell),
      resample src (w, h) flag = Returned dst
      /\ length dst = h
      /\ Forall (fun row => length row = Z.to_nat w) dst.

(** Nearest-neighbour resampling on exact positions: element [x] of the
    result is element [floor (x * n0 / n)] of the source.  Applied to the
    rows and to the columns it is an instance of the resampling on which to
    run [resize_image]. *)
Definition nearest {A : Type} (default : A) (n : nat) (l : list A) : list A :=
  map (fun x => nth (Nat.min (x * length l / n) (length l - 1)) l default)
      (seq 0 n).

Definition nearest_resize (src : list (list cell)) (dsize : Z * nat) (flag : Z)
  : outcome (list (list cell)) :=
  Returned (map (nearest NaN (Z.to_nat (fst dsize))) (nearest [] (snd dsize) src)).

(** The rounding to [float32] of a number that [float32] holds exactly, as
    the small integers and halves of the samples below are. *)
Definition exact_float32 (q : real) : real := q.

(* ================================================================== *)
(** ** api/routes.py: the checks of get_image_frame *)

Section Routes.

(** [registry.has(colormap)] and [registry.list_names()] as printed. *)
Variable registry_has : string -> bool.
Variable registry_names : string.
(** [str] of a float and [repr] of a colormap name, in messages. *)
Variable str_float : real -> string.
Variable repr_colormap : string -> string.
(** The tail of the handler: frame assembly, colormap, encoding. *)
Variable Response : Type.
Variable render : list ScanRow -> string -> string -> outcome Response.

Definition get_image_frame (depth_min depth_max : real)
  (colormap format : string) (repo : ImageRepository) : outcome Response :=
  if Qc_leb depth_max depth_min then
    Raised (HTTPException 400
      ("depth_min (" ++ str_float depth_min ++ ") must be less than depth_max ("
       ++ str_float depth_max ++ ")"))
  else if negb (registry_has colormap) then
    Raised (HTTPException 400
      ("Unknown colormap: " ++ repr_colormap colormap ++ ". Available: "
       ++ registry_names))
  else
    match get_depth_bounds repo with
    | Raised (ValueError _) =>
        Raised (HTTPException 503 "Database is empty. Run ingestion first.")
    | Raised e => Raised e
    | Returned (data_min, data_max) =>
        if Qc_ltb data_max depth_min || Qc_ltb depth_max data_min then
          Raised (HTTPException 404
            ("No data in range [" ++ str_float depth_min ++ ", "
             ++ str_float depth_max ++ "]. Available data range: ["
             ++ str_float data_min ++ ", " ++ str_float data_max ++ "]"))
        else
          do rows <- query_depth_range repo depth_min depth_max;;
          match rows with
          | [] =>
              Raised (HTTPException 404
                ("No scan rows found between " ++ str_float depth_min
                 ++ " and " ++ str_float depth_max))
          | _ => render rows colormap format
          end
    end.

End Routes.

(* ================================================================== *)
(** ** Sample data *)

(** The depths of [tests/conftest.py], with a 5 x 2 [uint8] array. *)
Definition sample_depths : list cell :=
  [ Num (real_of_Z 100); Num (Q2Qc (201 # 2)); Num (real_of_Z 101);
    Num (Q2Qc (203 # 2)); Num (real_of_Z 102) ].

Definition sample_pixel_data : ndarray :=
  mk_ndarray uint8 5 2 [0; 1; 2; 3; 4; 5; 6; 7; 8; 9].

Definition repository : ImageRepository := connect new_repository.

Definition populated_repository : ImageRepository :=
  snd (bulk_insert_scans repository sample_depths sample_pixel_data).


Definition repeated_depths : list cell :=
  [ Num (real_of_Z 100); Num (real_of_Z 101); Num (real_of_Z 100) ].

Definition three_rows : ndarray := mk_ndarray uint8 3 2 [1; 2; 3; 4; 5; 6].

(** Depths that are [nan], with a 2 x 2 array: a call whose arguments pass
    both checks of [bulk_insert_scans]. *)
Definition nan_depths : list cell := [NaN; NaN].

Definition two_rows : ndarray := mk_ndarray uint8 2 2 [1; 2; 3; 4].

(** The repository after that call, and after the same call again. *)
Definition nan_written_once : ImageRepository :=
  snd (bulk_insert_scans repository nan_depths two_rows).


(** Two sorts that meet [sort_values_contract]: the insertion sort, which
    keeps rows of equal depth in the order of the table, and the insertion
    sort of the reversed table, which reverses them. *)
Definition stable_sort (rows : list df_row) : list df_row :=
  sort_by depth_leb rows.

Definition reversing_sort (rows : list df_row) : list df_row :=
  sort_by depth_leb (rev rows).

Definition float_pixel_data : ndarray :=
  mk_ndarray float32 5 1 (repeat 0 20).

(** The table of the specification's scenario, and a table whose only row
    has a depth and no pixel value. *)
Definition scenario_table : DataFrame :=
  mk_df 2
    [ mk_row (Num (real_of_Z 1)) [Num (real_of_Z 10); Num (real_of_Z 20)];
      mk_row (Num (real_of_Z 1)) [Num (real_of_Z 30); Num (real_of_Z 40)];
      mk_row (Num (real_of_Z 2)) [Num (real_of_Z 5); NaN] ].

Definition all_missing_table : DataFrame :=
  mk_df 2 [ mk_row (Num (real_of_Z 1)) [NaN; NaN] ].

(* ================================================================== *)
(** ** Further notions used in the statements *)

(** No two rows of [metadata] share a key. *)
Definition meta_unique (self : ImageRepository) : Prop :=
  NoDup (map fst (metadata (db self))).

(** What every method answers on a repository that is not connected. *)
Definition not_connected : exn :=
  RuntimeError "Repository not connected. Call connect() first.".

(** The depths of a call that are not stored yet, each once. *)
Definition new_depths (stored depths : list real) : list real :=
  nodup Qc_eq_dec (filter (fun d => negb (existsb (Qc_eqb d) stored)) depths).

(** [INSERT OR REPLACE] as the rows that have a depth undergo it: the row of
    the same depth is deleted, then the new row is inserted.
    [not_null_executemany] below relates it to [Sql.executemany_scans]. *)
Definition upsert (t : list depth_record) (r : depth_record)
  : list depth_record :=
  filter (fun x => negb (Qc_eqb (fst x) (fst r))) t ++ [r].

Definition upsert_all (t rows : list depth_record) : list depth_record :=
  fold_left upsert rows t.

(** The depth of [x] is one of [ks]. *)
Definition depth_in (ks : list real) (x : depth_record) : bool :=
  existsb (Qc_eqb (fst x)) ks.

(** The stages of [validate_and_clean], named: the rows left after each
    drop, and the pixel matrix after the filling.  [validate_and_clean_stages]
    below shows that the function is their composition. *)
Definition drop_null_rows (rows : list df_row) : list df_row :=
  let null_mask :=
    map (fun r => isnull (row_depth r) && forallb isnull (row_pixels r)) rows in
  if (0 <? count_true null_mask)%nat then drop_masked rows null_mask else rows.

Definition drop_null_depths (rows : list df_row) : list df_row :=
  let depth_null := map (fun r => isnull (row_depth r)) rows in
  if existsb (fun b => b) depth_null then drop_masked rows depth_null else rows.

Definition drop_duplicates (rows : list df_row) : list df_row :=
  let dup_mask := duplicated (map row_depth rows) in
  if (0 <? count_true dup_mask)%nat then drop_masked rows dup_mask else rows.

Definition sorted_rows (sort_values : list df_row -> list df_row)
  (df : DataFrame) : list df_row :=
  sort_values (drop_null_depths (drop_null_rows (df_rows df))).

Definition cleaned_rows (sort_values : list df_row -> list df_row)
  (df : DataFrame) : list df_row :=
  drop_duplicates (sorted_rows sort_values df).

Definition filled_pixels (sort_values : list df_row -> list df_row)
  (df : DataFrame) : list (list cell) :=
  let pixels0 := map row_pixels (cleaned_rows sort_values df) in
  if existsb (fun b => b) (map (existsb isnull) pixels0)
  then fill_nan_rows pixels0 else pixels0.

(** A row without depth that still has a pixel value. *)
Definition depthless_with_pixels (r : df_row) : bool :=
  isnull (row_depth r) && negb (forallb isnull (row_pixels r)).

(** A pixel that is a number between 0 and 255. *)
Definition in_byte_range (c : cell) : Prop :=
  exists q : real, c = Num q /\ (real_of_Z 0 <= q)%Qc /\ (q <= real_of_Z 255)%Qc.

(* ================================================================== *)
(** ** api/routes.py: get_raw_frame *)

(** [fastapi.responses.Response] as the handler builds it. *)
Record Response : Type := mk_Response {
  content : bytes;
  media_type : string;
  headers : list (string * string)
}.

(** [np.array([row.pixel_data for row in rows])] when the rows have one
    length: a 2-D [uint8] array holding them in order. *)
Definition same_length (rows : list bytes) : bool :=
  forallb (fun r => (length r =? length (hd [] rows))%nat) rows.

Definition frame_of_rows (rows : list bytes) : ndarray :=
  mk_ndarray uint8 (length rows) (length (hd [] rows)) (concat rows).

Section RawRoutes.

(** [str] of a float, in headers and messages. *)
Variable str_float : real -> string.
(** What the handler does from [np.array] on when the rows differ in
    length, which depends on the numpy at hand. *)
Variable ragged_frame : list ScanRow -> outcome Response.

Definition get_raw_frame (depth_min depth_max : real) (repo : ImageRepository)
  : outcome Response :=
  if Qc_leb depth_max depth_min then
    Raised (HTTPException 400
      ("depth_min (" ++ str_float depth_min ++ ") must be less than depth_max ("
       ++ str_float depth_max ++ ")"))
  else
    do rows <- query_depth_range repo depth_min depth_max;;
    match rows with
    | [] =>
        Raised (HTTPException 404
          ("No scan rows found between " ++ str_float depth_min
           ++ " and " ++ str_float depth_max))
    | first :: _ =>
        if same_length (map pixel_data rows) then
          let frame := frame_of_rows (map pixel_data rows) in
          Returned (mk_Response
            (buffer frame)
            "application/octet-stream"
            [ ("X-Frame-Depth-Min", str_float (depth first));
              ("X-Frame-Depth-Max", str_float (depth (last rows first)));
              ("X-Frame-Rows", str_of_nat (shape0 frame));
              ("X-Frame-Width", str_of_nat (shape1 frame));
              ("X-Dtype", "uint8") ])
        else ragged_frame rows
    end.

End RawRoutes.

(* ================================================================== *)
(** ** config.py and the rest of ingestion/pipeline.py *)

(** [@dataclass class Settings]; paths are kept as strings. *)
Module Config.

Record Settings : Type := mk_Settings {
  data_dir : string;
  db_path : string;
  csv_filename : string;
  original_width : Z;
  target_width : Z;
  interpolation_method : string;
  host : string;
  port : Z;
  default_colormap : string;
  log_level : string
}.

(** The defaults of the dataclass. *)
Definition settings : Settings :=
  mk_Settings "data" "data/image_store.db" "Challenge2.csv" 200 150 "AREA"
              "0.0.0.0" 8000 "resistivity" "INFO".

End Config.

(** The values [json.dumps] is given here: an [int], a [numpy.int64] or a
    [bool]. *)
Inductive json : Type :=
| JInt (n : nat)
| JInt64 (n : nat)
| JBool (b : bool).

Definition json_of_integer (i : integer) : json :=
  match i with
  | py_int n => JInt n
  | np_int64 n => JInt64 n
  end.

(** The double quote, as its byte. *)
Definition dquote : string := String (ascii_of_nat 34) EmptyString.

Definition json_value_text (v : json) : string :=
  match v with
  | JInt n | JInt64 n => str_of_nat n
  | JBool true => "true"
  | JBool false => "false"
  end.

(** [json.dumps] of a dict whose keys need no escape: the encoder has no
    case for [numpy.int64], which is not a subclass of [int], and raises
    [TypeError] on meeting one; otherwise the text with the default
    separators. *)
Definition json_dumps (d : list (string * json)) : outcome string :=
  if existsb (fun kv => match snd kv with JInt64 _ => true | _ => false end) d
  then Raised (TypeError "Object of type int64 is not JSON serializable")
  else
    Returned
      ("{" ++ String.concat ", "
                (map (fun kv => dquote ++ fst kv ++ dquote ++ ": "
                                ++ json_value_text (snd kv)) d)
           ++ "}").

(** [for key, value in metadata.items(): repo.set_metadata(key, value)] *)
Fixpoint set_all_metadata (repo : ImageRepository) (items : list (string * string))
  : outcome unit * ImageRepository :=
  match items with
  | [] => (Returned tt, repo)
  | (key, value) :: items' =>
      match set_metadata repo key value with
      | (Raised e, repo') => (Raised e, repo')
      | (Returned _, repo') => set_all_metadata repo' items'
      end
  end.

(** The dict [store_to_database] hands to [json.dumps]. *)
Definition validation_summary (report : ValidationReport)
  : list (string * json) :=
  [ ("raw_rows", JInt (raw_rows report));
    ("clean_rows", JInt (clean_rows report));
    ("null_rows_dropped", json_of_integer (null_rows_dropped report));
    ("duplicate_depths_dropped",
     json_of_integer (duplicate_depths_dropped report));
    ("is_monotonic", JBool (is_monotonic report)) ].

Section Ingestion.

(** [str(x)] and [f"{x:.0f}"] of a float. *)
Variable str_float : cell -> string.
Variable format_0f : cell -> string.

(** [load_csv(settings.csv_path)]: the file system and [pd.read_csv]. *)
Variable load_csv : string -> string -> outcome DataFrame.

Variable sort_values : list df_row -> list df_row.
Variable to_float32 : real -> real.
Variable resample :
  list (list cell) -> Z * nat -> Z -> outcome (list (list cell)).
Variable invalid_cast : Z.
Variable py_repr : string -> string.

Definition store_to_database (repo : ImageRepository) (depths : list cell)
  (pixels : ndarray) (report : ValidationReport) (settings : Config.Settings)
  : outcome unit * ImageRepository :=
  match bulk_insert_scans repo depths pixels with
  | (Raised e, repo1) => (Raised e, repo1)
  | (Returned row_count, repo1) =>
      match json_dumps (validation_summary report) with
      | Raised e => (Raised e, repo1)
      | Returned summary =>
          set_all_metadata repo1
            [ ("original_width", str_of_nat (original_width report));
              ("resized_width", str_of_nat (shape1 pixels));
              ("depth_min", str_float (depth_min report));
              ("depth_max", str_float (depth_max report));
              ("depth_step", str_float (depth_step report));
              ("row_count", str_of_nat row_count);
              ("interpolation_method", Config.interpolation_method settings);
              ("source_file", Config.csv_filename settings);
              ("pixel_range_original",
               "[" ++ format_0f (pixel_min report) ++ ", "
                   ++ format_0f (pixel_max report) ++ "]");
              ("validation_summary", summary) ]
      end
  end.

(** [run_ingestion(settings)] on the database file at [settings.db_path]:
    the report or the error, and the file afterwards.  The [with] block
    connects a repository on the file and closes it on the way out. *)
Definition run_ingestion (settings : Config.Settings) (db_file : database)
  : outcome ValidationReport * database :=
  match load_csv (Config.data_dir settings) (Config.csv_filename settings) with
  | Raised e => (Raised e, db_file)
  | Returned df =>
      match validate_and_clean sort_values df with
      | Raised e => (Raised e, db_file)
      | Returned (depths, pixels, report) =>
          match resize_image to_float32 resample invalid_cast py_repr pixels
                  (Config.target_width settings)
                  (Config.interpolation_method settings) with
          | Raised e => (Raised e, db_file)
          | Returned resized =>
              let repo := connect (mk_repo db_file false) in
              let stored :=
                store_to_database repo depths (frame_of_rows resized)
                  report settings in
              let closed := close (snd stored) in
              match fst stored with
              | Raised e => (Raised e, db closed)
              | Returned _ => (Returned report, db closed)
              end
          end
      end
  end.

End Ingestion.

(* ================================================================== *)
(** ** colormaps/registry.py *)

(** [d[key] = value] on a dict kept as its item list: an existing key keeps
    its place, a new one goes last. *)
Fixpoint dict_set {V : Type} (d : list (string * V)) (key : string) (value : V)
  : list (string * V) :=
  match d with
  | [] => [(key, value)]
  | (k, v) :: d' =>
      if String.eqb k key then (k, value) :: d'
      else (k, v) :: dict_set d' key value
  end.

(** The result of a lookup that raises [KeyError]. *)
Inductive lookup (A : Type) : Type :=
| Found (a : A)
| KeyError (msg : string).

Arguments Found {A} a.
Arguments KeyError {A} msg.

(** The right arrow of the descriptions, as its three UTF-8 bytes. *)
Definition arrow : string :=
  String (ascii_of_nat 226) (String (ascii_of_nat 134)
         (String (ascii_of_nat 146) EmptyString)).

Definition _RESISTIVITY_COLORS : list string :=
  [ "#1a0a00"; "#4d2600"; "#8B4513"; "#CD853F"; "#DAA520"; "#FFD700";
    "#FFEC8B"; "#FFFACD"; "#FFFFFF" ].

Definition _GEOLOGICAL_COLORS : list string :=
  [ "#000033"; "#003366"; "#336633"; "#669933"; "#CC9933"; "#CC6633";
    "#993333"; "#FFFFFF" ].

Definition _HIGH_CONTRAST_COLORS : list string :=
  [ "#000000"; "#1a1a2e"; "#16213e"; "#0f3460"; "#e94560"; "#ff6b6b";
    "#ffd93d"; "#FFFFFF" ].

(** [class ColormapName(str, Enum)] of api/routes.py: its values. *)
Definition ColormapName : list string :=
  [ "resistivity"; "conductivity"; "geological"; "high_contrast"; "gray";
    "viridis" ].

Section Registry.

(** matplotlib's colormaps and the three ways the registry obtains one. *)
Variable Colormap : Type.
Variable from_list : string -> list string -> Z -> Colormap.
Variable reversed : Colormap -> Colormap.
Variable get_cmap : string -> Colormap.
(** The body of [apply] after the lookup: normalisation, colouring and
    encoding by matplotlib and PIL. *)
Variable encode : Colormap -> ndarray -> string -> Z -> bytes.
(** [repr] of a [str]. *)
Variable py_repr : string -> string.

Record ColormapRegistry : Type := mk_registry {
  _colormaps : list (string * Colormap);
  _descriptions : list (string * string)
}.

Definition register (self : ColormapRegistry) (name : string) (cmap : Colormap)
  (description : string) : ColormapRegistry :=
  mk_registry (dict_set (_colormaps self) name cmap)
              (dict_set (_descriptions self) name description).

Definition has (self : ColormapRegistry) (name : string) : bool :=
  existsb (String.eqb name) (dict_keys (_colormaps self)).

(** [sorted(self._colormaps.keys())] *)
Definition list_names (self : ColormapRegistry) : list string :=
  sort_by String.leb (dict_keys (_colormaps self)).

(** [str] of a list of [str]. *)
Definition str_list (l : list string) : string :=
  "[" ++ String.concat ", " (map py_repr l) ++ "]".

(** [get]: the membership test and the subscript are one lookup. *)
Definition get (self : ColormapRegistry) (name : string) : lookup Colormap :=
  match dict_get (_colormaps self) name with
  | None =>
      KeyError ("Unknown colormap: " ++ py_repr name ++ ". Available: "
                ++ str_list (list_names self))
  | Some cmap => Found cmap
  end.

Definition list_colormaps (self : ColormapRegistry)
  : list (list (string * string)) :=
  map (fun name =>
         [ ("name", name);
           ("description",
            match dict_get (_descriptions self) name with
            | Some d => d
            | None => ""
            end) ])
      (list_names self).

Definition apply (self : ColormapRegistry) (name : string)
  (pixel_array : ndarray) (output_format : string) (jpeg_quality : Z)
  : lookup bytes :=
  match get self name with
  | KeyError msg => KeyError msg
  | Found cmap => Found (encode cmap pixel_array output_format jpeg_quality)
  end.

Definition _register_defaults (self : ColormapRegistry) : ColormapRegistry :=
  let self1 :=
    register self "resistivity"
      (from_list "resistivity" _RESISTIVITY_COLORS 256)
      ("Brown" ++ arrow ++ "Gold" ++ arrow
       ++ "White: standard for resistivity image logs") in
  let self2 :=
    register self1 "conductivity"
      (reversed (from_list "resistivity" _RESISTIVITY_COLORS 256))
      ("White" ++ arrow ++ "Gold" ++ arrow
       ++ "Brown: inverted resistivity (conductivity convention)") in
  let self3 :=
    register self2 "geological"
      (from_list "geological" _GEOLOGICAL_COLORS 256)
      ("Blue" ++ arrow ++ "Green" ++ arrow ++ "Brown" ++ arrow
       ++ "White: formation boundary interpretation") in
  let self4 :=
    register self3 "high_contrast"
      (from_list "high_contrast" _HIGH_CONTRAST_COLORS 256)
      ("Dark" ++ arrow ++ "Red" ++ arrow ++ "Yellow" ++ arrow
       ++ "White: fracture detection and thin-bed analysis") in
  let self5 :=
    register self4 "gray" (get_cmap "gray")
      "Standard grayscale: raw data visualization" in
  register self5 "viridis" (get_cmap "viridis")
    "Perceptually uniform: general-purpose scientific visualization".

(** [ColormapRegistry()] *)
Definition new_registry : ColormapRegistry :=
  _register_defaults (mk_registry [] []).

(** A registry as any sequence of [register] calls leaves it. *)
Definition registered (calls : list (string * Colormap * string))
  (self : ColormapRegistry) : ColormapRegistry :=
  fold_left (fun s c => register s (fst (fst c)) (snd (fst c)) (snd c))
            calls self.

End Registry.

(* ================================================================== *)
(** * Properties *)

Open Scope list_scope.

(** ** Comparisons on reals *)

Lemma Qc_leb_le (x y : real) : Qc_leb x y = true <-> (x <= y)%Qc.
Proof. unfold Qc_leb, Qcle. apply Qle_bool_iff. Qed.

Lemma Qc_eqb_eq (x y : real) : Qc_eqb x y = true <-> x = y.
Proof.
  unfold Qc_eqb. rewrite Qeq_bool_iff. split.
  - apply Qc_is_canon.
  - intros ->. reflexivity.
Qed.

Lemma Qc_eqb_refl (x : real) : Qc_eqb x x = true.
Proof. now apply Qc_eqb_eq. Qed.

Lemma Qc_eqb_neq (x y : real) : Qc_eqb x y = false <-> x <> y.
Proof.
  rewrite <- Qc_eqb_eq. destruct (Qc_eqb x y); split; congruence.
Qed.

Lemma Qc_leb_total (x y : real) : Qc_leb x y = true \/ Qc_leb y x = true.
Proof.
  rewrite !Qc_leb_le. destruct (Qclt_le_dec x y) as [H | H].
  - left. now apply Qclt_le_weak.
  - now right.
Qed.

Lemma Qc_leb_false (x y : real) : Qc_leb x y = false <-> (y < x)%Qc.
Proof.
  split; intros H.
  - apply Qcnot_le_lt. rewrite <- Qc_leb_le. congruence.
  - destruct (Qc_leb x y) eqn:E; [| reflexivity].
    apply Qc_leb_le in E. now apply Qclt_not_le in H.
Qed.

Lemma Qc_ltb_lt (x y : real) : Qc_ltb x y = true <-> (x < y)%Qc.
Proof.
  unfold Qc_ltb. rewrite negb_true_iff. apply Qc_leb_false.
Qed.

(** ** The insertion sort *)

Section SortBy.

Context {A : Type} (leb : A -> A -> bool).

Hypothesis leb_total : forall x y, leb x y = true \/ leb y x = true.
Hypothesis leb_trans :
  forall x y z, leb x y = true -> leb y z = true -> leb x z = true.

Lemma insert_by_perm (x : A) (l : list A) :
  Permutation (insert_by leb x l) (x :: l).
Proof.
  induction l as [| y l IH]; simpl.
  - reflexivity.
  - destruct (leb x y).
    + reflexivity.
    + rewrite IH. apply perm_swap.
Qed.

Lemma sort_by_perm (l : list A) : Permutation (sort_by leb l) l.
Proof.
  induction l as [| x l IH]; simpl.
  - constructor.
  - rewrite insert_by_perm. now constructor.
Qed.

Lemma insert_by_sorted (x : A) (l : list A) :
  StronglySorted (holds leb) l -> StronglySorted (holds leb) (insert_by leb x l).
Proof.
  induction 1 as [| y l Hs IH Hy]; simpl.
  - repeat constructor.
  - destruct (leb x y) eqn:E.
    + constructor; [now constructor |].
      constructor; [exact E |].
      rewrite Forall_forall in *. intros z Hz.
      apply leb_trans with y; [exact E | now apply Hy].
    + constructor; [exact IH |].
      rewrite Forall_forall in *. intros z Hz.
      apply (Permutation_in _ (insert_by_perm x l)) in Hz.
      destruct Hz as [<- | Hz]; [| now apply Hy].
      destruct (leb_total x y) as [H | H]; [congruence | exact H].
Qed.

Lemma sort_by_sorted (l : list A) : StronglySorted (holds leb) (sort_by leb l).
Proof.
  induction l as [| x l IH]; simpl.
  - constructor.
  - now apply insert_by_sorted.
Qed.

End SortBy.

(** ** The SQL fragments *)

Lemma depth_order_total (r1 r2 : depth_record) :
  Sql.depth_order r1 r2 = true \/ Sql.depth_order r2 r1 = true.
Proof. apply Qc_leb_total. Qed.

Lemma depth_order_trans (r1 r2 r3 : depth_record) :
  Sql.depth_order r1 r2 = true -> Sql.depth_order r2 r3 = true ->
  Sql.depth_order r1 r3 = true.
Proof.
  unfold Sql.depth_order. rewrite !Qc_leb_le. apply Qcle_trans.
Qed.

Lemma in_range_spec (a b : real) (r : depth_record) :
  Sql.in_range a b r = true <-> (a <= fst r)%Qc /\ (fst r <= b)%Qc.
Proof.
  unfold Sql.in_range. now rewrite andb_true_iff, !Qc_leb_le.
Qed.

Lemma not_null_app (t t' : list scan_record) :
  Sql.not_null (t ++ t') = Sql.not_null t ++ Sql.not_null t'.
Proof. apply flat_map_app. Qed.

Lemma not_null_in (t : list scan_record) (d : real) (px : bytes) :
  In (d, px) (Sql.not_null t) <-> In (Some d, px) t.
Proof.
  unfold Sql.not_null. rewrite in_flat_map. split.
  - intros ([[k |] p] & Hin & H); simpl in H; [| contradiction].
    destruct H as [E | []]. now inversion E; subst.
  - intros H. exists (Some d, px). split; [exact H | now left].
Qed.

Lemma not_null_keys (t : list scan_record) (d : real) :
  In d (map fst (Sql.not_null t)) <-> In (Some d) (map fst t).
Proof.
  rewrite !in_map_iff. split.
  - intros ([d' px] & E & H). simpl in E. subst d'.
    exists (Some d, px). split; [reflexivity | now apply not_null_in].
  - intros ([k px] & E & H). simpl in E. subst k.
    exists (d, px). split; [reflexivity | now apply not_null_in].
Qed.

Lemma select_range_perm (t : list scan_record) (a b : real) :
  Permutation (Sql.select_range t a b)
              (filter (Sql.in_range a b) (Sql.not_null t)).
Proof. apply sort_by_perm. Qed.

Lemma select_range_sorted (t : list scan_record) (a b : real) :
  StronglySorted (fun r1 r2 => (fst r1 <= fst r2)%Qc) (Sql.select_range t a b).
Proof.
  assert (H := sort_by_sorted Sql.depth_order depth_order_total
                 depth_order_trans (filter (Sql.in_range a b) (Sql.not_null t))).
  unfold Sql.select_range, Sql.order_by_depth.
  induction H as [| r l Hs IH Hr]; constructor.
  - exact IH.
  - rewrite Forall_forall in *. intros z Hz. apply Qc_leb_le. now apply Hr.
Qed.

Lemma NoDup_keys_filter (f : depth_record -> bool) (t : list depth_record) :
  NoDup (map fst t) -> NoDup (map fst (filter f t)).
Proof.
  induction t as [| x t IH]; simpl; intros H.
  - constructor.
  - inversion H as [| ? ? Hx Ht]; subst.
    destruct (f x); simpl; [constructor |]; auto.
    intros Hin. apply Hx. apply in_map_iff in Hin.
    destruct Hin as (y & Hy & Hin). apply filter_In in Hin.
    apply in_map_iff. exists y. tauto.
Qed.

Lemma sorted_nodup_strict (l : list depth_record) :
  StronglySorted (fun r1 r2 => (fst r1 <= fst r2)%Qc) l ->
  NoDup (map fst l) ->
  StronglySorted (fun r1 r2 => (fst r1 < fst r2)%Qc) l.
Proof.
  induction 1 as [| r l Hs IH Hr]; simpl; intros Hnd.
  - constructor.
  - inversion Hnd as [| ? ? Hx Hl]; subst. constructor; [auto |].
    rewrite Forall_forall in *. intros z Hz.
    destruct (Qcle_lt_or_eq _ _ (Hr z Hz)) as [Hlt | Heq]; [exact Hlt |].
    exfalso. apply Hx. apply in_map_iff. exists z. split; [now symmetry | exact Hz].
Qed.

(** ** INSERT OR REPLACE on the rows that have a depth *)

Lemma depth_in_spec (ks : list real) (x : depth_record) :
  depth_in ks x = true <-> In (fst x) ks.
Proof.
  unfold depth_in. rewrite existsb_exists. split.
  - intros (k & Hk & E). apply Qc_eqb_eq in E. now rewrite E.
  - intros H. exists (fst x). split; [exact H | apply Qc_eqb_refl].
Qed.

Lemma filter_all {A : Type} (f : A -> bool) (l : list A) :
  (forall x, In x l -> f x = true) -> filter f l = l.
Proof.
  induction l as [| x l IH]; simpl; intros H; [reflexivity |].
  rewrite (H x (or_introl eq_refl)). f_equal. apply IH. auto.
Qed.

Lemma filter_none {A : Type} (f : A -> bool) (l : list A) :
  (forall x, In x l -> f x = false) -> filter f l = [].
Proof.
  induction l as [| x l IH]; simpl; intros H; [reflexivity |].
  rewrite (H x (or_introl eq_refl)). apply IH. auto.
Qed.

Lemma filter_twice {A : Type} (f g : A -> bool) (l : list A) :
  filter f (filter g l) = filter (fun x => g x && f x) l.
Proof.
  induction l as [| x l IH]; simpl; [reflexivity |].
  destruct (g x); simpl; [destruct (f x) |]; now rewrite IH.
Qed.

Lemma upsert_all_cons (t : list depth_record) (r : depth_record)
  (rows : list depth_record) :
  upsert_all t (r :: rows) = upsert_all (upsert t r) rows.
Proof. reflexivity. Qed.

Lemma upsert_all_app (t rows1 rows2 : list depth_record) :
  upsert_all t (rows1 ++ rows2) = upsert_all (upsert_all t rows1) rows2.
Proof. apply fold_left_app. Qed.

(** What a bulk write leaves: the old rows under other depths, then what the
    same write leaves in an empty table. *)
Lemma upsert_all_split (rows t : list depth_record) :
  upsert_all t rows
  = filter (fun x => negb (depth_in (map fst rows) x)) t ++ upsert_all [] rows.
Proof.
  revert t. induction rows as [| r rows IH]; intros t.
  - simpl. rewrite app_nil_r. symmetry. now apply filter_all.
  - rewrite !upsert_all_cons, IH. rewrite (IH (upsert [] r)).
    unfold upsert. simpl filter at 3.
    rewrite filter_app, filter_twice, app_nil_l, <- app_assoc.
    f_equal. apply filter_ext. intros x. unfold depth_in. simpl.
    now rewrite negb_orb.
Qed.

Lemma upsert_all_in (rows t : list depth_record) (x : depth_record) :
  In x (upsert_all t rows) -> In x t \/ In x rows.
Proof.
  revert t. induction rows as [| r rows IH]; intros t; simpl.
  - now left.
  - intros H. apply IH in H. destruct H as [H | H]; [| now right; right].
    unfold upsert in H. apply in_app_or in H.
    destruct H as [H | [<- | []]].
    + apply filter_In in H. now left.
    + right. now left.
Qed.


Lemma upsert_keys (t : list depth_record) (r : depth_record) (k : real) :
  In k (map fst (upsert t r)) <-> In k (map fst t) \/ k = fst r.
Proof.
  unfold upsert. rewrite map_app, in_app_iff. simpl.
  rewrite !in_map_iff. split.
  - intros [(x & E & H) | [E | []]]; [| now right].
    apply filter_In in H. left. exists x. tauto.
  - intros [(x & E & H) | E]; [| now right; left].
    destruct (Qc_eqb (fst x) (fst r)) eqn:Q.
    + apply Qc_eqb_eq in Q. right. left. congruence.
    + left. exists x. split; [exact E |]. apply filter_In. now rewrite Q.
Qed.

Lemma upsert_unique (t : list depth_record) (r : depth_record) :
  NoDup (map fst t) -> NoDup (map fst (upsert t r)).
Proof.
  intros H. unfold upsert. rewrite map_app.
  apply NoDup_app.
  - now apply NoDup_keys_filter.
  - simpl. constructor; [intros [] | constructor].
  - intros k Hk [<- | []]. apply in_map_iff in Hk.
    destruct Hk as (x & E & Hx). apply filter_In in Hx.
    destruct Hx as [_ Hx]. apply negb_true_iff, Qc_eqb_neq in Hx. congruence.
Qed.

Lemma upsert_all_unique (rows t : list depth_record) :
  NoDup (map fst t) -> NoDup (map fst (upsert_all t rows)).
Proof.
  revert t. induction rows as [| r rows IH]; intros t H; simpl; [exact H |].
  apply IH. now apply upsert_unique.
Qed.

Lemma upsert_all_keys (rows t : list depth_record) (k : real) :
  In k (map fst (upsert_all t rows))
  <-> In k (map fst t) \/ In k (map fst rows).
Proof.
  revert t. induction rows as [| r rows IH]; intros t; simpl.
  - tauto.
  - rewrite IH, upsert_keys. intuition congruence.
Qed.

(** The row written last under a depth is the one stored. *)
Lemma upsert_all_last (t rows1 rows2 : list depth_record) (r : depth_record) :
  ~ In (fst r) (map fst rows2) ->
  In r (upsert_all t (rows1 ++ r :: rows2)).
Proof.
  intros H. rewrite upsert_all_app, upsert_all_cons, upsert_all_split.
  apply in_or_app. left. apply filter_In. split.
  - unfold upsert. apply in_or_app. right. now left.
  - apply negb_true_iff. destruct (depth_in (map fst rows2) r) eqn:E; [| reflexivity].
    apply depth_in_spec in E. contradiction.
Qed.

Lemma upsert_all_fresh (rows t : list depth_record) :
  NoDup (map fst (t ++ rows)) -> upsert_all t rows = t ++ rows.
Proof.
  revert t. induction rows as [| r rows IH]; intros t H; simpl.
  - now rewrite app_nil_r.
  - assert (E : upsert t r = t ++ [r]).
    { unfold upsert. f_equal. apply filter_all.
      intros x Hx. apply negb_true_iff, Qc_eqb_neq. intros C.
      rewrite map_app in H. simpl in H. apply NoDup_remove_2 in H.
      apply H. apply in_or_app. left. rewrite <- C. now apply in_map. }
    rewrite E, IH; rewrite <- app_assoc; [reflexivity | exact H].
Qed.

(** Under a unique key, a point query finds the one row of that depth. *)
Lemma unique_point_filter (t : list depth_record) (r : depth_record) :
  NoDup (map fst t) -> In r t ->
  filter (Sql.in_range (fst r) (fst r)) t = [r].
Proof.
  assert (P : forall x, Sql.in_range (fst r) (fst r) x = true <-> fst x = fst r).
  { intros x. rewrite in_range_spec. split.
    - intros [H1 H2]. now apply Qcle_antisym.
    - intros ->. split; apply Qcle_refl. }
  induction t as [| x t IH]; simpl; intros Hnd Hin; [contradiction |].
  inversion Hnd as [| ? ? Hx Ht]; subst.
  destruct Hin as [-> | Hin].
  - rewrite (proj2 (P r) eq_refl). f_equal. apply filter_none.
    intros y Hy. destruct (Sql.in_range (fst r) (fst r) y) eqn:E; [| reflexivity].
    apply P in E. exfalso. apply Hx. rewrite <- E. now apply in_map.
  - destruct (Sql.in_range (fst r) (fst r) x) eqn:E; [| now apply IH].
    apply P in E. exfalso. apply Hx. rewrite E. now apply in_map.
Qed.


(** ** INSERT OR REPLACE on the table, NULL depths included *)

Lemma key_eqb_spec (x y : option real) :
  Sql.key_eqb x y = true <-> exists d, x = Some d /\ y = Some d.
Proof.
  destruct x as [a |], y as [b |]; simpl; split; try discriminate.
  - intros H. apply Qc_eqb_eq in H. subst. now exists b.
  - intros (d & E1 & E2). inversion E1; inversion E2; subst. apply Qc_eqb_refl.
  - intros (d & E1 & E2). discriminate.
  - intros (d & E1 & E2). discriminate.
  - intros (d & E1 & E2). discriminate.
Qed.

Lemma key_in_spec (ks : list (option real)) (x : scan_record) :
  key_in ks x = true <-> exists d, fst x = Some d /\ In (Some d) ks.
Proof.
  unfold key_in. rewrite existsb_exists. split.
  - intros (k & Hk & E). apply key_eqb_spec in E.
    destruct E as (d & E1 & E2). subst k. now exists d.
  - intros (d & E & H). exists (Some d). split; [exact H |].
    apply key_eqb_spec. now exists d.
Qed.

Lemma executemany_cons (t : list scan_record) (r : scan_record)
  (rows : list scan_record) :
  Sql.executemany_scans t (r :: rows)
  = Sql.executemany_scans (Sql.insert_or_replace_scan t r) rows.
Proof. reflexivity. Qed.

Lemma executemany_app (t rows1 rows2 : list scan_record) :
  Sql.executemany_scans t (rows1 ++ rows2)
  = Sql.executemany_scans (Sql.executemany_scans t rows1) rows2.
Proof. apply fold_left_app. Qed.

(** What a bulk write leaves in the table: the old rows that conflict with
    none of its keys, then what the same write leaves in an empty table. *)
Lemma executemany_split (rows t : list scan_record) :
  Sql.executemany_scans t rows
  = filter (fun x => negb (key_in (map fst rows) x)) t
    ++ Sql.executemany_scans [] rows.
Proof.
  revert t. induction rows as [| r rows IH]; intros t.
  - simpl. rewrite app_nil_r. symmetry. now apply filter_all.
  - rewrite !executemany_cons, IH. rewrite (IH (Sql.insert_or_replace_scan [] r)).
    unfold Sql.insert_or_replace_scan. simpl filter at 3.
    rewrite filter_app, filter_twice, app_nil_l, <- app_assoc.
    f_equal. apply filter_ext. intros x. unfold key_in. simpl.
    now rewrite negb_orb.
Qed.

Lemma executemany_in (rows t : list scan_record) (x : scan_record) :
  In x (Sql.executemany_scans t rows) -> In x t \/ In x rows.
Proof.
  revert t. induction rows as [| r rows IH]; intros t; simpl.
  - now left.
  - intros H. apply IH in H. destruct H as [H | H]; [| now right; right].
    unfold Sql.insert_or_replace_scan in H. apply in_app_or in H.
    destruct H as [H | [<- | []]].
    + apply filter_In in H. now left.
    + right. now left.
Qed.

(** Writing rows that all have a depth a second time changes nothing. *)
Lemma executemany_twice (rows t : list scan_record) :
  (forall x, In x rows -> fst x <> None) ->
  Sql.executemany_scans (Sql.executemany_scans t rows) rows
  = Sql.executemany_scans t rows.
Proof.
  intros Hk.
  rewrite (executemany_split rows (Sql.executemany_scans t rows)).
  rewrite (executemany_split rows t) at 1.
  rewrite filter_app, filter_twice.
  rewrite (filter_none _ (Sql.executemany_scans [] rows)).
  - rewrite app_nil_r, (executemany_split rows t). f_equal.
    apply filter_ext. intros x. now rewrite andb_diag.
  - intros x Hx. apply executemany_in in Hx. destruct Hx as [[] | Hx].
    apply negb_false_iff, key_in_spec.
    destruct (fst x) as [d |] eqn:E; [| now apply Hk in Hx].
    exists d. split; [reflexivity |]. rewrite <- E. now apply in_map.
Qed.



(** The rows that have a depth undergo an upsert; the rows without depth
    are kept, and every new one is added. *)
Lemma not_null_filter_key (t : list scan_record) (k : option real) :
  Sql.not_null (filter (fun x => negb (Sql.key_eqb (fst x) k)) t)
  = match k with
    | Some d => filter (fun x => negb (Qc_eqb (fst x) d)) (Sql.not_null t)
    | None => Sql.not_null t
    end.
Proof.
  induction t as [| [[a |] px] t IH]; simpl.
  - now destruct k.
  - destruct k as [d |]; simpl.
    + destruct (Qc_eqb a d); simpl; now rewrite IH.
    + now rewrite IH.
  - destruct k as [d |]; simpl; exact IH.
Qed.

Lemma not_null_insert (t : list scan_record) (r : scan_record) :
  Sql.not_null (Sql.insert_or_replace_scan t r)
  = upsert_all (Sql.not_null t) (Sql.not_null [r]).
Proof.
  unfold Sql.insert_or_replace_scan.
  rewrite not_null_app, not_null_filter_key.
  destruct r as [[d |] px]; simpl; [reflexivity | apply app_nil_r].
Qed.

Lemma not_null_executemany (rows t : list scan_record) :
  Sql.not_null (Sql.executemany_scans t rows)
  = upsert_all (Sql.not_null t) (Sql.not_null rows).
Proof.
  revert t. induction rows as [| r rows IH]; intros t; [reflexivity |].
  rewrite executemany_cons, IH, not_null_insert.
  change (r :: rows) with ([r] ++ rows).
  now rewrite not_null_app, upsert_all_app.
Qed.

Lemma null_rows_executemany (rows t : list scan_record) :
  null_rows (Sql.executemany_scans t rows) = null_rows t ++ null_rows rows.
Proof.
  revert t. induction rows as [| r rows IH]; intros t.
  - simpl. now rewrite app_nil_r.
  - rewrite executemany_cons, IH. unfold Sql.insert_or_replace_scan, null_rows.
    rewrite filter_app, filter_twice, <- app_assoc. f_equal.
    apply filter_ext. intros [[a |] px]; simpl; [apply andb_false_r |].
    reflexivity.
    destruct r as [[a |] px]; reflexivity.
Qed.

Lemma length_not_null (t : list scan_record) :
  length t = (length (Sql.not_null t) + length (null_rows t))%nat.
Proof.
  induction t as [| [[a |] px] t IH]; simpl; lia.
Qed.

Lemma scan_rows_keys (depths : list cell) (pixel_array : ndarray) :
  map fst (scan_rows depths pixel_array) = map bind_float depths.
Proof.
  unfold scan_rows. rewrite map_map. simpl.
  induction depths as [| d depths IH]; [reflexivity |].
  cbn [length seq map nth]. f_equal.
  rewrite <- seq_shift, map_map. exact IH.
Qed.

Lemma scan_rows_length (depths : list cell) (pixel_array : ndarray) :
  length (scan_rows depths pixel_array) = length depths.
Proof. unfold scan_rows. now rewrite length_map, length_seq. Qed.

Lemma not_null_numbers (rows : list scan_record) (depths : list cell) :
  map fst rows = map bind_float depths ->
  map fst (Sql.not_null rows) = numbers depths.
Proof.
  revert depths. induction rows as [| [k px] rows IH]; intros [| c depths] H;
    try discriminate; [reflexivity |].
  simpl in H. injection H as Hk Hrest. specialize (IH depths Hrest).
  destruct c as [| q]; simpl in Hk; subst k; simpl; now rewrite IH.
Qed.

Lemma null_rows_count (rows : list scan_record) (depths : list cell) :
  map fst rows = map bind_float depths ->
  length (null_rows rows) = count_nan depths.
Proof.
  unfold count_nan.
  revert depths. induction rows as [| [k px] rows IH]; intros [| c depths] H;
    try discriminate; [reflexivity |].
  simpl in H. injection H as Hk Hrest. specialize (IH depths Hrest).
  destruct c as [| q]; simpl in Hk; subst k; simpl; now rewrite IH.
Qed.


Lemma numbers_in (depths : list cell) (q : real) :
  In q (numbers depths) <-> In (Num q) depths.
Proof.
  induction depths as [| [| x] depths IH]; simpl.
  - tauto.
  - rewrite IH. intuition discriminate.
  - rewrite IH. split; intros [E | H]; auto; left; congruence.
Qed.


(** A valid bulk write on a connected repository, unfolded. *)
Lemma bulk_insert_scans_ok (self : ImageRepository) (depths : list cell)
  (pixel_array : ndarray) :
  _conn self = true ->
  length depths = shape0 pixel_array ->
  dtype pixel_array = uint8 ->
  bulk_insert_scans self depths pixel_array
  = (Returned (length depths),
     mk_repo (mk_database
                (Sql.executemany_scans (image_scans (db self))
                                       (scan_rows depths pixel_array))
                (metadata (db self)))
             true).
Proof.
  intros Hc Hs Hd. unfold bulk_insert_scans, conn.
  rewrite Hs, Nat.eqb_refl, Hd, Hc. simpl.
  now rewrite scan_rows_length, Hs.
Qed.

Lemma StronglySorted_map {A B : Type} (f : A -> B) (R : A -> A -> Prop)
  (S : B -> B -> Prop) (l : list A) :
  (forall x y, R x y -> S (f x) (f y)) ->
  StronglySorted R l -> StronglySorted S (map f l).
Proof.
  intros HRS. induction 1 as [| x l Hs IH Hx]; simpl; constructor.
  - exact IH.
  - rewrite Forall_forall in *. intros y Hy. apply in_map_iff in Hy.
    destruct Hy as (z & <- & Hz). auto.
Qed.

Lemma fold_rmin_spec (l : list real) (x : real) :
  In (fold_left Sql.rmin l x) (x :: l)
  /\ forall d, In d (x :: l) -> (fold_left Sql.rmin l x <= d)%Qc.
Proof.
  revert x. induction l as [| y l IH]; intros x; simpl.
  - split; [now left |]. intros d [<- | []]. apply Qcle_refl.
  - destruct (IH (Sql.rmin x y)) as [Hin Hle]. unfold Sql.rmin in *.
    destruct (Qc_leb x y) eqn:E.
    + split; [simpl in Hin; tauto |].
      intros d [<- | [<- | Hd]].
      * apply Hle. now left.
      * apply Qcle_trans with x; [apply Hle; now left | now apply Qc_leb_le].
      * apply Hle. now right.
    + split; [simpl in Hin; tauto |].
      intros d [<- | [<- | Hd]].
      * apply Qcle_trans with y; [apply Hle; now left |].
        apply Qclt_le_weak. now apply Qc_leb_false.
      * apply Hle. now left.
      * apply Hle. now right.
Qed.

Lemma fold_rmax_spec (l : list real) (x : real) :
  In (fold_left Sql.rmax l x) (x :: l)
  /\ forall d, In d (x :: l) -> (d <= fold_left Sql.rmax l x)%Qc.
Proof.
  revert x. induction l as [| y l IH]; intros x; simpl.
  - split; [now left |]. intros d [<- | []]. apply Qcle_refl.
  - destruct (IH (Sql.rmax x y)) as [Hin Hle]. unfold Sql.rmax in *.
    destruct (Qc_leb x y) eqn:E.
    + split; [simpl in Hin; tauto |].
      intros d [<- | [<- | Hd]].
      * apply Qcle_trans with y; [now apply Qc_leb_le | apply Hle; now left].
      * apply Hle. now left.
      * apply Hle. now right.
    + split; [simpl in Hin; tauto |].
      intros d [<- | [<- | Hd]].
      * apply Hle. now left.
      * apply Qcle_trans with x; [| apply Hle; now left].
        apply Qclt_le_weak. now apply Qc_leb_false.
      * apply Hle. now right.
Qed.

(** ** Range queries *)

(** C2.  On a connected repository, whatever it stores and whatever the
    bounds [a] and [b], [query_depth_range a b] returns (it does not raise)
    exactly the stored rows whose depth [d] satisfies [a <= d <= b], both
    ends included, in ascending order of depth (strictly ascending when
    depths are unique); when no stored depth lies in the range the result is
    the empty list. *)
Theorem query_depth_range_inclusive_sorted
  (self : ImageRepository) (a b : real) :
  _conn self = true ->
  exists rows : list ScanRow,
    query_depth_range self a b = Returned rows
    /\ Permutation rows
         (map to_ScanRow
              (filter (Sql.in_range a b) (Sql.not_null (image_scans (db self)))))
    /\ (forall d px,
          In (mk_ScanRow d px) rows
          <-> In (Some d, px) (image_scans (db self))
              /\ (a <= d)%Qc /\ (d <= b)%Qc)
    /\ StronglySorted (fun r1 r2 => (depth r1 <= depth r2)%Qc) rows
    /\ (depth_unique self ->
        StronglySorted (fun r1 r2 => (depth r1 < depth r2)%Qc) rows)
    /\ ((forall d, In d (stored_depths self) -> ~ ((a <= d)%Qc /\ (d <= b)%Qc)) ->
        rows = []).
Proof.
  intros Hc. unfold query_depth_range, conn. rewrite Hc. simpl.
  set (t := image_scans (db self)).
  eexists. split; [reflexivity |].
  assert (Hperm := select_range_perm t a b).
  assert (Hsort := select_range_sorted t a b).
  split; [now apply Permutation_map |].
  split; [| split; [| split]].
  - intros d px. rewrite <- not_null_in. split.
    + intros H. apply in_map_iff in H. destruct H as ([d' px'] & E & H).
      inversion E; subst. apply (Permutation_in _ Hperm), filter_In in H.
      destruct H as [Hin H]. apply in_range_spec in H. tauto.
    + intros (Hin & Ha & Hb). apply in_map_iff. exists (d, px).
      split; [reflexivity |].
      apply (Permutation_in _ (Permutation_sym Hperm)), filter_In.
      split; [exact Hin | now apply in_range_spec].
  - eapply StronglySorted_map; [| exact Hsort]. auto.
  - intros Hu. eapply StronglySorted_map with
      (R := fun r1 r2 : depth_record => (fst r1 < fst r2)%Qc); [auto |].
    apply sorted_nodup_strict; [exact Hsort |].
    apply Permutation_NoDup
      with (map fst (filter (Sql.in_range a b) (Sql.not_null t))).
    + apply Permutation_map. now apply Permutation_sym.
    + now apply NoDup_keys_filter.
  - intros Hnone.
    assert (E : filter (Sql.in_range a b) (Sql.not_null t) = []).
    { apply filter_none. intros x Hx.
      destruct (Sql.in_range a b x) eqn:Q; [| reflexivity].
      apply in_range_spec in Q. exfalso. apply (Hnone (fst x)); [| exact Q].
      now apply in_map. }
    rewrite E in Hperm. apply Permutation_sym, Permutation_nil in Hperm.
    now rewrite Hperm.
Qed.

(** ** Bulk writes *)






(** C6.  The bulk write checks its arguments before it touches the
    database: when the number of depths differs from the number of pixel
    rows it raises [ValueError] (shape mismatch), otherwise when the pixel
    array is not [uint8] it raises [TypeError]; in both cases the repository
    is left exactly as it was.  (The rows of an [ndarray] have one length by
    construction.) *)
Theorem bulk_insert_scans_rejects_before_writing
  (self : ImageRepository) (depths : list cell) (pixel_array : ndarray) :
  length depths <> shape0 pixel_array \/ dtype pixel_array <> uint8 ->
  exists e : exn,
    bulk_insert_scans self depths pixel_array = (Raised e, self)
    /\ ((length depths <> shape0 pixel_array
         /\ e = ValueError ("Shape mismatch: " ++ str_of_nat (length depths)
                            ++ " depths vs "
                            ++ str_of_nat (shape0 pixel_array)
                            ++ " pixel rows")%string)
        \/ (length depths = shape0 pixel_array
            /\ dtype pixel_array <> uint8
            /\ e = TypeError ("Expected uint8 pixel data, got "
                              ++ dtype_name (dtype pixel_array))%string)).
Proof.
  intros H. unfold bulk_insert_scans.
  destruct (Nat.eqb_spec (length depths) (shape0 pixel_array)) as [E | E]; simpl.
  - destruct H as [H | H]; [contradiction |].
    destruct (dtype pixel_array) eqn:D; try contradiction; simpl;
      eexists; (split; [reflexivity |]); right; repeat split; congruence.
  - eexists. split; [reflexivity |]. now left.
Qed.

Lemma query_depth_range_inclusive_sorted_witness :
  _conn populated_repository = true
  /\ exists rows : list ScanRow,
       query_depth_range populated_repository (real_of_Z 100) (real_of_Z 101)
       = Returned rows
       /\ StronglySorted (fun r1 r2 => (depth r1 <= depth r2)%Qc) rows.
Proof.
  split; [reflexivity |].
  destruct (query_depth_range_inclusive_sorted populated_repository
              (real_of_Z 100) (real_of_Z 101) eq_refl)
    as (rows & H & _ & _ & Hs & _).
  exists rows. split; [exact H | exact Hs].
Defined.




Lemma bulk_insert_scans_rejects_before_writing_witness :
  (length [Num (real_of_Z 1); Num (real_of_Z 2)] <> shape0 sample_pixel_data
   \/ dtype sample_pixel_data <> uint8)
  /\ exists e : exn,
       bulk_insert_scans populated_repository
         [Num (real_of_Z 1); Num (real_of_Z 2)] sample_pixel_data
       = (Raised e, populated_repository).
Proof.
  assert (H : length [Num (real_of_Z 1); Num (real_of_Z 2)]
              <> shape0 sample_pixel_data
              \/ dtype sample_pixel_data <> uint8) by (left; simpl; lia).
  split; [exact H |].
  destruct (bulk_insert_scans_rejects_before_writing populated_repository
              [Num (real_of_Z 1); Num (real_of_Z 2)] sample_pixel_data H)
    as (e & He & _).
  exists e. exact He.
Defined.

(** The wrong-dtype path of the test suite: a [TypeError], nothing written. *)
Example bulk_insert_scans_wrong_dtype :
  bulk_insert_scans populated_repository sample_depths float_pixel_data
  = (Raised (TypeError "Expected uint8 pixel data, got float32"),
     populated_repository).
Proof. reflexivity. Qed.

(** ** Uniqueness of depths *)



Lemma scan_rows_at (depths : list cell) (pixel_array : ndarray) (i : nat) :
  (i < length depths)%nat ->
  let row := fun j => (bind_float (nth j depths NaN), row_tobytes pixel_array j) in
  scan_rows depths pixel_array
  = map row (seq 0 i) ++ row i :: map row (seq (S i) (length depths - S i)).
Proof.
  intros Hi row. unfold scan_rows. fold row.
  replace (length depths) with (i + S (length depths - S i))%nat at 1 by lia.
  rewrite seq_app, map_app. reflexivity.
Qed.

(** The pixel row given last for a number is among the rows that a write
    leaves. *)
Lemma scan_rows_last (t : list depth_record) (depths : list cell)
  (pixel_array : ndarray) (i : nat) (q : real) :
  nth i depths NaN = Num q ->
  (forall j, (i < j)%nat -> nth j depths NaN <> Num q) ->
  In (q, row_tobytes pixel_array i)
     (upsert_all t (Sql.not_null (scan_rows depths pixel_array))).
Proof.
  intros Hq Hlast.
  assert (Hi : (i < length depths)%nat).
  { destruct (Nat.lt_ge_cases i (length depths)) as [H | H]; [exact H |].
    rewrite nth_overflow in Hq by exact H. discriminate. }
  rewrite (scan_rows_at depths pixel_array i Hi). cbv zeta.
  rewrite not_null_app. rewrite Hq. cbn [Sql.not_null flat_map fst snd bind_float app].
  apply (upsert_all_last t _ _ (q, row_tobytes pixel_array i)).
  cbn [fst]. intros H.
  apply (not_null_keys (map _ (seq (S i) (length depths - S i)))) in H.
  rewrite map_map in H. cbn [fst] in H.
  apply in_map_iff in H. destruct H as (j & E & Hj).
  apply in_seq in Hj. apply (Hlast j); [lia |].
  destruct (nth j depths NaN); [discriminate | simpl in E; congruence].
Qed.

(** After a valid write into a repository whose depths are unique, a point
    query at a number written returns the one row holding the pixel bytes
    given last for it. *)
Lemma point_query_after_write (self : ImageRepository) (depths : list cell)
  (pixel_array : ndarray) (i : nat) (q : real) :
  _conn self = true ->
  length depths = shape0 pixel_array ->
  dtype pixel_array = uint8 ->
  depth_unique self ->
  nth i depths NaN = Num q ->
  (forall j, (i < j)%nat -> nth j depths NaN <> Num q) ->
  query_depth_range (snd (bulk_insert_scans self depths pixel_array)) q q
  = Returned [mk_ScanRow q (row_tobytes pixel_array i)].
Proof.
  intros Hc Hs Hd Hu Hq Hlast.
  rewrite (bulk_insert_scans_ok self depths pixel_array Hc Hs Hd).
  unfold query_depth_range, conn. simpl. unfold Sql.select_range.
  rewrite not_null_executemany.
  set (t := Sql.not_null (image_scans (db self))).
  set (rows := Sql.not_null (scan_rows depths pixel_array)).
  set (r := (q, row_tobytes pixel_array i) : depth_record).
  assert (Hu' : NoDup (map fst (upsert_all t rows)))
    by now apply upsert_all_unique.
  assert (Hr : In r (upsert_all t rows)) by now apply scan_rows_last.
  change q with (fst r) at 1 2.
  rewrite (unique_point_filter _ r Hu' Hr). reflexivity.
Qed.




(** ** Bounds *)




(** The scenario of the specification: bounds of the five sample depths, and
    the three rows between 100 and 101. *)
Example populated_repository_bounds :
  get_depth_bounds populated_repository
  = Returned (real_of_Z 100, real_of_Z 102).
Proof. reflexivity. Qed.

Example populated_repository_range :
  query_depth_range populated_repository (real_of_Z 100) (real_of_Z 101)
  = Returned [ mk_ScanRow (real_of_Z 100) [0; 1];
               mk_ScanRow (Q2Qc (201 # 2)) [2; 3];
               mk_ScanRow (real_of_Z 101) [4; 5] ].
Proof. reflexivity. Qed.

(** ** resize_image *)

Lemma append_assoc (a b c : string) : ((a ++ b) ++ c = a ++ (b ++ c))%string.
Proof. induction a as [| x a IH]; simpl; [reflexivity | now rewrite IH]. Qed.

Lemma occurs_in_append_l (t p s : string) :
  occurs_in t s -> occurs_in t (p ++ s)%string.
Proof.
  intros (pre & post & ->). exists (p ++ pre)%string, post.
  now rewrite append_assoc.
Qed.

Lemma dict_get_none {V : Type} (d : list (string * V)) (key : string) :
  ~ In key (dict_keys d) -> dict_get d key = None.
Proof.
  induction d as [| [k v] d IH]; simpl; intros H; [reflexivity |].
  destruct (String.eqb_spec key k) as [-> | _].
  - exfalso. apply H. now left.
  - apply IH. intros Hin. apply H. now right.
Qed.

Lemma dict_get_some {V : Type} (d : list (string * V)) (key : string) :
  In key (dict_keys d) -> exists v, dict_get d key = Some v /\ In v (map snd d).
Proof.
  induction d as [| [k v] d IH]; simpl; intros H; [contradiction |].
  destruct (String.eqb_spec key k) as [-> | Hne].
  - exists v. split; [reflexivity | now left].
  - destruct H as [H | H]; [congruence |].
    destruct (IH H) as (v' & E & Hin). exists v'. split; [exact E | now right].
Qed.

(** C8.  For a method name that is not a key of [INTERPOLATION_METHODS],
    [resize_image] raises [ValueError] with a message in which each of the
    valid names NEAREST, BILINEAR, BICUBIC, AREA and LANCZOS4 occurs; the
    outcome is that error whatever the conversion to [float32] and
    [cv2.resize] would do: no resampling takes part in it. *)
Theorem resize_image_unknown_method
  (to_float32 : real -> real)
  (resample : list (list cell) -> Z * nat -> Z -> outcome (list (list cell)))
  (invalid_cast : Z) (py_repr : string -> string)
  (pixels : list (list cell)) (target_width : Z) (method : string) :
  ~ In method (dict_keys INTERPOLATION_METHODS) ->
  exists msg : string,
    resize_image to_float32 resample invalid_cast py_repr pixels target_width
                 method
    = Raised (ValueError msg)
    /\ (forall name, In name (dict_keys INTERPOLATION_METHODS) ->
                     occurs_in name msg)
    /\ (forall to_float32' resample',
          resize_image to_float32' resample' invalid_cast py_repr pixels
                       target_width method
          = Raised (ValueError msg)).
Proof.
  intros H. unfold resize_image. rewrite (dict_get_none _ _ H).
  eexists. split; [reflexivity |]. split; [| reflexivity].
  intros name Hn.
  apply occurs_in_append_l, occurs_in_append_l, occurs_in_append_l.
  simpl in Hn.
  destruct Hn as [<- | [<- | [<- | [<- | [<- | []]]]]].
  - exists "['", "', 'BILINEAR', 'BICUBIC', 'AREA', 'LANCZOS4']". reflexivity.
  - exists "['NEAREST', '", "', 'BICUBIC', 'AREA', 'LANCZOS4']". reflexivity.
  - exists "['NEAREST', 'BILINEAR', '", "', 'AREA', 'LANCZOS4']". reflexivity.
  - exists "['NEAREST', 'BILINEAR', 'BICUBIC', '", "', 'LANCZOS4']". reflexivity.
  - exists "['NEAREST', 'BILINEAR', 'BICUBIC', 'AREA', '", "']". reflexivity.
Qed.

Lemma resize_image_unknown_method_witness :
  ~ In "INVALID" (dict_keys INTERPOLATION_METHODS)
  /\ exists msg : string,
       resize_image exact_float32 nearest_resize 0 repr_key
         [[Num (real_of_Z 1); Num (real_of_Z 2)]] 150 "INVALID"
       = Raised (ValueError msg)
       /\ occurs_in "LANCZOS4" msg.
Proof.
  assert (H : ~ In "INVALID" (dict_keys INTERPOLATION_METHODS)).
  { simpl. intros [E | [E | [E | [E | [E | []]]]]]; discriminate E. }
  split; [exact H |].
  destruct (resize_image_unknown_method exact_float32 nearest_resize 0 repr_key
              [[Num (real_of_Z 1); Num (real_of_Z 2)]] 150 "INVALID" H)
    as (msg & E & Hocc & _).
  exists msg. split; [exact E |]. apply Hocc. simpl. tauto.
Defined.

Lemma astype_uint8_range (invalid_cast : Z) (c : cell) :
  0 <= astype_uint8 invalid_cast c <= 255.
Proof.
  unfold astype_uint8.
  destruct c as [| q];
    [pose proof (Z.mod_pos_bound invalid_cast 256)
    | pose proof (Z.mod_pos_bound (trunc q) 256)]; lia.
Qed.

Lemma astype_float32_shape (to_float32 : real -> real)
  (pixels : list (list cell)) (w0 : nat) :
  Forall (fun row => length row = w0) pixels ->
  length (astype_float32 to_float32 pixels) = length pixels
  /\ Forall (fun row => length row = w0) (astype_float32 to_float32 pixels).
Proof.
  intros H. unfold astype_float32. split; [apply length_map |].
  rewrite Forall_forall in *. intros row Hrow.
  apply in_map_iff in Hrow. destruct Hrow as (r & <- & Hr).
  rewrite length_map. now apply H.
Qed.

Lemma is_empty_spec {A : Type} (m : list (list A)) (w0 : nat) :
  Forall (fun row => length row = w0) m ->
  is_empty m = true <-> m = [] \/ w0 = 0%nat.
Proof.
  intros H. destruct m as [| row m]; simpl.
  - split; auto.
  - inversion H as [| ? ? Hrow _]; subst.
    destruct row as [| x row]; simpl; split.
    + intros _. now right.
    + reflexivity.
    + discriminate.
    + intros [C | C]; discriminate C.
Qed.

(** C7, as the code has it.  Given OpenCV's resampling (returning an array
    of the size it is asked for), for every matrix of N >= 1 rows and
    W0 >= 1 columns, every target width W1 >= 1 and each of the five
    supported methods, [resize_image] returns (it does not raise) a matrix
    of N rows and W1 columns whose values all lie in [0, 255], whatever the
    input values, missing ones included.  On a matrix without row or
    without column it raises the [cv2.error] of [cv2.resize]. *)
Theorem resize_image_shape_and_range
  (to_float32 : real -> real)
  (resample : list (list cell) -> Z * nat -> Z -> outcome (list (list cell)))
  (invalid_cast : Z) (py_repr : string -> string)
  (pixels : list (list cell)) (w0 : nat) (target_width : Z) (method : string) :
  cv2_resize_contract resample ->
  Forall (fun row => length row = w0) pixels ->
  1 <= target_width ->
  In method (dict_keys INTERPOLATION_METHODS) ->
  (pixels <> [] -> (1 <= w0)%nat ->
   exists resized : list (list Z),
     resize_image to_float32 resample invalid_cast py_repr pixels target_width
                  method
     = Returned resized
     /\ length resized = length pixels
     /\ Forall (fun row => length row = Z.to_nat target_width) resized
     /\ Forall (Forall (fun v => 0 <= v <= 255)) resized)
  /\ (pixels = [] \/ w0 = 0%nat ->
      resize_image to_float32 resample invalid_cast py_repr pixels target_width
                   method
      = Raised (cv2_error (-215) "resize" "!ssize.empty()")).
Proof.
  intros Hcv Hrect Hw Hm. unfold resize_image, cv2_resize.
  destruct (dict_get_some _ _ Hm) as (flag & -> & Hflag).
  destruct (astype_float32_shape to_float32 pixels w0 Hrect) as [Hlen Hrect'].
  assert (He := is_empty_spec (astype_float32 to_float32 pixels) w0 Hrect').
  split.
  - intros Hne Hw0.
    assert (Hne' : astype_float32 to_float32 pixels <> []).
    { intros C. rewrite C in Hlen. destruct pixels; [congruence | discriminate]. }
    destruct (is_empty (astype_float32 to_float32 pixels)) eqn:E.
    { destruct (proj1 He eq_refl) as [C | C]; [contradiction | lia]. }
    assert (Hh : (1 <= length (astype_float32 to_float32 pixels))%nat).
    { rewrite Hlen. destruct pixels; [congruence | simpl; lia]. }
    destruct (Hcv _ w0 target_width _ flag Hne' Hw0 Hrect' Hw Hh Hflag)
      as (dst & -> & Hdl & Hrows).
    simpl. eexists. split; [reflexivity |]. split; [| split].
    + rewrite length_map. congruence.
    + rewrite Forall_forall in *. intros row Hrow.
      apply in_map_iff in Hrow. destruct Hrow as (r & <- & Hr).
      rewrite length_map. now apply Hrows.
    + rewrite Forall_forall. intros row Hrow.
      apply in_map_iff in Hrow. destruct Hrow as (r & <- & Hr).
      rewrite Forall_forall. intros v Hv.
      apply in_map_iff in Hv. destruct Hv as (c & <- & Hc).
      apply astype_uint8_range.
  - intros H.
    assert (E : is_empty (astype_float32 to_float32 pixels) = true).
    { apply He. destruct H as [-> | H]; [now left | now right]. }
    now rewrite E.
Qed.

Lemma nearest_resize_contract : cv2_resize_contract nearest_resize.
Proof.
  intros src w0 w h flag Hne Hw0 Hrect Hw Hh Hflag.
  unfold nearest_resize. eexists. split; [reflexivity |]. simpl. split.
  - unfold nearest. now rewrite !length_map, length_seq.
  - rewrite Forall_forall. intros row Hrow.
    apply in_map_iff in Hrow. destruct Hrow as (r & <- & _).
    unfold nearest. now rewrite length_map, length_seq.
Qed.

Lemma resize_image_shape_and_range_witness :
  cv2_resize_contract nearest_resize
  /\ 1 <= 2
  /\ In "NEAREST" (dict_keys INTERPOLATION_METHODS)
  /\ exists resized : list (list Z),
       resize_image exact_float32 nearest_resize 0 repr_key
         [[Num (real_of_Z 300); Num (real_of_Z (-4)); NaN; Num (Q2Qc (7 # 2))]]
         2 "NEAREST"
       = Returned resized
       /\ length resized = 1%nat
       /\ Forall (Forall (fun v => 0 <= v <= 255)) resized.
Proof.
  assert (Hm : In "NEAREST" (dict_keys INTERPOLATION_METHODS))
    by (simpl; tauto).
  assert (Hne : [[Num (real_of_Z 300); Num (real_of_Z (-4)); NaN;
                  Num (Q2Qc (7 # 2))]] <> []) by discriminate.
  assert (Hrect : Forall (fun row : list cell => length row = 4%nat)
                    [[Num (real_of_Z 300); Num (real_of_Z (-4)); NaN;
                      Num (Q2Qc (7 # 2))]])
    by (repeat constructor).
  split; [exact nearest_resize_contract |].
  split; [lia |]. split; [exact Hm |].
  destruct (proj1 (resize_image_shape_and_range exact_float32 nearest_resize 0
                     repr_key _ 4%nat 2 "NEAREST" nearest_resize_contract
                     Hrect (Z.le_succ_diag_r 1) Hm)
                  Hne (le_S _ _ (le_S _ _ (le_S _ _ (le_n 1)))))
    as (resized & E & Hlen & _ & Hrange).
  exists resized. split; [exact E |]. split; [exact Hlen | exact Hrange].
Defined.

(** The claim as the specification states it fails on the matrix without
    row: the method is supported and the width positive, and [resize_image]
    raises. *)
Lemma resize_image_empty_matrix_raises :
  cv2_resize_contract nearest_resize
  /\ 1 <= 150
  /\ In "AREA" (dict_keys INTERPOLATION_METHODS)
  /\ resize_image exact_float32 nearest_resize 0 repr_key [] 150 "AREA"
     = Raised (cv2_error (-215) "resize" "!ssize.empty()").
Proof.
  split; [exact nearest_resize_contract |]. split; [lia |].
  split; [simpl; tauto | reflexivity].
Qed.

(** Sampling the first and the third of four columns: 300 saturates to 255
    and the missing value becomes the platform's integer, here 0. *)
Example resize_image_saturates :
  resize_image exact_float32 nearest_resize 0 repr_key
    [[Num (real_of_Z 300); Num (real_of_Z (-4)); NaN; Num (Q2Qc (7 # 2))]]
    2 "NEAREST"
  = Returned [[255; 0]].
Proof. reflexivity. Qed.

(** Clipping comes before the conversion, so a number never wraps around:
    below 0 it becomes 0, above 255 it becomes 255, in between it is
    truncated. *)
Lemma clip_then_cast (invalid_cast : Z) (q : real) :
  astype_uint8 invalid_cast (clip_cell (Num q))
  = if Qc_ltb q (real_of_Z 0) then 0
    else if Qc_ltb (real_of_Z 255) q then 255 else trunc q.
Proof.
  unfold clip_cell, astype_uint8.
  destruct (Qc_ltb q (real_of_Z 0)) eqn:E0; [reflexivity |].
  destruct (Qc_ltb (real_of_Z 255) q) eqn:E1; [reflexivity |].
  apply Z.mod_small.
  unfold Qc_ltb in E0, E1. rewrite negb_false_iff in E0, E1.
  apply Qc_leb_le in E0, E1. unfold Qcle, Qle in E0, E1. simpl in E0, E1.
  unfold trunc. destruct q as [[n d] Hq]. simpl in *.
  assert (Hn : 0 <= n) by lia.
  rewrite Z.quot_div_nonneg by lia. split.
  - apply Z.div_pos; lia.
  - apply Z.div_lt_upper_bound; lia.
Qed.

(** ** validate_and_clean *)

(** The function is the composition of its stages. *)
Lemma validate_and_clean_stages (sort_values : list df_row -> list df_row)
  (df : DataFrame) :
  validate_and_clean sort_values df
  = let depths := map row_depth (cleaned_rows sort_values df) in
    let pixels1 := filled_pixels sort_values df in
    do px_min <- np_min (concat pixels1);;
    do px_max <- np_max (concat pixels1);;
    let pixels :=
      if cell_ltb px_min (Num (real_of_Z 0))
         || cell_ltb (Num (real_of_Z 255)) px_max
      then map (map clip_cell) pixels1 else pixels1 in
    do dmin <- np_min depths;;
    do dmax <- np_max depths;;
    Returned
      (depths, pixels,
       mk_report
         (length (df_rows df)) (length depths)
         (mask_sum (map (fun r => isnull (row_depth r)
                                  && forallb isnull (row_pixels r))
                        (df_rows df)))
         (mask_sum (duplicated (map row_depth (sorted_rows sort_values df))))
         dmin dmax (np_median (np_diff depths))
         (forallb (fun c => cell_ltb (Num (real_of_Z 0)) c) (np_diff depths))
         px_min px_max (pixel_cols df)).
Proof. reflexivity. Qed.

(** Of the sort, only what it does to the rows of this frame matters. *)
Lemma validate_and_clean_ext (sort1 sort2 : list df_row -> list df_row)
  (df : DataFrame) :
  sorted_rows sort1 df = sorted_rows sort2 df ->
  validate_and_clean sort1 df = validate_and_clean sort2 df.
Proof.
  intros H. rewrite !validate_and_clean_stages.
  unfold filled_pixels, cleaned_rows. now rewrite H.
Qed.

(** *** The order of [sort_values] and two sorts that establish it *)

Lemma depth_leb_total (r1 r2 : df_row) :
  depth_leb r1 r2 = true \/ depth_leb r2 r1 = true.
Proof.
  unfold depth_leb. destruct (row_depth r1), (row_depth r2); auto.
  apply Qc_leb_total.
Qed.

Lemma depth_leb_trans (r1 r2 r3 : df_row) :
  depth_leb r1 r2 = true -> depth_leb r2 r3 = true -> depth_leb r1 r3 = true.
Proof.
  unfold depth_leb.
  destruct (row_depth r1), (row_depth r2), (row_depth r3); auto;
    try discriminate.
  rewrite !Qc_leb_le. apply Qcle_trans.
Qed.

Lemma stable_sort_contract : sort_values_contract stable_sort.
Proof.
  intros rows _. unfold stable_sort. split.
  - apply Permutation_sym, sort_by_perm.
  - apply sort_by_sorted; [apply depth_leb_total | apply depth_leb_trans].
Qed.

Lemma reversing_sort_contract : sort_values_contract reversing_sort.
Proof.
  intros rows _. unfold reversing_sort. split.
  - rewrite sort_by_perm. apply Permutation_rev.
  - apply sort_by_sorted; [apply depth_leb_total | apply depth_leb_trans].
Qed.



(** On the same table a sort that reverses the two rows of depth 1.0 makes
    the function keep [30,40]: which of two rows of one depth is kept is
    decided by the sort. *)
Example validate_and_clean_scenario_reversed :
  exists report : ValidationReport,
    validate_and_clean reversing_sort scenario_table
    = Returned ([Num (real_of_Z 1); Num (real_of_Z 2)],
                [[Num (real_of_Z 30); Num (real_of_Z 40)];
                 [Num (real_of_Z 5); Num (real_of_Z 5)]],
                report).
Proof. eexists. vm_compute. reflexivity. Qed.

(** C1, on the table whose only row has depth 1.0 and both pixels missing:
    whatever the sort, [validate_and_clean] returns, and the matrix it
    returns holds the missing values, where the specification asks for an
    error. *)
Theorem validate_and_clean_all_missing_row
  (sort_values : list df_row -> list df_row) :
  sort_values_contract sort_values ->
  exists report : ValidationReport,
    validate_and_clean sort_values all_missing_table
    = Returned ([Num (real_of_Z 1)], [[NaN; NaN]], report)
    /\ has_nan [[NaN; NaN]] = true
    /\ pixel_min report = NaN.
Proof.
  intros Hs.
  assert (E : sorted_rows sort_values all_missing_table
              = sorted_rows (fun rows => rows) all_missing_table).
  { destruct (Hs (df_rows all_missing_table)) as [Hp _];
      [repeat constructor |].
    apply Permutation_length_1_inv in Hp. exact Hp. }
  rewrite (validate_and_clean_ext _ _ _ E).
  exists (mk_report 1 1 (np_int64 0) (np_int64 0) (Num (real_of_Z 1))
                    (Num (real_of_Z 1)) NaN true NaN NaN 2).
  split; [| repeat split].
  vm_compute. reflexivity.
Qed.

Lemma validate_and_clean_all_missing_row_witness :
  sort_values_contract stable_sort
  /\ exists report : ValidationReport,
       validate_and_clean stable_sort all_missing_table
       = Returned ([Num (real_of_Z 1)], [[NaN; NaN]], report).
Proof.
  split; [exact stable_sort_contract |].
  destruct (validate_and_clean_all_missing_row stable_sort stable_sort_contract)
    as (report & H & _).
  exists report. exact H.
Defined.

Lemma drop_masked_map {A : Type} (f : A -> bool) (l : list A) :
  drop_masked l (map f l) = filter (fun x => negb (f x)) l.
Proof.
  induction l as [| x l IH]; simpl; [reflexivity |].
  destruct (f x); simpl; now rewrite IH.
Qed.

Lemma drop_masked_in {A : Type} (l : list A) (mask : list bool) (x : A) :
  In x (drop_masked l mask) -> In x l.
Proof.
  revert mask. induction l as [| y l IH]; intros [| m mask]; simpl; try tauto.
  destruct m; simpl; intros H.
  - right. now apply IH with mask.
  - destruct H as [H | H]; [now left | right; now apply IH with mask].
Qed.

Lemma existsb_id_false {A : Type} (f : A -> bool) (l : list A) (x : A) :
  existsb (fun b => b) (map f l) = false -> In x l -> f x = false.
Proof.
  intros H Hx. destruct (f x) eqn:E; [| reflexivity].
  rewrite <- H. symmetry. apply existsb_exists. exists true.
  split; [| reflexivity]. rewrite <- E. now apply in_map.
Qed.

Lemma fill_row_no_nan (row : list cell) (c : cell) :
  numbers row <> [] -> In c (fill_row row) -> isnull c = false.
Proof.
  intros Hn Hc. unfold fill_row, nanmean in Hc.
  destruct (numbers row) as [| q l]; [congruence |].
  apply in_map_iff in Hc. destruct Hc as (c0 & <- & _).
  destruct (isnull c0) eqn:E; [reflexivity | exact E].
Qed.

Lemma has_nan_false (pixels : list (list cell)) :
  has_nan pixels = false
  <-> forall row c, In row pixels -> In c row -> isnull c = false.
Proof.
  unfold has_nan. split.
  - intros H row c Hrow Hc. destruct (isnull c) eqn:E; [| reflexivity].
    rewrite <- H. symmetry. apply existsb_exists. exists row.
    split; [exact Hrow |]. apply existsb_exists. now exists c.
  - intros H. destruct (existsb (existsb isnull) pixels) eqn:E; [| reflexivity].
    apply existsb_exists in E. destruct E as (row & Hrow & E).
    apply existsb_exists in E. destruct E as (c & Hc & E).
    now rewrite (H row c Hrow Hc) in E.
Qed.

(* ================================================================== *)
(** * Further properties of the repository *)

(** ** Methods on a repository that is not connected *)

(** X1.  On a repository that is not connected every read raises
    [RuntimeError "Repository not connected. Call connect() first."], and so
    do [set_metadata] and a bulk write with valid arguments, which leave the
    repository as it was. *)
Theorem not_connected_raises (self : ImageRepository) :
  _conn self = false ->
  (forall a b, query_depth_range self a b = Raised not_connected)
  /\ (forall key, get_metadata self key = Raised not_connected)
  /\ get_all_metadata self = Raised not_connected
  /\ get_depth_bounds self = Raised not_connected
  /\ get_row_count self = Raised not_connected
  /\ is_populated self = Raised not_connected
  /\ (forall key value,
        set_metadata self key value = (Raised not_connected, self))
  /\ (forall depths pixel_array,
        length depths = shape0 pixel_array ->
        dtype pixel_array = uint8 ->
        bulk_insert_scans self depths pixel_array
        = (Raised not_connected, self)).
Proof.
  intros Hc.
  unfold query_depth_range, get_metadata, get_all_metadata, get_depth_bounds,
    is_populated, get_row_count, set_metadata, bulk_insert_scans, conn.
  rewrite Hc. simpl. repeat split.
  intros depths pixel_array Hs Hd. now rewrite Hs, Nat.eqb_refl, Hd.
Qed.

Lemma not_connected_raises_witness :
  _conn new_repository = false
  /\ get_row_count new_repository = Raised not_connected
  /\ set_metadata new_repository "source_file" "test.csv"
     = (Raised not_connected, new_repository).
Proof.
  split; [reflexivity |].
  destruct (not_connected_raises new_repository eq_refl)
    as (_ & _ & _ & _ & H & _ & Hs & _).
  split; [exact H | apply Hs].
Defined.

(** ** Metadata *)

Lemma select_meta_none (t : list (string * string)) (k : string) :
  Sql.select_meta t k = None <-> ~ In k (map fst t).
Proof.
  unfold Sql.select_meta. induction t as [| [k0 v0] t IH]; simpl.
  - tauto.
  - destruct (String.eqb_spec k0 k) as [-> | Hne].
    + split; [discriminate | intros H; exfalso; apply H; now left].
    + rewrite IH. intuition congruence.
Qed.

Lemma filter_meta_other (t : list (string * string)) (k k' : string) :
  k' <> k ->
  filter (fun x => String.eqb (fst x) k')
         (filter (fun x => negb (String.eqb (fst x) k)) t)
  = filter (fun x => String.eqb (fst x) k') t.
Proof.
  intros Hne. rewrite filter_twice. apply filter_ext. intros [k0 v0]. simpl.
  destruct (String.eqb_spec k0 k') as [-> | _]; [| apply andb_false_r].
  destruct (String.eqb_spec k' k); [contradiction | reflexivity].
Qed.

Lemma select_meta_insert_same (t : list (string * string)) (k v : string) :
  Sql.select_meta (Sql.insert_or_replace_meta t (k, v)) k = Some v.
Proof.
  unfold Sql.select_meta, Sql.insert_or_replace_meta. rewrite filter_app.
  rewrite (filter_none _ (filter _ t)).
  - simpl. now rewrite String.eqb_refl.
  - intros x Hx. apply filter_In in Hx. destruct Hx as [_ Hx]. simpl in Hx.
    now apply negb_true_iff in Hx.
Qed.

Lemma select_meta_insert_other (t : list (string * string)) (k k' v : string) :
  k' <> k ->
  Sql.select_meta (Sql.insert_or_replace_meta t (k, v)) k'
  = Sql.select_meta t k'.
Proof.
  intros Hne. unfold Sql.select_meta, Sql.insert_or_replace_meta.
  rewrite filter_app. simpl fst. rewrite (filter_meta_other t k k' Hne).
  simpl. destruct (String.eqb_spec k k'); [congruence |].
  now rewrite app_nil_r.
Qed.

(** X2.  On a connected repository [set_metadata key value] succeeds, after
    which [get_metadata key] returns [value]; the value of every other key
    and the answer of every range query are as before. *)
Theorem set_then_get_metadata (self : ImageRepository) (key value : string) :
  _conn self = true ->
  exists self' : ImageRepository,
    set_metadata self key value = (Returned tt, self')
    /\ get_metadata self' key = Returned (Some value)
    /\ (forall key', key' <> key ->
                     get_metadata self' key' = get_metadata self key')
    /\ (forall a b, query_depth_range self' a b = query_depth_range self a b)
    /\ get_row_count self' = get_row_count self.
Proof.
  intros Hc. unfold set_metadata, get_metadata, query_depth_range,
    get_row_count, conn.
  rewrite Hc. eexists. split; [reflexivity |]. simpl.
  split; [now rewrite select_meta_insert_same |]. split; [| auto].
  intros key' Hne. now rewrite select_meta_insert_other.
Qed.

Lemma set_then_get_metadata_witness :
  _conn populated_repository = true
  /\ exists self' : ImageRepository,
       set_metadata populated_repository "source_file" "test.csv"
       = (Returned tt, self')
       /\ get_metadata self' "source_file" = Returned (Some "test.csv").
Proof.
  split; [reflexivity |].
  destruct (set_then_get_metadata populated_repository "source_file" "test.csv"
              eq_refl) as (self' & H1 & H2 & _).
  exists self'. split; [exact H1 | exact H2].
Defined.

(** X3.  On a connected repository [get_metadata key] never raises: it
    returns [None] exactly when no row of [metadata] has that key, and
    otherwise the value of one such row. *)
Theorem get_metadata_absent_key (self : ImageRepository) (key : string) :
  _conn self = true ->
  exists r : option string,
    get_metadata self key = Returned r
    /\ (r = None <-> ~ In key (map fst (metadata (db self))))
    /\ (forall value, r = Some value -> In (key, value) (metadata (db self))).
Proof.
  intros Hc. unfold get_metadata, conn. rewrite Hc. simpl.
  eexists. split; [reflexivity |]. split; [apply select_meta_none |].
  intros value. unfold Sql.select_meta.
  destruct (filter _ (metadata (db self))) as [| [k0 v0] l] eqn:E;
    [discriminate |].
  intros H. inversion H; subst.
  assert (Hin : In (k0, value) (filter (fun x => String.eqb (fst x) key)
                                       (metadata (db self))))
    by (rewrite E; now left).
  apply filter_In in Hin. destruct Hin as [Hin Hk]. simpl in Hk.
  apply String.eqb_eq in Hk. now subst.
Qed.

Lemma get_metadata_absent_key_witness :
  _conn repository = true
  /\ get_metadata repository "nonexistent" = Returned None.
Proof.
  split; [reflexivity |].
  destruct (get_metadata_absent_key repository "nonexistent" eq_refl)
    as (r & H & Hnone & _).
  rewrite H. f_equal. apply Hnone. simpl. tauto.
Defined.

Lemma insert_or_replace_meta_unique (t : list (string * string))
  (r : string * string) :
  NoDup (map fst t) -> NoDup (map fst (Sql.insert_or_replace_meta t r)).
Proof.
  intros H. unfold Sql.insert_or_replace_meta. rewrite map_app.
  apply NoDup_app.
  - induction t as [| x t IH]; simpl; [constructor |].
    inversion H as [| ? ? Hx Ht]; subst.
    destruct (negb (String.eqb (fst x) (fst r))); simpl; [constructor |]; auto.
    intros Hin. apply Hx. apply in_map_iff in Hin.
    destruct Hin as (y & Hy & Hin). apply filter_In in Hin.
    apply in_map_iff. exists y. tauto.
  - simpl. constructor; [intros [] | constructor].
  - intros k Hk [<- | []]. apply in_map_iff in Hk.
    destruct Hk as (x & E & Hx). apply filter_In in Hx.
    destruct Hx as [_ Hx]. apply negb_true_iff, String.eqb_neq in Hx.
    congruence.
Qed.

Lemma apply_op_meta_unique (self : ImageRepository) (op : store_op) :
  meta_unique self -> meta_unique (apply_op self op).
Proof.
  unfold meta_unique. intros H.
  destruct op as [| | depths pixel_array | key value | | | | | |]; simpl; auto.
  - unfold bulk_insert_scans, conn.
    destruct (negb (length depths =? shape0 pixel_array)%nat); [exact H |].
    destruct (negb (np_dtype_eqb (dtype pixel_array) uint8)); [exact H |].
    destruct (_conn self); simpl; exact H.
  - unfold set_metadata, conn. destruct (_conn self); simpl; [| exact H].
    now apply insert_or_replace_meta_unique.
Qed.

Lemma filter_other_keys_length (t : list (string * string)) (k : string) :
  NoDup (map fst t) ->
  length (filter (fun x => negb (String.eqb (fst x) k)) t)
  = if in_dec string_dec k (map fst t) then pred (length t) else length t.
Proof.
  induction t as [| [k0 v0] t IH]; simpl; intros H; [reflexivity |].
  inversion H as [| ? ? Hx Ht]; subst. specialize (IH Ht).
  destruct (String.eqb_spec k0 k) as [E | Hne]; simpl.
  - subst k0. destruct (string_dec k k) as [C | C]; [| congruence].
    rewrite IH. destruct (in_dec string_dec k (map fst t)); [contradiction |].
    reflexivity.
  - destruct (string_dec k0 k) as [C | C]; [congruence |].
    rewrite IH. destruct (in_dec string_dec k (map fst t)) as [Hin | _];
      [| reflexivity].
    destruct t; [contradiction | reflexivity].
Qed.

(** X4.  Keys of the metadata table are unique after any sequence of calls
    on a new repository.  Under unique keys, [set_metadata] on a key that is
    present leaves the number of entries of [get_all_metadata] unchanged, and
    on a new key adds exactly one. *)
Theorem metadata_keys_unique :
  (forall ops : list store_op, meta_unique (run_ops ops))
  /\ (forall (self : ImageRepository) (key value : string),
        _conn self = true ->
        meta_unique self ->
        exists (self' : ImageRepository) (before after : list (string * string)),
          set_metadata self key value = (Returned tt, self')
          /\ meta_unique self'
          /\ get_all_metadata self = Returned before
          /\ get_all_metadata self' = Returned after
          /\ (In key (map fst before) -> length after = length before)
          /\ (~ In key (map fst before) -> length after = S (length before))).
Proof.
  split.
  - intros ops. unfold run_ops.
    assert (G : forall l s, meta_unique s -> meta_unique (fold_left apply_op l s)).
    { induction l as [| op l IH]; intros s H; simpl; [exact H |].
      apply IH. now apply apply_op_meta_unique. }
    apply G. constructor.
  - intros self key value Hc Hu.
    unfold set_metadata, get_all_metadata, conn. rewrite Hc. simpl.
    exists (mk_repo (mk_database (image_scans (db self))
                       (Sql.insert_or_replace_meta (metadata (db self))
                                                   (key, value))) true),
           (metadata (db self)),
           (Sql.insert_or_replace_meta (metadata (db self)) (key, value)).
    split; [reflexivity |].
    split; [now apply insert_or_replace_meta_unique |].
    split; [reflexivity |]. split; [reflexivity |].
    unfold Sql.insert_or_replace_meta. rewrite length_app. simpl fst.
    rewrite (filter_other_keys_length _ key Hu). simpl.
    destruct (in_dec string_dec key (map fst (metadata (db self)))) as [Hin | Hn].
    + split; [| contradiction]. intros _.
      destruct (metadata (db self)); [contradiction | simpl; lia].
    + split; [contradiction | intros _; lia].
Qed.

Lemma metadata_keys_unique_witness :
  _conn repository = true
  /\ meta_unique repository
  /\ exists (self' : ImageRepository) (after : list (string * string)),
       set_metadata repository "key" "value1" = (Returned tt, self')
       /\ get_all_metadata self' = Returned after
       /\ length after = 1%nat.
Proof.
  assert (Hu : meta_unique repository) by constructor.
  split; [reflexivity |]. split; [exact Hu |].
  destruct (proj2 metadata_keys_unique repository "key" "value1" eq_refl Hu)
    as (self' & before & after & H1 & _ & Hb & Ha & _ & Hnew).
  exists self', after. split; [exact H1 |]. split; [exact Ha |].
  inversion Hb; subst. apply Hnew. simpl. tauto.
Defined.

(** ** Bulk writes and the rows they do not name *)

(** X5.  A valid bulk write does not touch what lies outside its depths:
    every range query whose interval holds none of the numbers written
    answers as before the write. *)
Theorem bulk_insert_scans_leaves_other_depths
  (self : ImageRepository) (depths : list cell) (pixel_array : ndarray)
  (a b : real) :
  _conn self = true ->
  length depths = shape0 pixel_array ->
  dtype pixel_array = uint8 ->
  (forall q, In (Num q) depths -> ~ ((a <= q)%Qc /\ (q <= b)%Qc)) ->
  query_depth_range (snd (bulk_insert_scans self depths pixel_array)) a b
  = query_depth_range self a b.
Proof.
  intros Hc Hs Hd Hout.
  rewrite (bulk_insert_scans_ok self depths pixel_array Hc Hs Hd).
  unfold query_depth_range, conn. rewrite Hc. simpl. do 2 f_equal.
  unfold Sql.select_range. f_equal.
  rewrite not_null_executemany.
  assert (Hkeys : map fst (Sql.not_null (scan_rows depths pixel_array))
                  = numbers depths)
    by (apply not_null_numbers, scan_rows_keys).
  rewrite upsert_all_split, filter_app, filter_twice, Hkeys.
  rewrite (filter_none _ (upsert_all [] _)).
  - rewrite app_nil_r. apply filter_ext_in. intros x Hx.
    destruct (Sql.in_range a b x) eqn:E; [| apply andb_false_r].
    rewrite andb_true_r. apply negb_true_iff.
    destruct (depth_in (numbers depths) x) eqn:K; [| reflexivity].
    apply depth_in_spec, numbers_in in K. apply in_range_spec in E.
    now apply Hout in K.
  - intros x Hx. destruct (Sql.in_range a b x) eqn:E; [| reflexivity].
    apply in_range_spec in E. exfalso. apply (Hout (fst x)); [| exact E].
    apply numbers_in. rewrite <- Hkeys.
    apply upsert_all_in in Hx. destruct Hx as [[] | Hx]. now apply in_map.
Qed.

Lemma bulk_insert_scans_leaves_other_depths_witness :
  _conn populated_repository = true
  /\ length [Num (real_of_Z 200); NaN] = shape0 two_rows
  /\ dtype two_rows = uint8
  /\ query_depth_range
       (snd (bulk_insert_scans populated_repository [Num (real_of_Z 200); NaN]
               two_rows))
       (real_of_Z 100) (real_of_Z 102)
     = query_depth_range populated_repository (real_of_Z 100) (real_of_Z 102).
Proof.
  split; [reflexivity |]. split; [reflexivity |]. split; [reflexivity |].
  apply bulk_insert_scans_leaves_other_depths; try reflexivity.
  intros q [E | [E | []]] [_ H]; [| discriminate E].
  inversion E; subst q. apply Qc_leb_le in H. discriminate H.
Defined.

(** X6.  Write then read.  After a valid bulk write into a repository whose
    depths are unique, a point query at a number written returns exactly one
    row, holding the bytes of the pixel row given (last) for that number,
    whether or not the depth was stored before and whatever the other depths
    of the call, [nan] included. *)
Theorem bulk_insert_scans_then_query
  (self : ImageRepository) (depths : list cell) (pixel_array : ndarray)
  (i : nat) (q : real) :
  _conn self = true ->
  length depths = shape0 pixel_array ->
  dtype pixel_array = uint8 ->
  depth_unique self ->
  nth i depths NaN = Num q ->
  (forall j, (i < j)%nat -> nth j depths NaN <> Num q) ->
  (i < length depths)%nat
  /\ query_depth_range (snd (bulk_insert_scans self depths pixel_array)) q q
     = Returned [mk_ScanRow q (row_tobytes pixel_array i)].
Proof.
  intros Hc Hs Hd Hu Hq Hlast. split.
  - destruct (Nat.lt_ge_cases i (length depths)) as [H | H]; [exact H |].
    rewrite nth_overflow in Hq by exact H. discriminate.
  - now apply point_query_after_write.
Qed.

Lemma bulk_insert_scans_then_query_witness :
  _conn repository = true
  /\ length repeated_depths = shape0 three_rows
  /\ dtype three_rows = uint8
  /\ depth_unique repository
  /\ nth 2 repeated_depths NaN = Num (real_of_Z 100)
  /\ query_depth_range (snd (bulk_insert_scans repository repeated_depths
                               three_rows))
                       (real_of_Z 100) (real_of_Z 100)
     = Returned [mk_ScanRow (real_of_Z 100) [5; 6]].
Proof.
  assert (Hu : depth_unique repository) by constructor.
  split; [reflexivity |]. split; [reflexivity |]. split; [reflexivity |].
  split; [exact Hu |]. split; [reflexivity |].
  apply (bulk_insert_scans_then_query repository repeated_depths three_rows 2
           (real_of_Z 100) eq_refl eq_refl eq_refl Hu eq_refl).
  intros j Hj E. destruct j as [| [| [| j]]]; try lia.
  destruct j; discriminate E.
Defined.

Lemma new_depths_spec (stored depths : list real) (d : real) :
  In d (new_depths stored depths) <-> In d depths /\ ~ In d stored.
Proof.
  unfold new_depths. rewrite nodup_In, filter_In, negb_true_iff.
  assert (E : existsb (Qc_eqb d) stored = false <-> ~ In d stored).
  { split.
    - intros H Hin. rewrite <- not_true_iff_false in H. apply H.
      apply existsb_exists. exists d. split; [exact Hin | apply Qc_eqb_refl].
    - intros H. apply not_true_iff_false. intros Hex.
      apply existsb_exists in Hex. destruct Hex as (y & Hy & Q).
      apply Qc_eqb_eq in Q. subst. contradiction. }
  now rewrite E.
Qed.

(** X7.  The row count after a valid bulk write into a repository whose
    depths are unique is the count before, plus the number of distinct
    numbers of the call that were not stored, plus the number of [nan]
    depths of the call: the write removes no depth, adds one row per new
    number and one row per [nan]. *)
Theorem bulk_insert_scans_row_count
  (self : ImageRepository) (depths : list cell) (pixel_array : ndarray) :
  _conn self = true ->
  length depths = shape0 pixel_array ->
  dtype pixel_array = uint8 ->
  depth_unique self ->
  exists before : nat,
    get_row_count self = Returned before
    /\ get_row_count (snd (bulk_insert_scans self depths pixel_array))
       = Returned (before
                   + length (new_depths (stored_depths self) (numbers depths))
                   + count_nan depths)%nat.
Proof.
  intros Hc Hs Hd Hu.
  rewrite (bulk_insert_scans_ok self depths pixel_array Hc Hs Hd).
  unfold get_row_count, conn, depth_unique, stored_depths in *.
  rewrite Hc. simpl.
  eexists. split; [reflexivity |]. f_equal. unfold Sql.select_count.
  set (t := image_scans (db self)) in *.
  set (rows := scan_rows depths pixel_array).
  assert (Hkeys : map fst rows = map bind_float depths)
    by apply scan_rows_keys.
  rewrite (length_not_null (Sql.executemany_scans t rows)).
  rewrite (length_not_null t), null_rows_executemany, length_app.
  rewrite (null_rows_count rows depths Hkeys), not_null_executemany.
  assert (E : length (upsert_all (Sql.not_null t) (Sql.not_null rows))
              = (length (Sql.not_null t)
                 + length (new_depths (map fst (Sql.not_null t))
                                      (numbers depths)))%nat).
  { replace (length (upsert_all (Sql.not_null t) (Sql.not_null rows)))
      with (length (map fst (upsert_all (Sql.not_null t) (Sql.not_null rows))))
      by apply length_map.
    replace (length (Sql.not_null t))
      with (length (map fst (Sql.not_null t))) by apply length_map.
    rewrite <- length_app. apply Permutation_length, NoDup_Permutation.
    - now apply upsert_all_unique.
    - apply NoDup_app; [exact Hu | apply NoDup_nodup |].
      intros d Hd1 Hd2. apply new_depths_spec in Hd2. tauto.
    - intros d. rewrite upsert_all_keys, in_app_iff, new_depths_spec.
      rewrite (not_null_numbers rows depths Hkeys).
      destruct (in_dec Qc_eq_dec d (map fst (Sql.not_null t))); tauto. }
  rewrite E. lia.
Qed.

Lemma bulk_insert_scans_row_count_witness :
  _conn repository = true
  /\ length repeated_depths = shape0 three_rows
  /\ dtype three_rows = uint8
  /\ depth_unique repository
  /\ get_row_count (snd (bulk_insert_scans repository repeated_depths three_rows))
     = Returned 2%nat.
Proof.
  assert (Hu : depth_unique repository) by constructor.
  split; [reflexivity |]. split; [reflexivity |]. split; [reflexivity |].
  split; [exact Hu |].
  destruct (bulk_insert_scans_row_count repository repeated_depths three_rows
              eq_refl eq_refl eq_refl Hu) as (before & Hb & Ha).
  inversion Hb; subst. rewrite Ha. f_equal.
Defined.

(** ** Bounds, population and ranges *)

(** X8.  On a connected repository with at least one row whose depth is a
    number, querying the range that [get_depth_bounds] returns gives every
    such row; [get_row_count] counts these rows and the rows stored without
    a depth. *)
Theorem query_over_bounds_returns_all (self : ImageRepository) :
  _conn self = true ->
  stored_depths self <> [] ->
  exists (lo hi : real) (rows : list ScanRow),
    get_depth_bounds self = Returned (lo, hi)
    /\ query_depth_range self lo hi = Returned rows
    /\ Permutation rows
         (map to_ScanRow (Sql.not_null (image_scans (db self))))
    /\ get_row_count self
       = Returned (length rows
                   + length (null_rows (image_scans (db self))))%nat.
Proof.
  intros Hc Hne.
  unfold get_depth_bounds, query_depth_range, get_row_count, conn,
    stored_depths in *.
  rewrite Hc. simpl. unfold Sql.select_min_max.
  set (t := image_scans (db self)) in *.
  destruct (map fst (Sql.not_null t)) as [| x l] eqn:E; [congruence |]. simpl.
  destruct (fold_rmin_spec l x) as [_ Hle].
  destruct (fold_rmax_spec l x) as [_ Hge].
  assert (Hall : filter (Sql.in_range (fold_left Sql.rmin l x)
                                      (fold_left Sql.rmax l x))
                        (Sql.not_null t) = Sql.not_null t).
  { apply filter_all. intros r Hr. apply in_range_spec.
    assert (Hin : In (fst r) (x :: l)) by (rewrite <- E; now apply in_map).
    split; [now apply Hle | now apply Hge]. }
  assert (Hperm := select_range_perm t (fold_left Sql.rmin l x)
                     (fold_left Sql.rmax l x)).
  rewrite Hall in Hperm.
  eexists _, _, _. split; [reflexivity |]. split; [reflexivity |]. split.
  - now apply Permutation_map.
  - f_equal. rewrite length_map. unfold Sql.select_count.
    rewrite (length_not_null t). f_equal.
    symmetry. now apply Permutation_length.
Qed.

Lemma query_over_bounds_returns_all_witness :
  _conn populated_repository = true
  /\ stored_depths populated_repository <> []
  /\ exists (lo hi : real) (rows : list ScanRow),
       get_depth_bounds populated_repository = Returned (lo, hi)
       /\ query_depth_range populated_repository lo hi = Returned rows
       /\ length rows = 5%nat.
Proof.
  assert (Hne : stored_depths populated_repository <> []) by discriminate.
  split; [reflexivity |]. split; [exact Hne |].
  destruct (query_over_bounds_returns_all populated_repository eq_refl Hne)
    as (lo & hi & rows & H1 & H2 & H3 & _).
  exists lo, hi, rows. split; [exact H1 |]. split; [exact H2 |].
  rewrite (Permutation_length H3). reflexivity.
Defined.

(** X9.  On a connected repository [is_populated] answers [True] exactly
    when the table has a row, and [get_depth_bounds] returns a pair exactly
    when the table has a row whose depth is a number.  So a returned pair
    implies [True] and [False] implies the [ValueError]; the two disagree
    ([True] with the [ValueError]) exactly on a table that has rows, none
    of which has a depth. *)
Theorem is_populated_and_bounds (self : ImageRepository) :
  _conn self = true ->
  (is_populated self = Returned true <-> image_scans (db self) <> [])
  /\ (is_populated self = Returned false <-> image_scans (db self) = [])
  /\ ((exists lo hi, get_depth_bounds self = Returned (lo, hi))
      <-> stored_depths self <> [])
  /\ (get_depth_bounds self = Raised (ValueError "No scan data in database")
      <-> stored_depths self = [])
  /\ ((exists lo hi, get_depth_bounds self = Returned (lo, hi)) ->
      is_populated self = Returned true)
  /\ (is_populated self = Returned false ->
      get_depth_bounds self = Raised (ValueError "No scan data in database")).
Proof.
  intros Hc. unfold is_populated, get_row_count, get_depth_bounds, conn,
    stored_depths.
  rewrite Hc. simpl. unfold Sql.select_min_max, Sql.select_count.
  assert (Hsub : image_scans (db self) = [] ->
                 map fst (Sql.not_null (image_scans (db self))) = []).
  { intros ->. reflexivity. }
  destruct (image_scans (db self)) as [| r t] eqn:Et.
  - simpl. repeat split; try discriminate; try congruence; auto.
    + intros (lo & hi & H). discriminate H.
    + intros (lo & hi & H). discriminate H.
  - clear Hsub.
    destruct (map fst (Sql.not_null (r :: t))) as [| x l] eqn:E; simpl;
      repeat split; try discriminate; try congruence; auto.
    + intros (lo & hi & H). discriminate H.
    + intros _. eexists _, _. reflexivity.
Qed.

Lemma is_populated_and_bounds_witness :
  _conn nan_written_once = true
  /\ is_populated nan_written_once = Returned true
  /\ get_depth_bounds nan_written_once
     = Raised (ValueError "No scan data in database").
Proof.
  split; [reflexivity |].
  destruct (is_populated_and_bounds nan_written_once eq_refl)
    as (H1 & _ & _ & H4 & _).
  split; [apply H1; discriminate | apply H4; reflexivity].
Defined.

(** X10.  A range whose lower bound exceeds its upper bound is not rejected
    by the repository: the query returns the empty list. *)
Theorem query_depth_range_inverted (self : ImageRepository) (a b : real) :
  _conn self = true ->
  (b < a)%Qc ->
  query_depth_range self a b = Returned [].
Proof.
  intros Hc Hlt. unfold query_depth_range, conn. rewrite Hc. simpl.
  unfold Sql.select_range. rewrite filter_none; [reflexivity |].
  intros r _. destruct (Sql.in_range a b r) eqn:E; [| reflexivity].
  apply in_range_spec in E. destruct E as [E1 E2].
  exfalso. apply (Qclt_not_le _ _ Hlt). now apply Qcle_trans with (fst r).
Qed.

Lemma query_depth_range_inverted_witness :
  _conn populated_repository = true
  /\ (real_of_Z 100 < real_of_Z 102)%Qc
  /\ query_depth_range populated_repository (real_of_Z 102) (real_of_Z 100)
     = Returned [].
Proof.
  assert (H : (real_of_Z 100 < real_of_Z 102)%Qc) by reflexivity.
  split; [reflexivity |]. split; [exact H |].
  exact (query_depth_range_inverted populated_repository _ _ eq_refl H).
Defined.

(* ================================================================== *)
(** * Further properties of validate_and_clean *)

(** *** The three drops are filters *)

Lemma count_true_filter {A : Type} (f : A -> bool) (l : list A) :
  count_true (map f l) = length (filter f l).
Proof.
  unfold count_true. induction l as [| x l IH]; simpl; [reflexivity |].
  destruct (f x); simpl; now rewrite IH.
Qed.

Lemma filter_negb_all {A : Type} (f : A -> bool) (l : list A) :
  length (filter f l) = 0%nat -> filter (fun x => negb (f x)) l = l.
Proof.
  induction l as [| x l IH]; simpl; [reflexivity |].
  destruct (f x); simpl; [discriminate |]. intros H. now rewrite IH.
Qed.

Lemma existsb_id_map {A : Type} (f : A -> bool) (l : list A) :
  existsb (fun b => b) (map f l) = existsb f l.
Proof. induction l as [| x l IH]; simpl; [reflexivity | now rewrite IH]. Qed.

Lemma drop_null_rows_filter (rows : list df_row) :
  drop_null_rows rows
  = filter (fun r => negb (isnull (row_depth r) && forallb isnull (row_pixels r)))
           rows.
Proof.
  unfold drop_null_rows. rewrite count_true_filter.
  destruct (Nat.ltb_spec 0 (length (filter (fun r => isnull (row_depth r)
              && forallb isnull (row_pixels r)) rows))) as [H | H].
  - apply drop_masked_map.
  - symmetry. apply filter_negb_all. lia.
Qed.

Lemma drop_null_depths_filter (rows : list df_row) :
  drop_null_depths rows = filter (fun r => negb (isnull (row_depth r))) rows.
Proof.
  unfold drop_null_depths. rewrite existsb_id_map.
  destruct (existsb (fun r => isnull (row_depth r)) rows) eqn:E.
  - apply drop_masked_map.
  - symmetry. apply filter_all. intros r Hr. apply negb_true_iff.
    destruct (isnull (row_depth r)) eqn:N; [| reflexivity].
    rewrite <- E. symmetry. apply existsb_exists. now exists r.
Qed.

Lemma drop_masked_none {A : Type} (l : list A) (mask : list bool) :
  length mask = length l -> count_true mask = 0%nat -> drop_masked l mask = l.
Proof.
  revert mask. induction l as [| x l IH]; intros [| m mask]; simpl;
    try discriminate; [reflexivity |].
  unfold count_true. simpl. destruct m; simpl; [discriminate |].
  intros Hl Hc. f_equal. apply IH; [lia | exact Hc].
Qed.

Lemma duplicated_from_length (seen l : list cell) :
  length (duplicated_from seen l) = length l.
Proof.
  revert seen. induction l as [| x l IH]; intros seen; simpl;
    [reflexivity | now rewrite IH].
Qed.

Lemma drop_duplicates_masked (rows : list df_row) :
  drop_duplicates rows = drop_masked rows (duplicated (map row_depth rows)).
Proof.
  unfold drop_duplicates.
  destruct (Nat.ltb_spec 0 (count_true (duplicated (map row_depth rows))))
    as [H | H]; [reflexivity |].
  symmetry. apply drop_masked_none; [| lia].
  unfold duplicated. now rewrite duplicated_from_length, length_map.
Qed.

Lemma drop_masked_length {A : Type} (l : list A) (mask : list bool) :
  length mask = length l ->
  (length (drop_masked l mask) + count_true mask = length l)%nat.
Proof.
  revert mask. induction l as [| x l IH]; intros [| m mask]; simpl;
    try discriminate; [reflexivity |].
  intros Hl. injection Hl as Hl. specialize (IH mask Hl).
  unfold count_true in *. destruct m; simpl; lia.
Qed.

(** *** Equality of cells as [duplicated] sees it *)

Lemma cell_same_spec (x y : cell) :
  cell_eqb y x || (isnull y && isnull x) = true <-> y = x.
Proof.
  destruct x as [| a], y as [| b]; simpl; split; try discriminate; auto.
  - intros H. rewrite orb_false_r in H. apply Qc_eqb_eq in H. now subst.
  - intros H. inversion H; subst. rewrite orb_false_r. apply Qc_eqb_refl.
Qed.

Lemma seen_spec (seen : list cell) (x : cell) :
  existsb (fun y => cell_eqb y x || (isnull y && isnull x)) seen = true
  <-> In x seen.
Proof.
  rewrite existsb_exists. split.
  - intros (y & Hy & E). apply cell_same_spec in E. now subst.
  - intros H. exists x. split; [exact H | now apply cell_same_spec].
Qed.

Lemma dedup_keys (l : list df_row) (seen : list cell) (k : cell) :
  In k (map row_depth (drop_masked l (duplicated_from seen (map row_depth l))))
  <-> In k (map row_depth l) /\ ~ In k seen.
Proof.
  revert seen. induction l as [| x l IH]; intros seen; simpl; [tauto |].
  destruct (existsb _ seen) eqn:E.
  - apply seen_spec in E. rewrite IH. simpl. split.
    + intros [H1 H2]. split; [now right | tauto].
    + intros [[<- | H1] H2]; [contradiction |]. split; [exact H1 |].
      intros [<- | H]; contradiction.
  - assert (Hn : ~ In (row_depth x) seen).
    { intros H. apply seen_spec in H. congruence. }
    simpl. rewrite IH. simpl. split.
    + intros [<- | [H1 H2]]; [tauto |]. split; [now right | tauto].
    + intros [[<- | H1] H2]; [now left |].
      destruct (cell_eqb (row_depth x) k || (isnull (row_depth x) && isnull k))
        eqn:Q.
      * apply cell_same_spec in Q. now left.
      * right. split; [exact H1 |]. simpl. intros [C | H]; [| contradiction].
        apply cell_same_spec in C. congruence.
Qed.

Lemma dedup_NoDup (l : list df_row) (seen : list cell) :
  NoDup (map row_depth (drop_masked l (duplicated_from seen (map row_depth l)))).
Proof.
  revert seen. induction l as [| x l IH]; intros seen; simpl; [constructor |].
  destruct (existsb _ seen) eqn:E; [apply IH |].
  simpl. constructor; [| apply IH].
  rewrite dedup_keys. simpl. tauto.
Qed.

Lemma drop_masked_sorted {A : Type} (R : A -> A -> Prop) (l : list A)
  (mask : list bool) :
  StronglySorted R l -> StronglySorted R (drop_masked l mask).
Proof.
  intros H. revert mask. induction H as [| x l Hs IH Hx]; intros [| m mask];
    simpl; try constructor.
  destruct m; [apply IH |]. constructor; [apply IH |].
  rewrite Forall_forall in *. intros y Hy. apply Hx.
  now apply drop_masked_in in Hy.
Qed.

(** *** What the cleaned rows are *)

Section ValidateAndClean.

Variable sort_values : list df_row -> list df_row.
Hypothesis sort_values_ok : sort_values_contract sort_values.

Lemma drop_null_depths_has_depth (rows : list df_row) :
  Forall (fun r => isnull (row_depth r) = false) (drop_null_depths rows).
Proof.
  rewrite drop_null_depths_filter, Forall_forall. intros r Hr.
  apply filter_In in Hr. now apply negb_true_iff.
Qed.

Lemma sorted_rows_perm (df : DataFrame) :
  Permutation (sorted_rows sort_values df)
              (drop_null_depths (drop_null_rows (df_rows df))).
Proof.
  apply Permutation_sym, sort_values_ok, drop_null_depths_has_depth.
Qed.

Lemma sorted_rows_sorted (df : DataFrame) :
  StronglySorted (holds depth_leb) (sorted_rows sort_values df).
Proof. apply sort_values_ok, drop_null_depths_has_depth. Qed.

Lemma cleaned_rows_in (df : DataFrame) (r : df_row) :
  In r (cleaned_rows sort_values df) -> In r (df_rows df) /\ isnull (row_depth r) = false.
Proof.
  unfold cleaned_rows. rewrite drop_duplicates_masked. intros H.
  apply drop_masked_in in H.
  apply (Permutation_in _ (sorted_rows_perm df)) in H.
  rewrite drop_null_depths_filter, drop_null_rows_filter in H.
  apply filter_In in H. destruct H as [H Hd]. apply filter_In in H.
  apply negb_true_iff in Hd. tauto.
Qed.

Lemma cleaned_rows_depths (df : DataFrame) (k : cell) :
  In k (map row_depth (cleaned_rows sort_values df))
  <-> k <> NaN /\ exists r, In r (df_rows df) /\ row_depth r = k.
Proof.
  unfold cleaned_rows. rewrite drop_duplicates_masked. unfold duplicated.
  rewrite dedup_keys. rewrite in_map_iff. split.
  - intros [(r & E & H) _].
    apply (Permutation_in _ (sorted_rows_perm df)) in H.
    rewrite drop_null_depths_filter, drop_null_rows_filter in H.
    apply filter_In in H. destruct H as [H Hd]. apply filter_In in H.
    apply negb_true_iff in Hd. subst k. split.
    + intros C. rewrite C in Hd. discriminate.
    + exists r. tauto.
  - intros [Hk (r & H & E)]. split; [| tauto]. exists r. split; [exact E |].
    apply (Permutation_in _ (Permutation_sym (sorted_rows_perm df))).
    rewrite drop_null_depths_filter, drop_null_rows_filter.
    assert (Hd : isnull (row_depth r) = false).
    { rewrite E. destruct k; [congruence | reflexivity]. }
    apply filter_In. split; [| now rewrite Hd].
    apply filter_In. split; [exact H | now rewrite Hd].
Qed.

Lemma cleaned_rows_sorted (df : DataFrame) :
  StronglySorted (fun x y => cell_ltb x y = true)
                 (map row_depth (cleaned_rows sort_values df)).
Proof.
  assert (Hs : StronglySorted (holds depth_leb) (cleaned_rows sort_values df)).
  { unfold cleaned_rows. rewrite drop_duplicates_masked.
    apply drop_masked_sorted.
    apply sorted_rows_sorted. }
  assert (Hn : forall r, In r (cleaned_rows sort_values df) -> isnull (row_depth r) = false)
    by (intros r Hr; now apply cleaned_rows_in in Hr).
  assert (Hu : NoDup (map row_depth (cleaned_rows sort_values df))).
  { unfold cleaned_rows. rewrite drop_duplicates_masked. apply dedup_NoDup. }
  induction Hs as [| r l Hs IH Hr]; simpl; constructor.
  - apply IH; [intros x Hx; apply Hn; now right | now inversion Hu].
  - rewrite Forall_forall in *. intros k Hk. apply in_map_iff in Hk.
    destruct Hk as (x & <- & Hx).
    assert (H1 := Hr x Hx). unfold holds, depth_leb in H1.
    assert (N1 := Hn r (or_introl eq_refl)). assert (N2 := Hn x (or_intror Hx)).
    inversion Hu as [| ? ? Hnot _]; subst.
    destruct (row_depth r) as [| a] eqn:Er; [discriminate |].
    destruct (row_depth x) as [| b] eqn:Ex; [discriminate |].
    simpl. apply Qc_ltb_lt. apply Qc_leb_le in H1.
    destruct (Qcle_lt_or_eq _ _ H1) as [Hlt | Heq]; [exact Hlt |].
    exfalso. apply Hnot. apply in_map_iff. exists x. split; [| exact Hx].
    rewrite Ex. now rewrite Heq.
Qed.

(** *** What a returned triple is made of *)

Lemma validate_and_clean_returned (df : DataFrame) (depths : list cell)
  (pixels : list (list cell)) (report : ValidationReport) :
  validate_and_clean sort_values df = Returned (depths, pixels, report) ->
  exists px_min px_max dmin dmax : cell,
    np_min (concat (filled_pixels sort_values df)) = Returned px_min
    /\ np_max (concat (filled_pixels sort_values df)) = Returned px_max
    /\ np_min depths = Returned dmin
    /\ np_max depths = Returned dmax
    /\ depths = map row_depth (cleaned_rows sort_values df)
    /\ pixels = (if cell_ltb px_min (Num (real_of_Z 0))
                    || cell_ltb (Num (real_of_Z 255)) px_max
                 then map (map clip_cell) (filled_pixels sort_values df)
                 else filled_pixels sort_values df)
    /\ report
       = mk_report
           (length (df_rows df)) (length depths)
           (mask_sum (map (fun r => isnull (row_depth r)
                                    && forallb isnull (row_pixels r))
                          (df_rows df)))
           (mask_sum (duplicated (map row_depth (sorted_rows sort_values df))))
           dmin dmax (np_median (np_diff depths))
           (forallb (fun c => cell_ltb (Num (real_of_Z 0)) c) (np_diff depths))
           px_min px_max (pixel_cols df).
Proof.
  rewrite validate_and_clean_stages. cbv zeta.
  destruct (np_min (concat (filled_pixels sort_values df))) as [px_min |]; [| discriminate].
  destruct (np_max (concat (filled_pixels sort_values df))) as [px_max |]; [| discriminate].
  cbn [bind].
  destruct (np_min (map row_depth (cleaned_rows sort_values df))) as [dmin |] eqn:E1;
    [| discriminate].
  destruct (np_max (map row_depth (cleaned_rows sort_values df))) as [dmax |] eqn:E2;
    [| discriminate].
  cbn [bind]. intros H. inversion H; subst.
  exists px_min, px_max, dmin, dmax. auto 10.
Qed.

Lemma np_diff_cons (x y : cell) (l : list cell) :
  np_diff (x :: y :: l)
  = match x, y with
    | Num a, Num b => Num (b - a)%Qc
    | _, _ => NaN
    end :: np_diff (y :: l).
Proof. reflexivity. Qed.

Lemma np_diff_increasing (l : list cell) :
  StronglySorted (fun x y => cell_ltb x y = true) l ->
  forallb (fun c => cell_ltb (Num (real_of_Z 0)) c) (np_diff l) = true.
Proof.
  induction 1 as [| x l Hs IH Hx]; [reflexivity |].
  destruct l as [| y l]; [reflexivity |].
  rewrite np_diff_cons. cbn [forallb]. rewrite IH, andb_true_r.
  inversion Hx as [| ? ? Hxy _]; subst.
  destruct x as [| a], y as [| b]; try discriminate.
  cbn [cell_ltb] in *. apply Qc_ltb_lt. apply Qc_ltb_lt in Hxy.
  change (real_of_Z 0) with 0%Qc. unfold Qcminus.
  exact (proj1 (Qclt_minus_iff a b) Hxy).
Qed.

(** X11.  Whenever [validate_and_clean] returns, the depths it returns
    contain no missing value and are strictly increasing, and the report's
    [is_monotonic] is [True]. *)
Theorem validate_and_clean_depths_increasing (df : DataFrame)
  (depths : list cell) (pixels : list (list cell)) (report : ValidationReport) :
  validate_and_clean sort_values df = Returned (depths, pixels, report) ->
  (forall c, In c depths -> isnull c = false)
  /\ StronglySorted (fun x y => cell_ltb x y = true) depths
  /\ is_monotonic report = true.
Proof.
  intros H. apply validate_and_clean_returned in H.
  destruct H as (px_min & px_max & dmin & dmax & _ & _ & _ & _ & Hd & _ & Hr).
  assert (Hs := cleaned_rows_sorted df). rewrite <- Hd in Hs.
  split; [| split; [exact Hs |]].
  - intros c Hc. rewrite Hd in Hc. apply cleaned_rows_depths in Hc.
    destruct c; [now destruct Hc | reflexivity].
  - rewrite Hr. simpl. now apply np_diff_increasing.
Qed.

(** X12.  The depths returned are exactly the depths present in the input:
    a number is among them if and only if some input row has it as its
    depth.  Only missing depths and repetitions are removed. *)
Theorem validate_and_clean_depths_are_input_depths (df : DataFrame)
  (depths : list cell) (pixels : list (list cell)) (report : ValidationReport) :
  validate_and_clean sort_values df = Returned (depths, pixels, report) ->
  NoDup depths
  /\ forall q : real,
       In (Num q) depths
       <-> exists r, In r (df_rows df) /\ row_depth r = Num q.
Proof.
  intros H. apply validate_and_clean_returned in H.
  destruct H as (px_min & px_max & dmin & dmax & _ & _ & _ & _ & Hd & _ & _).
  subst depths. split.
  - unfold cleaned_rows. rewrite drop_duplicates_masked. apply dedup_NoDup.
  - intros q. rewrite cleaned_rows_depths. split; [tauto |].
    intros H. split; [discriminate | exact H].
Qed.

(** *** Shape and accounting *)

Lemma fill_nan_rows_shape (pixels : list (list cell)) (w : nat) :
  Forall (fun row => length row = w) pixels ->
  Forall (fun row => length row = w) (fill_nan_rows pixels).
Proof.
  intros H. unfold fill_nan_rows. rewrite Forall_forall in *.
  intros row Hrow. apply in_map_iff in Hrow. destruct Hrow as (r & <- & Hr).
  destruct (existsb isnull r); [| now apply H].
  unfold fill_row. rewrite length_map. now apply H.
Qed.

Lemma filled_pixels_length (df : DataFrame) :
  length (filled_pixels sort_values df) = length (cleaned_rows sort_values df).
Proof.
  unfold filled_pixels. destruct (existsb _ _); unfold fill_nan_rows;
    now rewrite ?length_map.
Qed.

Lemma filled_pixels_width (df : DataFrame) :
  df_wf df ->
  Forall (fun row => length row = pixel_cols df) (filled_pixels sort_values df).
Proof.
  intros Hwf.
  assert (H : Forall (fun row => length row = pixel_cols df)
                     (map row_pixels (cleaned_rows sort_values df))).
  { unfold df_wf in Hwf. rewrite Forall_forall in *. intros row Hrow.
    apply in_map_iff in Hrow. destruct Hrow as (r & <- & Hr).
    apply Hwf. now apply cleaned_rows_in in Hr. }
  unfold filled_pixels. destruct (existsb _ _); [| exact H].
  now apply fill_nan_rows_shape.
Qed.

(** X13.  The triple returned is consistent in shape: as many pixel rows as
    depths, which is [clean_rows]; [raw_rows] is the number of input rows and
    is not exceeded; [original_width] is the number of pixel columns, and on
    a rectangular input every returned pixel row has that width. *)
Theorem validate_and_clean_shape (df : DataFrame)
  (depths : list cell) (pixels : list (list cell)) (report : ValidationReport) :
  validate_and_clean sort_values df = Returned (depths, pixels, report) ->
  length pixels = length depths
  /\ clean_rows report = length depths
  /\ raw_rows report = length (df_rows df)
  /\ (clean_rows report <= raw_rows report)%nat
  /\ original_width report = pixel_cols df
  /\ (df_wf df -> Forall (fun row => length row = pixel_cols df) pixels).
Proof.
  intros H. apply validate_and_clean_returned in H.
  destruct H as (px_min & px_max & dmin & dmax & _ & _ & _ & _ & Hd & Hp & Hr).
  assert (Hlen : length pixels = length depths).
  { rewrite Hp, Hd, length_map.
    destruct (_ || _); rewrite ?length_map; apply filled_pixels_length. }
  rewrite Hr. simpl. repeat split; auto.
  - rewrite Hd, length_map. unfold cleaned_rows.
    rewrite drop_duplicates_masked.
    transitivity (length (sorted_rows sort_values df)).
    + generalize (sorted_rows sort_values df). intros l.
      generalize (duplicated (map row_depth l)).
      induction l as [| x l IH]; intros [| m mask]; simpl; try lia.
      destruct m; simpl; specialize (IH mask); lia.
    + rewrite (Permutation_length (sorted_rows_perm df)).
      rewrite drop_null_depths_filter, drop_null_rows_filter.
      etransitivity; apply filter_length_le.
  - intros Hwf. assert (Hw := filled_pixels_width df Hwf). rewrite Hp.
    destruct (_ || _); [| exact Hw].
    rewrite Forall_forall in *. intros row Hrow.
    apply in_map_iff in Hrow. destruct Hrow as (r & <- & Hr0).
    rewrite length_map. now apply Hw.
Qed.

(** X14.  Row accounting.  The input rows are the clean rows, plus the
    fully-null rows the report counts, plus the duplicate depths the report
    counts, plus the rows that have pixel values but no depth, which are
    dropped and appear in no counter of the report. *)
Theorem validate_and_clean_row_accounting (df : DataFrame)
  (depths : list cell) (pixels : list (list cell)) (report : ValidationReport) :
  validate_and_clean sort_values df = Returned (depths, pixels, report) ->
  raw_rows report
  = (clean_rows report + int_value (null_rows_dropped report)
     + int_value (duplicate_depths_dropped report)
     + length (filter depthless_with_pixels (df_rows df)))%nat.
Proof.
  intros H. apply validate_and_clean_returned in H.
  destruct H as (px_min & px_max & dmin & dmax & _ & _ & _ & _ & Hd & _ & Hr).
  rewrite Hr. simpl. rewrite Hd, length_map. unfold cleaned_rows.
  rewrite drop_duplicates_masked.
  assert (H3 := Permutation_length (sorted_rows_perm df)).
  set (rows := df_rows df) in *.
  set (rows3 := sorted_rows sort_values df) in *.
  assert (H4 := drop_masked_length rows3 (duplicated (map row_depth rows3))).
  unfold duplicated in *. rewrite duplicated_from_length, length_map in H4.
  specialize (H4 eq_refl).
  rewrite drop_null_depths_filter, drop_null_rows_filter in H3.
  assert (H1 := filter_length
                  (fun r => isnull (row_depth r) && forallb isnull (row_pixels r))
                  rows).
  assert (H2 := filter_length (fun r => isnull (row_depth r))
                  (filter (fun r => negb (isnull (row_depth r)
                                          && forallb isnull (row_pixels r)))
                          rows)).
  cbv beta in H1, H2.
  assert (H5 : length (filter (fun r => isnull (row_depth r))
                         (filter (fun r => negb (isnull (row_depth r)
                                          && forallb isnull (row_pixels r)))
                                 rows))
               = length (filter depthless_with_pixels rows)).
  { rewrite filter_twice. f_equal. apply filter_ext. intros r.
    unfold depthless_with_pixels.
    destruct (isnull (row_depth r)), (forallb isnull (row_pixels r));
      reflexivity. }
  unfold mask_sum, int_value. rewrite count_true_filter. fold rows. lia.
Qed.

(** *** The range of the returned pixels *)

Lemma fold_cell_min_spec (l : list cell) (x : real) :
  (forall c, In c l -> isnull c = false) ->
  exists m : real,
    fold_left cell_min l (Num x) = Num m
    /\ forall q, In (Num q) (Num x :: l) -> (m <= q)%Qc.
Proof.
  revert x. induction l as [| c l IH]; intros x Hl; simpl.
  - exists x. split; [reflexivity |]. intros q [E | []]. inversion E.
    apply Qcle_refl.
  - assert (Hc := Hl c (or_introl eq_refl)). destruct c as [| y]; [discriminate |].
    simpl. destruct (IH (if Qc_leb x y then x else y)) as (m & Em & Hm).
    { intros c Hin. apply Hl. now right. }
    exists m. split; [exact Em |].
    intros q [E | [E | Hin]].
    + inversion E; subst. destruct (Qc_leb q y) eqn:Q.
      * apply Hm. now left.
      * apply Qcle_trans with y; [apply Hm; now left |].
        apply Qclt_le_weak. now apply Qc_leb_false.
    + inversion E; subst. destruct (Qc_leb x q) eqn:Q.
      * apply Qcle_trans with x; [apply Hm; now left | now apply Qc_leb_le].
      * apply Hm. now left.
    + apply Hm. now right.
Qed.

Lemma fold_cell_max_spec (l : list cell) (x : real) :
  (forall c, In c l -> isnull c = false) ->
  exists m : real,
    fold_left cell_max l (Num x) = Num m
    /\ forall q, In (Num q) (Num x :: l) -> (q <= m)%Qc.
Proof.
  revert x. induction l as [| c l IH]; intros x Hl; simpl.
  - exists x. split; [reflexivity |]. intros q [E | []]. inversion E.
    apply Qcle_refl.
  - assert (Hc := Hl c (or_introl eq_refl)). destruct c as [| y]; [discriminate |].
    simpl. destruct (IH (if Qc_leb x y then y else x)) as (m & Em & Hm).
    { intros c Hin. apply Hl. now right. }
    exists m. split; [exact Em |].
    intros q [E | [E | Hin]].
    + inversion E; subst. destruct (Qc_leb q y) eqn:Q.
      * apply Qcle_trans with y; [now apply Qc_leb_le | apply Hm; now left].
      * apply Hm. now left.
    + inversion E; subst. destruct (Qc_leb x q) eqn:Q.
      * apply Hm. now left.
      * apply Qcle_trans with x; [| apply Hm; now left].
        apply Qclt_le_weak. now apply Qc_leb_false.
    + apply Hm. now right.
Qed.

Lemma clip_cell_range (q : real) : in_byte_range (clip_cell (Num q)).
Proof.
  unfold in_byte_range, clip_cell.
  destruct (Qc_ltb q (real_of_Z 0)) eqn:E0.
  - eexists. split; [reflexivity |]. split; [apply Qcle_refl | now vm_compute].
  - destruct (Qc_ltb (real_of_Z 255) q) eqn:E1.
    + eexists. split; [reflexivity |]. split; [now vm_compute | apply Qcle_refl].
    + eexists. split; [reflexivity |].
      unfold Qc_ltb in E0, E1. rewrite negb_false_iff in E0, E1.
      now rewrite !Qc_leb_le in *.
Qed.

(** X15.  When [validate_and_clean] returns a matrix without missing value,
    every pixel of it is a number between 0 and 255. *)
Theorem validate_and_clean_pixel_range (df : DataFrame)
  (depths : list cell) (pixels : list (list cell)) (report : ValidationReport) :
  validate_and_clean sort_values df = Returned (depths, pixels, report) ->
  has_nan pixels = false ->
  forall row c, In row pixels -> In c row -> in_byte_range c.
Proof.
  intros H Hnan. apply validate_and_clean_returned in H.
  destruct H as (px_min & px_max & dmin & dmax & Hmin & Hmax & _ & _ & _
                 & Hp & _).
  rewrite has_nan_false in Hnan.
  destruct (cell_ltb px_min (Num (real_of_Z 0))
            || cell_ltb (Num (real_of_Z 255)) px_max) eqn:Hclip.
  - subst pixels. intros row c Hrow Hc.
    apply in_map_iff in Hrow. destruct Hrow as (row0 & <- & Hrow0).
    apply in_map_iff in Hc. destruct Hc as (c0 & <- & Hc0).
    destruct c0 as [| q]; [| apply clip_cell_range].
    exfalso. assert (N : isnull (clip_cell NaN) = false).
    { apply (Hnan (map clip_cell row0)).
      - apply in_map_iff. now exists row0.
      - apply in_map_iff. now exists NaN. }
    discriminate N.
  - subst pixels. apply orb_false_iff in Hclip. destruct Hclip as [C0 C1].
    assert (Hall : forall c, In c (concat (filled_pixels sort_values df)) -> isnull c = false).
    { intros c Hc. apply in_concat in Hc. destruct Hc as (row & Hrow & Hc).
      now apply (Hnan row). }
    intros row c Hrow Hc.
    assert (Hin : In c (concat (filled_pixels sort_values df))).
    { apply in_concat. now exists row. }
    destruct (concat (filled_pixels sort_values df)) as [| x l]; [contradiction |].
    assert (Hx := Hall x (or_introl eq_refl)).
    destruct x as [| x]; [discriminate |].
    destruct (fold_cell_min_spec l x) as (m & Em & Hm);
      [intros; apply Hall; now right |].
    destruct (fold_cell_max_spec l x) as (M & EM & HM);
      [intros; apply Hall; now right |].
    simpl in Hmin, Hmax. rewrite Em in Hmin. rewrite EM in Hmax.
    inversion Hmin; inversion Hmax; subst. simpl in C0, C1.
    unfold Qc_ltb in C0, C1. rewrite negb_false_iff, Qc_leb_le in C0, C1.
    assert (Hc0 := Hall c Hin). destruct c as [| q]; [discriminate |].
    exists q. split; [reflexivity |]. split.
    + apply Qcle_trans with m; [exact C0 | now apply Hm].
    + apply Qcle_trans with M; [now apply HM | exact C1].
Qed.

(** *** When it raises and when it returns *)

(** X16.  On a rectangular table [validate_and_clean] raises numpy's
    [ValueError] for a zero-size array when there is no pixel column or no
    row has a depth; with at least one pixel column and one row that has a
    depth it returns. *)
Theorem validate_and_clean_empty_raises (df : DataFrame) :
  df_wf df ->
  ((pixel_cols df = 0%nat
    \/ forall r, In r (df_rows df) -> isnull (row_depth r) = true) ->
   validate_and_clean sort_values df
   = Raised (ValueError
       "zero-size array to reduction operation minimum which has no identity"))
  /\ ((1 <= pixel_cols df)%nat ->
      (exists r, In r (df_rows df) /\ isnull (row_depth r) = false) ->
      exists depths pixels report,
        validate_and_clean sort_values df = Returned (depths, pixels, report)).
Proof.
  intros Hwf. assert (Hw := filled_pixels_width df Hwf).
  rewrite validate_and_clean_stages. cbv zeta. split.
  - intros H.
    assert (E : concat (filled_pixels sort_values df) = []).
    { apply concat_nil_Forall. destruct H as [H | H].
      - rewrite Forall_forall in *. intros row Hrow.
        specialize (Hw row Hrow). rewrite H in Hw.
        now destruct row.
      - assert (C : cleaned_rows sort_values df = []).
        { destruct (cleaned_rows sort_values df) as [| r l] eqn:C; [reflexivity |].
          assert (Hr : In r (cleaned_rows sort_values df)) by (rewrite C; now left).
          apply cleaned_rows_in in Hr. destruct Hr as [Hr N].
          rewrite (H r Hr) in N. discriminate. }
        assert (L := filled_pixels_length df). rewrite C in L.
        destruct (filled_pixels sort_values df); [constructor | discriminate]. }
    rewrite E. reflexivity.
  - intros Hcols (r & Hr & Hd).
    assert (Hk : In (row_depth r) (map row_depth (cleaned_rows sort_values df))).
    { apply cleaned_rows_depths. split.
      - intros C. rewrite C in Hd. discriminate.
      - now exists r. }
    destruct (map row_depth (cleaned_rows sort_values df)) as [| d ds] eqn:D;
      [contradiction |].
    assert (L := filled_pixels_length df).
    rewrite <- (length_map row_depth), D in L.
    destruct (filled_pixels sort_values df) as [| row rows]; [discriminate |].
    inversion Hw as [| ? ? Hrow _]; subst.
    destruct row as [| c row]; [simpl in Hrow; lia |].
    simpl. eexists _, _, _. reflexivity.
Qed.

(** *** Which row is kept for a depth *)

Lemma find_filter {A : Type} (p : A -> bool) (l : list A) :
  find p l = hd_error (filter p l).
Proof.
  induction l as [| x l IH]; [reflexivity |]. simpl.
  destruct (p x); [reflexivity | exact IH].
Qed.

Lemma dedup_first (l : list df_row) (seen : list cell) (r : df_row) (q : real) :
  row_depth r = Num q ->
  In r (drop_masked l (duplicated_from seen (map row_depth l))) ->
  find (fun x => cell_eqb (row_depth x) (Num q)) l = Some r.
Proof.
  intros Hq. revert seen. induction l as [| x l IH]; intros seen; simpl;
    [contradiction |].
  assert (Hrest :
    In r (drop_masked l (duplicated_from (row_depth x :: seen) (map row_depth l)))
    -> (if cell_eqb (row_depth x) (Num q) then Some x
        else find (fun x => cell_eqb (row_depth x) (Num q)) l) = Some r).
  { intros Hin.
    assert (Hr : In (row_depth r)
                   (map row_depth (drop_masked l
                      (duplicated_from (row_depth x :: seen) (map row_depth l)))))
      by now apply in_map.
    apply dedup_keys in Hr. destruct Hr as [_ Hr].
    destruct (cell_eqb (row_depth x) (Num q)) eqn:C;
      [| now apply IH with (row_depth x :: seen)].
    exfalso. apply Hr. left. destruct (row_depth x); [discriminate |].
    simpl in C. apply Qc_eqb_eq in C. congruence. }
  destruct (existsb _ seen) eqn:E; [exact Hrest |].
  simpl. intros [<- | Hin]; [| now apply Hrest].
  rewrite Hq. simpl. now rewrite Qc_eqb_refl.
Qed.

(** The row kept for a depth is the first of that depth in the sorted
    frame, and it is a row of the input. *)
Lemma cleaned_rows_first (df : DataFrame) (r : df_row) (q : real) :
  row_depth r = Num q ->
  In r (cleaned_rows sort_values df) ->
  find (fun x => cell_eqb (row_depth x) (Num q)) (sorted_rows sort_values df)
  = Some r
  /\ In r (df_rows df).
Proof.
  intros Hq Hin. split; [| now apply cleaned_rows_in in Hin].
  unfold cleaned_rows in Hin. rewrite drop_duplicates_masked in Hin.
  exact (dedup_first _ [] r q Hq Hin).
Qed.

Lemma fill_row_keeps_numbers (row : list cell) (j : nat) (v : real) :
  nth_error row j = Some (Num v) -> nth_error (fill_row row) j = Some (Num v).
Proof.
  intros H. unfold fill_row. rewrite nth_error_map, H. reflexivity.
Qed.

Lemma clip_cell_in_range (v : real) :
  (real_of_Z 0 <= v)%Qc -> (v <= real_of_Z 255)%Qc -> clip_cell (Num v) = Num v.
Proof.
  intros H0 H1. unfold clip_cell, Qc_ltb.
  apply Qc_leb_le in H0, H1. now rewrite H0, H1.
Qed.

(** X17.  Keep first, after the sort.  For every depth returned, the pixel
    row returned with it comes from an input row of this depth, namely the
    one that [sort_values] has put first among the rows of this depth: it
    has the same length, and every pixel of that input row that is a number
    between 0 and 255 is returned unchanged at its position. *)
Theorem validate_and_clean_keeps_sorted_first (df : DataFrame)
  (depths : list cell) (pixels : list (list cell)) (report : ValidationReport)
  (i : nat) (q : real) :
  validate_and_clean sort_values df = Returned (depths, pixels, report) ->
  nth_error depths i = Some (Num q) ->
  exists (r : df_row) (row : list cell),
    In r (df_rows df)
    /\ row_depth r = Num q
    /\ find (fun x => cell_eqb (row_depth x) (Num q))
            (sorted_rows sort_values df) = Some r
    /\ nth_error pixels i = Some row
    /\ length row = length (row_pixels r)
    /\ forall j v,
         nth_error (row_pixels r) j = Some (Num v) ->
         (real_of_Z 0 <= v)%Qc -> (v <= real_of_Z 255)%Qc ->
         nth_error row j = Some (Num v).
Proof.
  intros H Hi. apply validate_and_clean_returned in H.
  destruct H as (px_min & px_max & dmin & dmax & _ & _ & _ & _ & Hd & Hp & _).
  subst depths. rewrite nth_error_map in Hi.
  destruct (nth_error (cleaned_rows sort_values df) i) as [r |] eqn:Er;
    [| discriminate].
  simpl in Hi. assert (Hq : row_depth r = Num q) by congruence. exists r.
  assert (Hf : exists row1,
             nth_error (filled_pixels sort_values df) i = Some row1
             /\ length row1 = length (row_pixels r)
             /\ forall j v, nth_error (row_pixels r) j = Some (Num v) ->
                            nth_error row1 j = Some (Num v)).
  { unfold filled_pixels. destruct (existsb _ _).
    - unfold fill_nan_rows. rewrite !nth_error_map, Er. simpl.
      destruct (existsb isnull (row_pixels r)).
      + eexists. split; [reflexivity |]. split.
        * unfold fill_row. apply length_map.
        * intros j v. apply fill_row_keeps_numbers.
      + eexists. split; [reflexivity |]. auto.
    - rewrite nth_error_map, Er. simpl. eexists. split; [reflexivity |]. auto. }
  destruct Hf as (row1 & E1 & L1 & K1).
  destruct (cleaned_rows_first df r q Hq (nth_error_In _ _ Er))
    as [Hfirst Hin].
  rewrite Hp. destruct (_ || _).
  - exists (map clip_cell row1). rewrite nth_error_map, E1. simpl.
    split; [exact Hin |]. split; [exact Hq |]. split; [exact Hfirst |].
    split; [reflexivity |].
    split; [now rewrite length_map |].
    intros j v Hj H0 H1. rewrite nth_error_map, (K1 j v Hj).
    cbn [option_map]. now rewrite clip_cell_in_range.
  - exists row1. split; [exact Hin |]. split; [exact Hq |].
    split; [exact Hfirst |]. split; [exact E1 |].
    split; [exact L1 |]. intros j v Hj _ _. now apply K1.
Qed.

(** Where the filling does succeed: when every row that has a depth has at
    least one pixel value, a returned matrix has no missing value. *)
Lemma validate_and_clean_no_nan (df : DataFrame)
  (depths : list cell) (pixels : list (list cell)) (report : ValidationReport) :
  (forall r, In r (df_rows df) -> isnull (row_depth r) = false ->
             numbers (row_pixels r) <> []) ->
  validate_and_clean sort_values df = Returned (depths, pixels, report) ->
  has_nan pixels = false.
Proof.
  intros Hnum H. apply validate_and_clean_returned in H.
  destruct H as (px_min & px_max & dmin & dmax & _ & _ & _ & _ & _ & Hp & _).
  assert (H1 : has_nan (filled_pixels sort_values df) = false).
  { apply has_nan_false. intros row c Hrow Hc. unfold filled_pixels in Hrow.
    assert (Hrows : forall r, In r (cleaned_rows sort_values df) ->
                              numbers (row_pixels r) <> []).
    { intros r Hr. apply cleaned_rows_in in Hr. now apply Hnum. }
    destruct (existsb (fun b => b)
                (map (existsb isnull)
                     (map row_pixels (cleaned_rows sort_values df)))) eqn:E.
    - unfold fill_nan_rows in Hrow. apply in_map_iff in Hrow.
      destruct Hrow as (row0 & <- & Hrow0).
      apply in_map_iff in Hrow0. destruct Hrow0 as (r & <- & Hr).
      destruct (existsb isnull (row_pixels r)) eqn:En.
      + apply (fill_row_no_nan (row_pixels r)); auto.
      + destruct (isnull c) eqn:Ec; [| reflexivity].
        rewrite <- En. symmetry. apply existsb_exists. now exists c.
    - assert (En := existsb_id_false (existsb isnull) _ row E Hrow).
      destruct (isnull c) eqn:Ec; [| reflexivity].
      rewrite <- En. symmetry. apply existsb_exists. now exists c. }
  rewrite Hp. destruct (_ || _); [| exact H1].
  apply has_nan_false. intros row c Hrow Hc.
  apply in_map_iff in Hrow. destruct Hrow as (row0 & <- & Hrow0).
  apply in_map_iff in Hc. destruct Hc as (c0 & <- & Hc0).
  rewrite has_nan_false in H1. specialize (H1 row0 c0 Hrow0 Hc0).
  destruct c0; [discriminate | reflexivity].
Qed.

End ValidateAndClean.

Lemma validate_and_clean_depths_increasing_witness :
  sort_values_contract reversing_sort
  /\ exists (depths : list cell) (pixels : list (list cell))
            (report : ValidationReport),
       validate_and_clean reversing_sort scenario_table
       = Returned (depths, pixels, report)
       /\ StronglySorted (fun x y => cell_ltb x y = true) depths
       /\ is_monotonic report = true.
Proof.
  split; [exact reversing_sort_contract |].
  destruct (validate_and_clean reversing_sort scenario_table)
    as [[[depths pixels] report] |] eqn:E; [| discriminate E].
  exists depths, pixels, report. split; [reflexivity |].
  destruct (validate_and_clean_depths_increasing reversing_sort
              reversing_sort_contract scenario_table depths pixels report E)
    as (_ & H2 & H3).
  split; [exact H2 | exact H3].
Defined.

Lemma validate_and_clean_depths_are_input_depths_witness :
  sort_values_contract stable_sort
  /\ exists (depths : list cell) (pixels : list (list cell))
            (report : ValidationReport),
       validate_and_clean stable_sort scenario_table
       = Returned (depths, pixels, report)
       /\ In (Num (real_of_Z 2)) depths.
Proof.
  split; [exact stable_sort_contract |].
  destruct (validate_and_clean stable_sort scenario_table)
    as [[[depths pixels] report] |] eqn:E; [| discriminate E].
  exists depths, pixels, report. split; [reflexivity |].
  apply (proj2 (validate_and_clean_depths_are_input_depths stable_sort
                  stable_sort_contract scenario_table depths pixels report E)).
  exists (mk_row (Num (real_of_Z 2)) [Num (real_of_Z 5); NaN]).
  split; [simpl; tauto | reflexivity].
Defined.

Lemma validate_and_clean_shape_witness :
  sort_values_contract stable_sort
  /\ exists (depths : list cell) (pixels : list (list cell))
            (report : ValidationReport),
       validate_and_clean stable_sort scenario_table
       = Returned (depths, pixels, report)
       /\ length pixels = length depths
       /\ original_width report = 2%nat.
Proof.
  split; [exact stable_sort_contract |].
  destruct (validate_and_clean stable_sort scenario_table)
    as [[[depths pixels] report] |] eqn:E; [| discriminate E].
  exists depths, pixels, report. split; [reflexivity |].
  destruct (validate_and_clean_shape stable_sort stable_sort_contract
              scenario_table depths pixels report E)
    as (H1 & _ & _ & _ & H5 & _).
  split; [exact H1 | exact H5].
Defined.

Lemma validate_and_clean_row_accounting_witness :
  sort_values_contract stable_sort
  /\ exists (depths : list cell) (pixels : list (list cell))
            (report : ValidationReport),
       validate_and_clean stable_sort
         (mk_df 1 [ mk_row (Num (real_of_Z 1)) [Num (real_of_Z 7)];
                    mk_row NaN [Num (real_of_Z 9)];
                    mk_row NaN [NaN] ])
       = Returned (depths, pixels, report)
       /\ raw_rows report
          = (clean_rows report + int_value (null_rows_dropped report)
             + int_value (duplicate_depths_dropped report) + 1)%nat.
Proof.
  split; [exact stable_sort_contract |].
  destruct (validate_and_clean stable_sort _)
    as [[[depths pixels] report] |] eqn:E; [| discriminate E].
  exists depths, pixels, report. split; [reflexivity |].
  exact (validate_and_clean_row_accounting stable_sort stable_sort_contract
           _ depths pixels report E).
Defined.

Lemma validate_and_clean_pixel_range_witness :
  exists (depths : list cell) (pixels : list (list cell))
         (report : ValidationReport),
    validate_and_clean stable_sort
      (mk_df 2 [ mk_row (Num (real_of_Z 1)) [Num (real_of_Z (-10)); Num (real_of_Z 100)];
                 mk_row (Num (real_of_Z 2)) [Num (real_of_Z 300); Num (real_of_Z 150)] ])
    = Returned (depths, pixels, report)
    /\ has_nan pixels = false
    /\ forall row c, In row pixels -> In c row -> in_byte_range c.
Proof.
  destruct (validate_and_clean stable_sort _)
    as [[[depths pixels] report] |] eqn:E; [| discriminate E].
  assert (Hn : has_nan pixels = false).
  { vm_compute in E. inversion E. reflexivity. }
  exists depths, pixels, report. split; [reflexivity |]. split; [exact Hn |].
  exact (validate_and_clean_pixel_range stable_sort _ depths pixels report E Hn).
Defined.

Lemma validate_and_clean_empty_raises_witness :
  sort_values_contract stable_sort
  /\ df_wf (mk_df 2 [])
  /\ validate_and_clean stable_sort (mk_df 2 [])
     = Raised (ValueError
         "zero-size array to reduction operation minimum which has no identity")
  /\ df_wf scenario_table
  /\ exists depths pixels report,
       validate_and_clean stable_sort scenario_table
       = Returned (depths, pixels, report).
Proof.
  assert (W0 : df_wf (mk_df 2 [])) by constructor.
  assert (W1 : df_wf scenario_table) by (repeat constructor).
  split; [exact stable_sort_contract |]. split; [exact W0 |]. split.
  - apply (proj1 (validate_and_clean_empty_raises stable_sort
                    stable_sort_contract _ W0)).
    right. intros r [].
  - split; [exact W1 |].
    apply (proj2 (validate_and_clean_empty_raises stable_sort
                    stable_sort_contract _ W1)).
    + simpl. lia.
    + exists (mk_row (Num (real_of_Z 2)) [Num (real_of_Z 5); NaN]).
      split; [simpl; tauto | reflexivity].
Defined.

Lemma validate_and_clean_keeps_sorted_first_witness :
  sort_values_contract reversing_sort
  /\ exists (depths : list cell) (pixels : list (list cell))
            (report : ValidationReport) (r : df_row) (row : list cell),
       validate_and_clean reversing_sort scenario_table
       = Returned (depths, pixels, report)
       /\ nth_error depths 0 = Some (Num (real_of_Z 1))
       /\ find (fun x => cell_eqb (row_depth x) (Num (real_of_Z 1)))
               (sorted_rows reversing_sort scenario_table) = Some r
       /\ r = mk_row (Num (real_of_Z 1)) [Num (real_of_Z 30); Num (real_of_Z 40)]
       /\ nth_error pixels 0 = Some row
       /\ length row = length (row_pixels r).
Proof.
  split; [exact reversing_sort_contract |].
  destruct (validate_and_clean reversing_sort scenario_table)
    as [[[depths pixels] report] |] eqn:E; [| discriminate E].
  assert (Hi : nth_error depths 0 = Some (Num (real_of_Z 1))).
  { vm_compute in E. inversion E. reflexivity. }
  destruct (validate_and_clean_keeps_sorted_first reversing_sort
              reversing_sort_contract scenario_table depths pixels report 0
              (real_of_Z 1) E Hi)
    as (r & row & _ & _ & H1 & H2 & H3 & _).
  exists depths, pixels, report, r, row.
  split; [reflexivity |]. split; [exact Hi |]. split; [exact H1 |].
  split; [| split; [exact H2 | exact H3]].
  vm_compute in H1. now inversion H1.
Defined.

(* ================================================================== *)
(** * Further properties of the write and read path *)

Lemma insert_by_head {A : Type} (leb : A -> A -> bool) (x : A) (l : list A) :
  Forall (holds leb x) l -> insert_by leb x l = x :: l.
Proof.
  intros H. destruct l as [| y l]; [reflexivity |]. simpl.
  inversion H as [| ? ? Hy _]; subst. unfold holds in Hy. now rewrite Hy.
Qed.

Lemma sort_by_sorted_id {A : Type} (leb : A -> A -> bool) (l : list A) :
  StronglySorted (holds leb) l -> sort_by leb l = l.
Proof.
  induction 1 as [| x l Hs IH Hx]; [reflexivity |].
  cbn [sort_by fold_right]. fold (sort_by leb l). rewrite IH.
  now apply insert_by_head.
Qed.

Lemma filter_sorted {A : Type} (R : A -> A -> Prop) (f : A -> bool)
  (l : list A) :
  StronglySorted R l -> StronglySorted R (filter f l).
Proof.
  induction 1 as [| x l Hs IH Hx]; simpl; [constructor |].
  destruct (f x); [| exact IH]. constructor; [exact IH |].
  rewrite Forall_forall in *. intros y Hy. apply Hx.
  now apply filter_In in Hy.
Qed.

Lemma numbers_sorted (depths : list cell) :
  StronglySorted (fun x y => cell_ltb x y = true) depths ->
  StronglySorted Qclt (numbers depths).
Proof.
  induction 1 as [| x l Hs IH Hx]; [constructor |].
  destruct x as [| a]; simpl.
  - destruct l as [| y l]; [constructor |].
    inversion Hx as [| ? ? Hy _]; subst. discriminate Hy.
  - constructor; [exact IH |].
    rewrite Forall_forall in *. intros q Hq. apply numbers_in in Hq.
    specialize (Hx (Num q) Hq). simpl in Hx. now apply Qc_ltb_lt.
Qed.

Lemma sorted_NoDup (l : list real) : StronglySorted Qclt l -> NoDup l.
Proof.
  induction 1 as [| x l Hs IH Hx]; constructor; [| exact IH].
  intros Hin. rewrite Forall_forall in Hx. specialize (Hx x Hin).
  now apply Qclt_not_eq in Hx.
Qed.

Lemma depth_rows_sorted (l : list depth_record) :
  StronglySorted Qclt (map fst l) ->
  StronglySorted (holds Sql.depth_order) l.
Proof.
  induction l as [| x l IH]; simpl; intros Hl; constructor.
  - apply IH. now inversion Hl.
  - inversion Hl as [| ? ? _ Hx]; subst. rewrite Forall_forall in *.
    intros y Hy. unfold holds, Sql.depth_order. apply Qc_leb_le.
    apply Qclt_le_weak. apply Hx. now apply in_map.
Qed.

(** A write of strictly increasing depths into an empty table leaves the
    rows given, in the order given. *)
Lemma executemany_increasing (depths : list cell) (pixel_array : ndarray) :
  StronglySorted (fun x y => cell_ltb x y = true) depths ->
  let rows := scan_rows depths pixel_array in
  Sql.not_null (Sql.executemany_scans [] rows) = Sql.not_null rows
  /\ length (Sql.executemany_scans [] rows) = length depths
  /\ StronglySorted (holds Sql.depth_order) (Sql.not_null rows).
Proof.
  intros Hsorted rows.
  assert (Hkeys : map fst (Sql.not_null rows) = numbers depths)
    by (apply not_null_numbers, scan_rows_keys).
  assert (Hnum := numbers_sorted depths Hsorted).
  assert (E : Sql.not_null (Sql.executemany_scans [] rows) = Sql.not_null rows).
  { rewrite not_null_executemany. simpl.
    apply (upsert_all_fresh (Sql.not_null rows) []). simpl.
    rewrite Hkeys. now apply sorted_NoDup. }
  split; [exact E |]. split.
  - rewrite (length_not_null (Sql.executemany_scans [] rows)), E.
    rewrite null_rows_executemany. simpl.
    rewrite <- (length_not_null rows). apply scan_rows_length.
  - apply depth_rows_sorted. now rewrite Hkeys.
Qed.

(** X18.  Ingest then read.  After a valid bulk write of strictly increasing
    depths into a connected repository without rows, every range query
    returns the written (depth, pixel row) pairs whose depth lies in the
    range, in the order given; [get_row_count] is the number of depths. *)
Theorem bulk_insert_scans_sorted_readback
  (self : ImageRepository) (depths : list cell) (pixel_array : ndarray) :
  _conn self = true ->
  image_scans (db self) = [] ->
  length depths = shape0 pixel_array ->
  dtype pixel_array = uint8 ->
  StronglySorted (fun x y => cell_ltb x y = true) depths ->
  let self' := snd (bulk_insert_scans self depths pixel_array) in
  get_row_count self' = Returned (length depths)
  /\ forall a b,
       query_depth_range self' a b
       = Returned (map to_ScanRow
                     (filter (Sql.in_range a b)
                             (Sql.not_null (scan_rows depths pixel_array)))).
Proof.
  intros Hc He Hs Hd Hsorted self'. subst self'.
  rewrite (bulk_insert_scans_ok self depths pixel_array Hc Hs Hd).
  destruct (executemany_increasing depths pixel_array Hsorted)
    as (Hnn & Hlen & Hrows).
  unfold get_row_count, query_depth_range, conn. simpl. rewrite He.
  unfold Sql.select_count, Sql.select_range. rewrite Hnn, Hlen.
  split; [reflexivity |]. intros a b. do 2 f_equal.
  unfold Sql.order_by_depth.
  apply sort_by_sorted_id. now apply filter_sorted.
Qed.

Lemma bulk_insert_scans_sorted_readback_witness :
  _conn repository = true
  /\ image_scans (db repository) = []
  /\ length sample_depths = shape0 sample_pixel_data
  /\ dtype sample_pixel_data = uint8
  /\ StronglySorted (fun x y => cell_ltb x y = true) sample_depths
  /\ get_row_count populated_repository = Returned 5%nat.
Proof.
  assert (Hs : StronglySorted (fun x y => cell_ltb x y = true) sample_depths).
  { repeat (constructor; [| repeat (constructor; try reflexivity)]).
    constructor. }
  split; [reflexivity |]. split; [reflexivity |]. split; [reflexivity |].
  split; [reflexivity |]. split; [exact Hs |].
  exact (proj1 (bulk_insert_scans_sorted_readback repository sample_depths
                  sample_pixel_data eq_refl eq_refl eq_refl eq_refl Hs)).
Defined.

(** ** Quantisation in resize_image *)

(** X19.  For a known method, [resize_image] hands [cv2.resize] the matrix
    converted to [float32], the flag of the table and the size (target
    width, number of rows); if that raises, the error is the outcome; if it
    returns an array, the outcome is that array element by element: a number
    below 0 becomes 0, above 255 becomes 255, and in between is truncated
    towards zero to an integer of [0, 255]. *)
Theorem resize_image_quantizes
  (to_float32 : real -> real)
  (resample : list (list cell) -> Z * nat -> Z -> outcome (list (list cell)))
  (invalid_cast : Z) (py_repr : string -> string)
  (pixels : list (list cell)) (target_width : Z) (method : string) (flag : Z) :
  dict_get INTERPOLATION_METHODS method = Some flag ->
  let src := astype_float32 to_float32 pixels in
  (forall e,
     cv2_resize resample src (target_width, length src) flag = Raised e ->
     resize_image to_float32 resample invalid_cast py_repr pixels target_width
                  method = Raised e)
  /\ (forall dst,
        cv2_resize resample src (target_width, length src) flag = Returned dst ->
        exists resized : list (list Z),
          resize_image to_float32 resample invalid_cast py_repr pixels
                       target_width method
          = Returned resized
          /\ Forall2
               (Forall2 (fun c v =>
                  forall q, c = Num q ->
                    0 <= v <= 255
                    /\ ((q < real_of_Z 0)%Qc -> v = 0)
                    /\ ((real_of_Z 255 < q)%Qc -> v = 255)
                    /\ ((real_of_Z 0 <= q)%Qc -> (q <= real_of_Z 255)%Qc ->
                        v = trunc q)))
               dst resized).
Proof.
  intros Hm src. unfold resize_image. rewrite Hm. fold src. split.
  - intros e ->. reflexivity.
  - intros dst ->. simpl. eexists. split; [reflexivity |].
    induction dst as [| row dst IH]; simpl; constructor; [| exact IH].
    clear IH. induction row as [| c row IH]; simpl; constructor; [| exact IH].
    intros q ->. rewrite clip_then_cast.
    destruct (Qc_ltb q (real_of_Z 0)) eqn:E0.
    + apply Qc_ltb_lt in E0. repeat split; try lia.
      * intros H. exfalso.
        apply (Qclt_not_le _ _ (Qclt_trans _ _ _ E0 (eq_refl : (real_of_Z 0 < real_of_Z 255)%Qc))).
        now apply Qclt_le_weak.
      * intros H. now apply Qclt_not_le in E0.
    + destruct (Qc_ltb (real_of_Z 255) q) eqn:E1.
      * apply Qc_ltb_lt in E1. unfold Qc_ltb in E0.
        rewrite negb_false_iff, Qc_leb_le in E0. repeat split; try lia.
        -- intros H. now apply Qclt_not_le in H.
        -- intros _ H. now apply Qclt_not_le in E1.
      * assert (R := astype_uint8_range invalid_cast (clip_cell (Num q))).
        rewrite clip_then_cast, E0, E1 in R.
        unfold Qc_ltb in E0, E1. rewrite negb_false_iff, Qc_leb_le in E0, E1.
        repeat split; try lia.
        -- intros H. now apply Qclt_not_le in H.
        -- intros H. now apply Qclt_not_le in H.
Qed.

Lemma resize_image_quantizes_witness :
  dict_get INTERPOLATION_METHODS "NEAREST" = Some INTER_NEAREST
  /\ exists resized : list (list Z),
       resize_image exact_float32 nearest_resize 0 repr_key
         [[Num (real_of_Z 300); Num (real_of_Z (-4)); NaN; Num (Q2Qc (7 # 2))]]
         4 "NEAREST"
       = Returned resized.
Proof.
  split; [reflexivity |].
  destruct (proj2 (resize_image_quantizes exact_float32 nearest_resize 0
              repr_key
              [[Num (real_of_Z 300); Num (real_of_Z (-4)); NaN; Num (Q2Qc (7 # 2))]]
              4 "NEAREST" INTER_NEAREST eq_refl) _ eq_refl)
    as (resized & H & _).
  exists resized. exact H.
Defined.

(* ================================================================== *)
(** * Further properties of the route handlers *)

Lemma select_range_empty_iff (t : list scan_record) (a b : real) :
  Sql.select_range t a b = []
  <-> forall d, In d (map fst (Sql.not_null t)) ->
                ~ ((a <= d)%Qc /\ (d <= b)%Qc).
Proof.
  assert (Hperm := select_range_perm t a b). split.
  - intros E d Hd Hr. rewrite E in Hperm. apply Permutation_nil in Hperm.
    apply in_map_iff in Hd. destruct Hd as (r & <- & Hin).
    assert (H : In r (filter (Sql.in_range a b) (Sql.not_null t)))
      by (apply filter_In; split; [exact Hin | now apply in_range_spec]).
    rewrite Hperm in H. contradiction.
  - intros H. rewrite filter_none in Hperm.
    + now apply Permutation_sym, Permutation_nil in Hperm.
    + intros r Hr. destruct (Sql.in_range a b r) eqn:E; [| reflexivity].
      apply in_range_spec in E. exfalso. apply (H (fst r)); [| exact E].
      now apply in_map.
Qed.

Lemma get_depth_bounds_some (self : ImageRepository) :
  _conn self = true ->
  stored_depths self <> [] ->
  exists lo hi : real,
    get_depth_bounds self = Returned (lo, hi)
    /\ forall d, In d (stored_depths self) -> (lo <= d)%Qc /\ (d <= hi)%Qc.
Proof.
  intros Hc Hne. unfold get_depth_bounds, conn, stored_depths in *.
  rewrite Hc. simpl. unfold Sql.select_min_max.
  destruct (map fst (Sql.not_null (image_scans (db self)))) as [| x l];
    [congruence |].
  destruct (fold_rmin_spec l x) as [_ Hle].
  destruct (fold_rmax_spec l x) as [_ Hge].
  eexists _, _. split; [reflexivity |]. auto.
Qed.

(** X20.  What [get_image_frame] answers on a connected repository, in the
    order of its checks: status 400 when [depth_min >= depth_max]; status
    400 when the colormap is not registered; status 503 when the store has
    no row whose depth is a number; status 404 when no stored depth lies in
    the range; otherwise it renders the rows of the range, of which there is
    at least one. *)
Theorem get_image_frame_outcomes
  (registry_has : string -> bool) (registry_names : string)
  (str_float : real -> string) (repr_colormap : string -> string)
  (R : Type) (render : list ScanRow -> string -> string -> outcome R)
  (depth_min depth_max : real) (colormap format : string)
  (repo : ImageRepository) :
  _conn repo = true ->
  let answer :=
    get_image_frame registry_has registry_names str_float repr_colormap R
      render depth_min depth_max colormap format repo in
  ((depth_max <= depth_min)%Qc ->
   exists detail, answer = Raised (HTTPException 400 detail))
  /\ ((depth_min < depth_max)%Qc -> registry_has colormap = false ->
      exists detail, answer = Raised (HTTPException 400 detail))
  /\ ((depth_min < depth_max)%Qc -> registry_has colormap = true ->
      stored_depths repo = [] ->
      answer = Raised (HTTPException 503
                         "Database is empty. Run ingestion first."))
  /\ ((depth_min < depth_max)%Qc -> registry_has colormap = true ->
      stored_depths repo <> [] ->
      (forall d, In d (stored_depths repo) ->
                 ~ ((depth_min <= d)%Qc /\ (d <= depth_max)%Qc)) ->
      exists detail, answer = Raised (HTTPException 404 detail))
  /\ ((depth_min < depth_max)%Qc -> registry_has colormap = true ->
      (exists d, In d (stored_depths repo)
                 /\ (depth_min <= d)%Qc /\ (d <= depth_max)%Qc) ->
      exists rows,
        query_depth_range repo depth_min depth_max = Returned rows
        /\ rows <> []
        /\ answer = render rows colormap format).
Proof.
  intros Hc answer. subst answer. unfold get_image_frame.
  split; [| split; [| split; [| split]]].
  - intros H. apply Qc_leb_le in H. rewrite H. eexists. reflexivity.
  - intros H Hr. apply Qc_leb_false in H. rewrite H, Hr. eexists. reflexivity.
  - intros H Hr He. apply Qc_leb_false in H. rewrite H, Hr. simpl.
    unfold get_depth_bounds, conn, Sql.select_min_max, stored_depths in *.
    rewrite Hc. simpl. rewrite He. reflexivity.
  - intros H Hr Hne Hout. apply Qc_leb_false in H. rewrite H, Hr. simpl.
    destruct (get_depth_bounds_some repo Hc Hne) as (lo & hi & -> & _).
    destruct (Qc_ltb hi depth_min || Qc_ltb depth_max lo);
      [eexists; reflexivity |].
    unfold query_depth_range, conn. rewrite Hc. simpl.
    rewrite (proj2 (select_range_empty_iff _ _ _) Hout). simpl.
    eexists. reflexivity.
  - intros H Hr (d & Hd & Ha & Hb). apply Qc_leb_false in H.
    rewrite H, Hr. simpl.
    assert (Hne : stored_depths repo <> []) by (intros C; now rewrite C in Hd).
    destruct (get_depth_bounds_some repo Hc Hne) as (lo & hi & -> & Hb0).
    destruct (Hb0 d Hd) as [Hlo Hhi].
    assert (E1 : Qc_ltb hi depth_min = false).
    { unfold Qc_ltb. apply negb_false_iff, Qc_leb_le.
      now apply Qcle_trans with d. }
    assert (E2 : Qc_ltb depth_max lo = false).
    { unfold Qc_ltb. apply negb_false_iff, Qc_leb_le.
      now apply Qcle_trans with d. }
    rewrite E1, E2. simpl.
    unfold query_depth_range, conn. rewrite Hc. simpl.
    destruct (Sql.select_range (image_scans (db repo)) depth_min depth_max)
      as [| r rs] eqn:E.
    + exfalso. apply (proj1 (select_range_empty_iff _ _ _) E d Hd). tauto.
    + eexists. split; [reflexivity |]. split; [discriminate | reflexivity].
Qed.

Lemma get_image_frame_outcomes_witness :
  _conn populated_repository = true
  /\ (real_of_Z 100 < real_of_Z 101)%Qc
  /\ (exists d, In d (stored_depths populated_repository)
                /\ (real_of_Z 100 <= d)%Qc /\ (d <= real_of_Z 101)%Qc)
  /\ exists rows,
       query_depth_range populated_repository (real_of_Z 100) (real_of_Z 101)
       = Returned rows
       /\ get_image_frame (fun _ => true) "[]" (fun _ => "x") (fun s => s)
            nat (fun rows _ _ => Returned (length rows))
            (real_of_Z 100) (real_of_Z 101) "gray" "png" populated_repository
          = Returned (length rows).
Proof.
  assert (Hlt : (real_of_Z 100 < real_of_Z 101)%Qc) by reflexivity.
  assert (Hd : exists d, In d (stored_depths populated_repository)
                /\ (real_of_Z 100 <= d)%Qc /\ (d <= real_of_Z 101)%Qc).
  { exists (real_of_Z 100). split; [now left |]. split; now vm_compute. }
  split; [reflexivity |]. split; [exact Hlt |]. split; [exact Hd |].
  destruct (get_image_frame_outcomes (fun _ => true) "[]" (fun _ => "x")
              (fun s => s) nat (fun rows _ _ => Returned (length rows))
              (real_of_Z 100) (real_of_Z 101) "gray" "png"
              populated_repository eq_refl)
    as (_ & _ & _ & _ & H).
  destruct (H Hlt eq_refl Hd) as (rows & H1 & _ & H3).
  exists rows. split; [exact H1 | exact H3].
Defined.

Lemma same_length_width (rows : list bytes) (w : nat) :
  rows <> [] -> Forall (fun r => length r = w) rows ->
  same_length rows = true /\ length (hd [] rows) = w.
Proof.
  intros Hne H. destruct rows as [| r0 rows]; [congruence |].
  assert (H0 : length r0 = w) by now inversion H.
  split; [| exact H0]. unfold same_length. apply forallb_forall.
  intros r Hr. rewrite Forall_forall in H. simpl.
  rewrite (H r Hr), H0. apply Nat.eqb_refl.
Qed.

Lemma concat_length_uniform {A : Type} (l : list (list A)) (w : nat) :
  Forall (fun r => length r = w) l -> length (concat l) = (length l * w)%nat.
Proof.
  induction 1 as [| x l Hx Hl IH]; [reflexivity |].
  simpl. rewrite length_app, IH, Hx. reflexivity.
Qed.

(** X21.  [get_raw_frame] on a connected repository: status 400 when
    [depth_min >= depth_max]; otherwise status 404 when no stored depth lies
    in the range; otherwise, when the stored pixel rows all have [w] bytes,
    a response whose content is the pixel bytes of the rows of the range, in
    ascending depth order, [w] bytes per row, with the row count and [w] in
    its headers. *)
Theorem get_raw_frame_outcomes
  (str_float : real -> string)
  (ragged_frame : list ScanRow -> outcome Response)
  (depth_min depth_max : real) (repo : ImageRepository) (w : nat) :
  _conn repo = true ->
  let answer := get_raw_frame str_float ragged_frame depth_min depth_max repo in
  ((depth_max <= depth_min)%Qc ->
   exists detail, answer = Raised (HTTPException 400 detail))
  /\ ((depth_min < depth_max)%Qc ->
      (forall d, In d (stored_depths repo) ->
                 ~ ((depth_min <= d)%Qc /\ (d <= depth_max)%Qc)) ->
      exists detail, answer = Raised (HTTPException 404 detail))
  /\ ((depth_min < depth_max)%Qc ->
      (exists d, In d (stored_depths repo)
                 /\ (depth_min <= d)%Qc /\ (d <= depth_max)%Qc) ->
      Forall (fun r => length (snd r) = w) (image_scans (db repo)) ->
      exists rows response,
        query_depth_range repo depth_min depth_max = Returned rows
        /\ answer = Returned response
        /\ content response = concat (map pixel_data rows)
        /\ length (content response) = (length rows * w)%nat
        /\ media_type response = "application/octet-stream"
        /\ In ("X-Frame-Rows", str_of_nat (length rows)) (headers response)
        /\ In ("X-Frame-Width", str_of_nat w) (headers response)).
Proof.
  intros Hc answer. subst answer. unfold get_raw_frame.
  split; [| split].
  - intros H. apply Qc_leb_le in H. rewrite H. eexists. reflexivity.
  - intros H Hout. apply Qc_leb_false in H. rewrite H.
    unfold query_depth_range, conn. rewrite Hc. simpl.
    rewrite (proj2 (select_range_empty_iff _ _ _) Hout). simpl.
    eexists. reflexivity.
  - intros H (d & Hd & Hab) Hw. apply Qc_leb_false in H. rewrite H.
    unfold query_depth_range, conn. rewrite Hc. simpl.
    set (sel := Sql.select_range (image_scans (db repo)) depth_min depth_max).
    assert (Hsel : Forall (fun r => length r = w)
                          (map pixel_data (map to_ScanRow sel))).
    { rewrite Forall_forall in *. intros r Hr. rewrite map_map in Hr.
      apply in_map_iff in Hr. destruct Hr as (x & <- & Hx). simpl.
      unfold sel in Hx.
      apply (Permutation_in _ (select_range_perm _ _ _)) in Hx.
      apply filter_In in Hx. destruct Hx as [Hx _]. destruct x as [d0 px].
      apply not_null_in in Hx. exact (Hw (Some d0, px) Hx). }
    destruct sel as [| r rs] eqn:E.
    + exfalso. apply (proj1 (select_range_empty_iff _ _ _) E d Hd). exact Hab.
    + destruct (same_length_width _ w (ltac:(discriminate) : map pixel_data
                  (map to_ScanRow (r :: rs)) <> []) Hsel) as [Hs Hh].
      cbn [map] in *. rewrite Hs. cbn [bind].
      eexists _, _. split; [reflexivity |]. split; [reflexivity |].
      cbn [content media_type headers frame_of_rows buffer shape0 shape1].
      split; [reflexivity |]. split.
      * rewrite (concat_length_uniform _ w Hsel). simpl.
        now rewrite !length_map.
      * split; [reflexivity |]. split.
        -- simpl. right. right. left. now rewrite !length_map.
        -- simpl. right. right. right. left. simpl in Hh. now rewrite Hh.
Qed.

Lemma get_raw_frame_outcomes_witness :
  _conn populated_repository = true
  /\ (real_of_Z 100 < real_of_Z 101)%Qc
  /\ exists response,
       get_raw_frame (fun _ => "x") (fun _ => Raised (ValueError "ragged"))
         (real_of_Z 100) (real_of_Z 101) populated_repository
       = Returned response
       /\ content response = [0; 1; 2; 3; 4; 5].
Proof.
  assert (Hlt : (real_of_Z 100 < real_of_Z 101)%Qc) by reflexivity.
  assert (Hd : exists d, In d (stored_depths populated_repository)
                /\ (real_of_Z 100 <= d)%Qc /\ (d <= real_of_Z 101)%Qc).
  { exists (real_of_Z 100). split; [now left |]. split; now vm_compute. }
  assert (Hw : Forall (fun r : scan_record => length (snd r) = 2%nat)
                      (image_scans (db populated_repository)))
    by (repeat constructor).
  split; [reflexivity |]. split; [exact Hlt |].
  destruct (get_raw_frame_outcomes (fun _ => "x")
              (fun _ => Raised (ValueError "ragged"))
              (real_of_Z 100) (real_of_Z 101) populated_repository 2 eq_refl)
    as (_ & _ & H).
  destruct (H Hlt Hd Hw) as (rows & response & H1 & H2 & H3 & _).
  exists response. split; [exact H2 |]. rewrite H3.
  vm_compute in H1. inversion H1. reflexivity.
Defined.

(* ================================================================== *)
(** * Properties of store_to_database and run_ingestion *)

Lemma bulk_insert_scans_raise_unchanged (self : ImageRepository)
  (depths : list cell) (pixel_array : ndarray) (e : exn) :
  fst (bulk_insert_scans self depths pixel_array) = Raised e ->
  snd (bulk_insert_scans self depths pixel_array) = self.
Proof.
  unfold bulk_insert_scans, conn.
  destruct (negb (length depths =? shape0 pixel_array)%nat); [reflexivity |].
  destruct (negb (np_dtype_eqb (dtype pixel_array) uint8)); [reflexivity |].
  destruct (_conn self); [discriminate | reflexivity].
Qed.

Lemma set_all_metadata_connected (repo : ImageRepository)
  (items : list (string * string)) :
  _conn repo = true ->
  set_all_metadata repo items
  = (Returned tt,
     mk_repo (mk_database (image_scans (db repo))
                (fold_left Sql.insert_or_replace_meta items (metadata (db repo))))
             true).
Proof.
  revert repo. induction items as [| [k v] items IH]; intros repo Hc; simpl.
  - destruct repo as [[scans meta] c]. simpl in *. now subst.
  - unfold set_metadata, conn. rewrite Hc. now rewrite IH.
Qed.

Lemma fold_meta_other (items t : list (string * string)) (k : string) :
  ~ In k (map fst items) ->
  Sql.select_meta (fold_left Sql.insert_or_replace_meta items t) k
  = Sql.select_meta t k.
Proof.
  revert t. induction items as [| [k0 v0] items IH]; intros t H; simpl in *;
    [reflexivity |].
  rewrite IH by tauto. apply select_meta_insert_other. intuition congruence.
Qed.

Lemma fold_meta_lookup (items t : list (string * string)) (k v : string) :
  NoDup (map fst items) -> In (k, v) items ->
  Sql.select_meta (fold_left Sql.insert_or_replace_meta items t) k = Some v.
Proof.
  revert t. induction items as [| [k0 v0] items IH]; intros t Hnd Hin;
    simpl in *; [contradiction |].
  inversion Hnd as [| ? ? Hk Hrest]; subst.
  destruct Hin as [E | Hin].
  - inversion E; subst. rewrite fold_meta_other by exact Hk.
    apply select_meta_insert_same.
  - now apply IH.
Qed.

(** X22.  [store_to_database] writes the rows first and the metadata last.
    If the bulk write raises, that error is the outcome and the repository
    is unchanged.  If [json.dumps] raises after a successful bulk write,
    that error is the outcome, the rows stay written and no metadata entry
    has been changed. *)
Theorem store_to_database_errors
  (str_float format_0f : cell -> string)
  (repo : ImageRepository) (depths : list cell) (pixels : ndarray)
  (report : ValidationReport) (settings : Config.Settings) (e : exn) :
  (fst (bulk_insert_scans repo depths pixels) = Raised e ->
   store_to_database str_float format_0f repo depths pixels report settings
   = (Raised e, repo))
  /\ ((exists n, fst (bulk_insert_scans repo depths pixels) = Returned n) ->
      json_dumps (validation_summary report) = Raised e ->
      exists repo1,
        store_to_database str_float format_0f repo depths pixels report
                          settings
        = (Raised e, repo1)
        /\ repo1 = snd (bulk_insert_scans repo depths pixels)
        /\ metadata (db repo1) = metadata (db repo)).
Proof.
  unfold store_to_database. split.
  - intros H. assert (U := bulk_insert_scans_raise_unchanged _ _ _ _ H).
    destruct (bulk_insert_scans repo depths pixels) as [r repo1].
    simpl in *. now subst.
  - intros (n & H) Hj.
    assert (M : metadata (db (snd (bulk_insert_scans repo depths pixels)))
                = metadata (db repo)).
    { revert H. unfold bulk_insert_scans, conn.
      destruct (negb (length depths =? shape0 pixels)%nat); [discriminate |].
      destruct (negb (np_dtype_eqb (dtype pixels) uint8)); [discriminate |].
      destruct (_conn repo); [reflexivity | discriminate]. }
    destruct (bulk_insert_scans repo depths pixels) as [r repo1].
    simpl in *. subst r. rewrite Hj. exists repo1. auto.
Qed.

Lemma store_to_database_errors_witness :
  (exists n, fst (bulk_insert_scans repository sample_depths sample_pixel_data)
             = Returned n)
  /\ json_dumps
       (validation_summary
          (mk_report 5 5 (np_int64 0) (np_int64 0) NaN NaN NaN true NaN NaN 2))
     = Raised (TypeError "Object of type int64 is not JSON serializable")
  /\ exists repo1,
       store_to_database (fun _ => "x") (fun _ => "x") repository
         sample_depths sample_pixel_data
         (mk_report 5 5 (np_int64 0) (np_int64 0) NaN NaN NaN true NaN NaN 2)
         Config.settings
       = (Raised (TypeError "Object of type int64 is not JSON serializable"),
          repo1)
       /\ get_row_count repo1 = Returned 5%nat
       /\ metadata (db repo1) = [].
Proof.
  assert (Hb : exists n,
             fst (bulk_insert_scans repository sample_depths sample_pixel_data)
             = Returned n) by (eexists; reflexivity).
  split; [exact Hb |]. split; [reflexivity |].
  destruct (proj2 (store_to_database_errors (fun _ => "x") (fun _ => "x")
                     repository sample_depths sample_pixel_data
                     (mk_report 5 5 (np_int64 0) (np_int64 0) NaN NaN NaN true
                                NaN NaN 2)
                     Config.settings _) Hb eq_refl)
    as (repo1 & H1 & H2 & H3).
  exists repo1. split; [exact H1 |]. split; [| exact H3].
  rewrite H2. reflexivity.
Defined.

Lemma get_metadata_connected (self : ImageRepository) (key : string) :
  _conn self = true ->
  get_metadata self key = Returned (Sql.select_meta (metadata (db self)) key).
Proof. intros Hc. unfold get_metadata, conn. now rewrite Hc. Qed.

(** X23.  When the bulk write and [json.dumps] succeed on a connected
    repository, [store_to_database] succeeds; afterwards [get_metadata]
    returns, for each of its ten keys, the value computed from the report,
    the array and the settings (among them [row_count] = the number of depths
    written and [resized_width] = the array width), every other key keeps
    its value, and the rows are those the bulk write left. *)
Theorem store_to_database_metadata
  (str_float format_0f : cell -> string)
  (repo : ImageRepository) (depths : list cell) (pixels : ndarray)
  (report : ValidationReport) (settings : Config.Settings) (summary : string) :
  _conn repo = true ->
  length depths = shape0 pixels ->
  dtype pixels = uint8 ->
  json_dumps (validation_summary report) = Returned summary ->
  let items :=
    [ ("original_width", str_of_nat (original_width report));
      ("resized_width", str_of_nat (shape1 pixels));
      ("depth_min", str_float (depth_min report));
      ("depth_max", str_float (depth_max report));
      ("depth_step", str_float (depth_step report));
      ("row_count", str_of_nat (length depths));
      ("interpolation_method", Config.interpolation_method settings);
      ("source_file", Config.csv_filename settings);
      ("pixel_range_original",
       ("[" ++ format_0f (pixel_min report) ++ ", "
            ++ format_0f (pixel_max report) ++ "]")%string);
      ("validation_summary", summary) ] in
  exists repo2,
    store_to_database str_float format_0f repo depths pixels report settings
    = (Returned tt, repo2)
    /\ _conn repo2 = true
    /\ image_scans (db repo2)
       = image_scans (db (snd (bulk_insert_scans repo depths pixels)))
    /\ (forall key value, In (key, value) items ->
                          get_metadata repo2 key = Returned (Some value))
    /\ (forall key, ~ In key (map fst items) ->
                    get_metadata repo2 key = get_metadata repo key).
Proof.
  intros Hc Hs Hd Hj items. unfold store_to_database.
  rewrite (bulk_insert_scans_ok repo depths pixels Hc Hs Hd), Hj.
  rewrite set_all_metadata_connected by reflexivity.
  eexists. split; [reflexivity |]. split; [reflexivity |].
  split; [reflexivity |].
  split.
  - intros key value Hin. rewrite get_metadata_connected by reflexivity.
    f_equal. cbn [db metadata]. apply fold_meta_lookup; [| exact Hin].
    simpl. repeat (constructor; [simpl; intuition discriminate |]).
    constructor.
  - intros key Hn. rewrite !get_metadata_connected by (reflexivity || exact Hc).
    f_equal. cbn [db metadata]. now apply fold_meta_other.
Qed.

Lemma store_to_database_metadata_witness :
  _conn repository = true
  /\ length sample_depths = shape0 sample_pixel_data
  /\ dtype sample_pixel_data = uint8
  /\ exists summary repo2,
       json_dumps
         (validation_summary
            (mk_report 5 5 (py_int 0) (py_int 0) NaN NaN NaN true NaN NaN 2))
       = Returned summary
       /\ store_to_database (fun _ => "x") (fun _ => "x") repository
            sample_depths sample_pixel_data
            (mk_report 5 5 (py_int 0) (py_int 0) NaN NaN NaN true NaN NaN 2)
            Config.settings
          = (Returned tt, repo2)
       /\ get_metadata repo2 "row_count" = Returned (Some "5")
       /\ get_metadata repo2 "source_file" = Returned (Some "Challenge2.csv")
       /\ get_metadata repo2 "validation_summary" = Returned (Some summary).
Proof.
  split; [reflexivity |]. split; [reflexivity |]. split; [reflexivity |].
  destruct (json_dumps
              (validation_summary
                 (mk_report 5 5 (py_int 0) (py_int 0) NaN NaN NaN true NaN NaN 2)))
    as [summary | e] eqn:E; [| vm_compute in E; discriminate E].
  destruct (store_to_database_metadata (fun _ => "x") (fun _ => "x")
              repository sample_depths sample_pixel_data
              (mk_report 5 5 (py_int 0) (py_int 0) NaN NaN NaN true NaN NaN 2)
              Config.settings summary eq_refl eq_refl eq_refl E)
    as (repo2 & H1 & _ & _ & H4 & _).
  exists summary, repo2. split; [reflexivity |]. split; [exact H1 |].
  repeat split; apply H4; simpl; tauto.
Defined.

(** [run_ingestion] does not touch the database file unless loading,
    validation and resizing have all succeeded: when any of the three
    raises, that error is the outcome and the file is as it was. *)
Theorem run_ingestion_failure_leaves_database
  (str_float format_0f : cell -> string)
  (load_csv : string -> string -> outcome DataFrame)
  (sort_values : list df_row -> list df_row)
  (to_float32 : real -> real)
  (resample : list (list cell) -> Z * nat -> Z -> outcome (list (list cell)))
  (invalid_cast : Z) (py_repr : string -> string)
  (settings : Config.Settings) (db_file : database) (e : exn) :
  let run :=
    run_ingestion str_float format_0f load_csv sort_values to_float32 resample
                  invalid_cast py_repr settings db_file in
  (load_csv (Config.data_dir settings) (Config.csv_filename settings) = Raised e ->
   run = (Raised e, db_file))
  /\ (forall df,
        load_csv (Config.data_dir settings) (Config.csv_filename settings)
        = Returned df ->
        validate_and_clean sort_values df = Raised e ->
        run = (Raised e, db_file))
  /\ (forall df depths pixels report,
        load_csv (Config.data_dir settings) (Config.csv_filename settings)
        = Returned df ->
        validate_and_clean sort_values df = Returned (depths, pixels, report) ->
        resize_image to_float32 resample invalid_cast py_repr pixels
          (Config.target_width settings) (Config.interpolation_method settings)
        = Raised e ->
        run = (Raised e, db_file)).
Proof.
  intros run. subst run. unfold run_ingestion. split; [| split].
  - intros ->. reflexivity.
  - intros df -> ->. reflexivity.
  - intros df depths pixels report -> -> ->. reflexivity.
Qed.

Lemma run_ingestion_failure_leaves_database_witness :
  validate_and_clean stable_sort (mk_df 2 [])
  = Raised (ValueError
      "zero-size array to reduction operation minimum which has no identity")
  /\ run_ingestion (fun _ => "x") (fun _ => "x")
       (fun _ _ => Returned (mk_df 2 [])) stable_sort exact_float32
       nearest_resize 0 repr_key Config.settings (db populated_repository)
     = (Raised (ValueError
          "zero-size array to reduction operation minimum which has no identity"),
        db populated_repository).
Proof.
  split; [reflexivity |].
  apply (proj1 (proj2 (run_ingestion_failure_leaves_database
           (fun _ => "x") (fun _ => "x")
           (fun _ _ => Returned (mk_df 2 [])) stable_sort exact_float32
           nearest_resize 0 repr_key
           Config.settings (db populated_repository) _)) (mk_df 2 []));
    reflexivity.
Defined.

(** *** From a matrix of bytes to the rows the store receives *)

Lemma skipn_concat {A : Type} (rows : list (list A)) (w i : nat) :
  Forall (fun r => length r = w) rows ->
  skipn (i * w) (concat rows) = concat (skipn i rows).
Proof.
  intros H. revert i. induction H as [| x rows Hx Hrows IH]; intros i.
  - simpl. now rewrite !skipn_nil.
  - destruct i as [| i]; [reflexivity |]. simpl.
    rewrite skipn_app, Hx.
    rewrite (skipn_all2 x) by lia.
    replace (w + i * w - w)%nat with (i * w)%nat by lia. apply IH.
Qed.

Lemma firstn_skipn_concat {A : Type} (rows : list (list A)) (w i : nat) :
  Forall (fun r => length r = w) rows ->
  (i < length rows)%nat ->
  firstn w (skipn (i * w) (concat rows)) = nth i rows [].
Proof.
  intros H Hi. rewrite (skipn_concat rows w i H).
  assert (Hn : length (nth i rows []) = w).
  { rewrite Forall_forall in H. apply H. now apply nth_In. }
  assert (E : skipn i rows = nth i rows [] :: skipn (S i) rows).
  { clear -Hi. revert i Hi. induction rows as [| x rows IH]; intros i Hi;
      [simpl in Hi; lia |].
    destruct i as [| i]; [reflexivity |]. simpl in *. apply IH. lia. }
  rewrite E. simpl. rewrite firstn_app, Hn, Nat.sub_diag, firstn_0, app_nil_r.
  apply firstn_all2. lia.
Qed.

Lemma row_tobytes_frame (rows : list bytes) (w i : nat) :
  Forall (fun r => length r = w) rows ->
  (i < length rows)%nat ->
  row_tobytes (frame_of_rows rows) i = nth i rows [].
Proof.
  intros H Hi. unfold row_tobytes, frame_of_rows. simpl.
  assert (Hw : length (hd [] rows) = w).
  { destruct rows; [simpl in Hi; lia | now inversion H]. }
  rewrite Hw, Nat.mul_1_r. now apply firstn_skipn_concat.
Qed.

Lemma combine_as_map {A B : Type} (l : list A) (l' : list B) (x : A) (y : B) :
  length l = length l' ->
  map (fun i => (nth i l x, nth i l' y)) (seq 0 (length l)) = combine l l'.
Proof.
  revert l'. induction l as [| a l IH]; intros [| b l'] H; simpl in *;
    try discriminate; [reflexivity |].
  f_equal. rewrite <- seq_shift, map_map. apply IH. lia.
Qed.

Lemma scan_rows_frame (depths : list cell) (rows : list bytes) (w : nat) :
  Forall (fun r => length r = w) rows ->
  length depths = length rows ->
  scan_rows depths (frame_of_rows rows) = combine (map bind_float depths) rows.
Proof.
  intros H Hl. unfold scan_rows.
  assert (Hl' : length (map bind_float depths) = length rows)
    by now rewrite length_map.
  rewrite <- (combine_as_map (map bind_float depths) rows (bind_float NaN) []
                Hl').
  rewrite length_map.
  apply map_ext_in. intros i Hi. apply in_seq in Hi.
  rewrite map_nth. f_equal.
  apply (row_tobytes_frame rows w i H). lia.
Qed.

Lemma not_null_combine (depths : list cell) (rows : list bytes) :
  (forall c, In c depths -> isnull c = false) ->
  Sql.not_null (combine (map bind_float depths) rows)
  = combine (numbers depths) rows.
Proof.
  revert rows. induction depths as [| c depths IH]; intros rows Hn;
    [reflexivity |].
  destruct rows as [| r rows];
    [destruct c; simpl; now destruct (numbers depths) |].
  destruct c as [| q]; [now specialize (Hn NaN (or_introl eq_refl)) |].
  simpl. unfold Sql.not_null in *. simpl. f_equal.
  apply IH. intros c Hc. apply Hn. now right.
Qed.

Lemma scan_rows_have_depth (depths : list cell) (pixel_array : ndarray) :
  (forall c, In c depths -> isnull c = false) ->
  forall x, In x (scan_rows depths pixel_array) -> fst x <> None.
Proof.
  intros Hn x Hx.
  assert (Hk : In (fst x) (map fst (scan_rows depths pixel_array)))
    by now apply in_map.
  rewrite scan_rows_keys in Hk. apply in_map_iff in Hk.
  destruct Hk as (c & <- & Hc). specialize (Hn c Hc).
  destruct c; [discriminate | discriminate].
Qed.

(** The depths [validate_and_clean] returns are numbers, in strictly
    increasing order. *)
Lemma validate_and_clean_depths (sort_values : list df_row -> list df_row)
  (df : DataFrame) (depths : list cell) (pixels : list (list cell))
  (report : ValidationReport) :
  sort_values_contract sort_values ->
  validate_and_clean sort_values df = Returned (depths, pixels, report) ->
  (forall c, In c depths -> isnull c = false)
  /\ StronglySorted (fun x y => cell_ltb x y = true) depths.
Proof.
  intros Hsort H.
  apply (validate_and_clean_returned sort_values) in H.
  destruct H as (px_min & px_max & dmin & dmax & _ & _ & _ & _ & Hd & _ & _).
  subst depths. split; [| now apply cleaned_rows_sorted].
  intros c Hc. apply (cleaned_rows_depths sort_values Hsort) in Hc.
  destruct c; [now destruct Hc | reflexivity].
Qed.

(** The report [validate_and_clean] returns cannot be serialised: its two
    counts of dropped rows are [numpy.int64]. *)
Lemma validation_summary_not_serializable
  (sort_values : list df_row -> list df_row) (df : DataFrame)
  (depths : list cell) (pixels : list (list cell)) (report : ValidationReport) :
  validate_and_clean sort_values df = Returned (depths, pixels, report) ->
  json_dumps (validation_summary report)
  = Raised (TypeError "Object of type int64 is not JSON serializable").
Proof.
  intros H. apply (validate_and_clean_returned sort_values) in H.
  destruct H as (px_min & px_max & dmin & dmax & _ & _ & _ & _ & _ & _ & Hr).
  subst report. reflexivity.
Qed.

Lemma resize_image_returns
  (to_float32 : real -> real)
  (resample : list (list cell) -> Z * nat -> Z -> outcome (list (list cell)))
  (invalid_cast : Z) (py_repr : string -> string)
  (pixels : list (list cell)) (w0 : nat) (target_width : Z) (method : string) :
  cv2_resize_contract resample ->
  Forall (fun row => length row = w0) pixels ->
  pixels <> [] -> (1 <= w0)%nat ->
  1 <= target_width ->
  In method (dict_keys INTERPOLATION_METHODS) ->
  exists resized : list (list Z),
    resize_image to_float32 resample invalid_cast py_repr pixels target_width
                 method
    = Returned resized
    /\ length resized = length pixels
    /\ Forall (fun row => length row = Z.to_nat target_width) resized.
Proof.
  intros Hcv Hrect Hne Hw0 Hw Hm. unfold resize_image, cv2_resize.
  destruct (dict_get_some _ _ Hm) as (flag & -> & Hflag).
  destruct (astype_float32_shape to_float32 pixels w0 Hrect) as [Hlen Hrect'].
  assert (He := is_empty_spec (astype_float32 to_float32 pixels) w0 Hrect').
  assert (Hne' : astype_float32 to_float32 pixels <> []).
  { intros C. rewrite C in Hlen. destruct pixels; [congruence | discriminate]. }
  destruct (is_empty (astype_float32 to_float32 pixels)) eqn:E.
  { destruct (proj1 He eq_refl) as [C | C]; [contradiction | lia]. }
  assert (Hh : (1 <= length (astype_float32 to_float32 pixels))%nat).
  { rewrite Hlen. destruct pixels; [congruence | simpl; lia]. }
  destruct (Hcv _ w0 target_width _ flag Hne' Hw0 Hrect' Hw Hh Hflag)
    as (dst & -> & Hdl & Hrows).
  simpl. eexists. split; [reflexivity |]. split.
  - rewrite length_map. congruence.
  - rewrite Forall_forall in *. intros row Hrow.
    apply in_map_iff in Hrow. destruct Hrow as (r & <- & Hr).
    rewrite length_map. now apply Hrows.
Qed.

(** X24.  End to end.  [run_ingestion] stores the rows and then fails: on a
    rectangular table that [validate_and_clean] accepts, with a known
    method, a target width of at least 1 and a [cv2.resize] that returns the
    size asked for, it raises the [TypeError] of [json.dumps] on the
    [numpy.int64] counts of the report.  The database file it leaves holds
    the rows of the bulk write and the metadata it had before.  When the
    file had no rows, a repository connected to it afterwards counts
    [clean_rows] rows and answers every range query with the returned depths
    of the range, in ascending order, each with its resized pixel row of
    [target_width] bytes. *)
Theorem run_ingestion_raises_after_writing
  (str_float format_0f : cell -> string)
  (load_csv : string -> string -> outcome DataFrame)
  (sort_values : list df_row -> list df_row)
  (to_float32 : real -> real)
  (resample : list (list cell) -> Z * nat -> Z -> outcome (list (list cell)))
  (invalid_cast : Z) (py_repr : string -> string)
  (settings : Config.Settings) (db_file : database)
  (df : DataFrame) (depths : list cell) (pixels : list (list cell))
  (report : ValidationReport) :
  load_csv (Config.data_dir settings) (Config.csv_filename settings)
  = Returned df ->
  df_wf df ->
  validate_and_clean sort_values df = Returned (depths, pixels, report) ->
  sort_values_contract sort_values ->
  cv2_resize_contract resample ->
  In (Config.interpolation_method settings) (dict_keys INTERPOLATION_METHODS) ->
  1 <= Config.target_width settings ->
  exists (db_after : database) (resized : list (list Z)),
    resize_image to_float32 resample invalid_cast py_repr pixels
      (Config.target_width settings) (Config.interpolation_method settings)
    = Returned resized
    /\ run_ingestion str_float format_0f load_csv sort_values to_float32
         resample invalid_cast py_repr settings db_file
       = (Raised (TypeError "Object of type int64 is not JSON serializable"),
          db_after)
    /\ Forall (fun row => length row = Z.to_nat (Config.target_width settings))
              resized
    /\ image_scans db_after
       = Sql.executemany_scans (image_scans db_file)
           (combine (map bind_float depths) resized)
    /\ metadata db_after = metadata db_file
    /\ (image_scans db_file = [] ->
        get_row_count (connect (mk_repo db_after false))
        = Returned (clean_rows report)
        /\ forall a b,
             query_depth_range (connect (mk_repo db_after false)) a b
             = Returned (map to_ScanRow
                           (filter (Sql.in_range a b)
                                   (combine (numbers depths) resized)))).
Proof.
  intros Hload Hwf Hval Hsort Hcv Hm Hw.
  assert (Hjson := validation_summary_not_serializable _ _ _ _ _ Hval).
  destruct (validate_and_clean_depths _ _ _ _ _ Hsort Hval) as [Hnum Hsorted].
  destruct (validate_and_clean_returned sort_values df depths pixels report Hval)
    as (px_min & px_max & dmin & dmax & Hmin & _ & _ & _ & Hd & Hp & Hr).
  (* the matrix handed to the resize *)
  assert (Hfw := filled_pixels_width sort_values Hsort df Hwf).
  assert (Hfl := filled_pixels_length sort_values df).
  assert (Hrect : Forall (fun row => length row = pixel_cols df) pixels).
  { rewrite Hp. destruct (_ || _); [| exact Hfw].
    rewrite Forall_forall in *. intros row Hrow.
    apply in_map_iff in Hrow. destruct Hrow as (r & <- & Hr0).
    rewrite length_map. now apply Hfw. }
  assert (Hlen : length pixels = length depths).
  { rewrite Hp, Hd, length_map. destruct (_ || _); rewrite ?length_map;
      exact Hfl. }
  assert (Hne : filled_pixels sort_values df <> [] /\ (1 <= pixel_cols df)%nat).
  { destruct (filled_pixels sort_values df) as [| row rows] eqn:E;
      [discriminate Hmin |].
    split; [discriminate |].
    destruct (Nat.eq_dec (pixel_cols df) 0) as [Z0 | NZ]; [| lia].
    exfalso. assert (C : concat (row :: rows) = []).
    { apply concat_nil_Forall. rewrite Forall_forall in *. intros x Hx.
      specialize (Hfw x Hx). rewrite Z0 in Hfw. now destruct x. }
    rewrite C in Hmin. discriminate Hmin. }
  destruct Hne as [Hne Hcols].
  assert (Hpne : pixels <> []).
  { rewrite Hp. destruct (_ || _); [| exact Hne].
    destruct (filled_pixels sort_values df); [congruence | discriminate]. }
  (* the resize *)
  destruct (resize_image_returns to_float32 resample invalid_cast py_repr
              pixels (pixel_cols df) (Config.target_width settings)
              (Config.interpolation_method settings)
              Hcv Hrect Hpne Hcols Hw Hm)
    as (resized & Hres & Hrl0 & Hrw).
  assert (Hrl : length depths = length resized) by congruence.
  (* the store *)
  assert (Hrows : scan_rows depths (frame_of_rows resized)
                  = combine (map bind_float depths) resized)
    by (apply (scan_rows_frame _ _ _ Hrw Hrl)).
  assert (Hclean : clean_rows report = length depths)
    by (rewrite Hr; reflexivity).
  eexists _, resized. split; [exact Hres |].
  unfold run_ingestion. rewrite Hload, Hval, Hres. unfold store_to_database.
  rewrite (bulk_insert_scans_ok (connect (mk_repo db_file false))
             depths (frame_of_rows resized) eq_refl Hrl eq_refl).
  rewrite Hjson.
  cbn [fst snd close connect db image_scans metadata].
  split; [reflexivity |]. split; [exact Hrw |].
  rewrite Hrows. split; [reflexivity |]. split; [reflexivity |].
  intros Hempty. rewrite Hempty, <- Hrows.
  destruct (executemany_increasing depths (frame_of_rows resized) Hsorted)
    as (Hnn & Hcount & Hord).
  split.
  - unfold get_row_count, conn. simpl. f_equal. unfold Sql.select_count.
    now rewrite Hcount, Hclean.
  - intros a b. unfold query_depth_range, conn. simpl. do 2 f_equal.
    unfold Sql.select_range, Sql.order_by_depth.
    assert (Hnc : Sql.not_null (scan_rows depths (frame_of_rows resized))
                  = combine (numbers depths) resized)
      by (rewrite Hrows; now apply not_null_combine).
    rewrite Hnn, Hnc. rewrite Hnc in Hord.
    apply sort_by_sorted_id. now apply filter_sorted.
Qed.

Lemma run_ingestion_raises_after_writing_witness :
  df_wf scenario_table
  /\ sort_values_contract stable_sort
  /\ cv2_resize_contract nearest_resize
  /\ In (Config.interpolation_method Config.settings)
        (dict_keys INTERPOLATION_METHODS)
  /\ 1 <= Config.target_width Config.settings
  /\ exists (depths : list cell) (pixels : list (list cell))
            (report : ValidationReport) (db_after : database),
       validate_and_clean stable_sort scenario_table
       = Returned (depths, pixels, report)
       /\ run_ingestion (fun _ => "x") (fun _ => "x")
            (fun _ _ => Returned scenario_table) stable_sort exact_float32
            nearest_resize 0 repr_key Config.settings empty_database
          = (Raised (TypeError "Object of type int64 is not JSON serializable"),
             db_after)
       /\ get_row_count (connect (mk_repo db_after false))
          = Returned (clean_rows report)
       /\ metadata db_after = [].
Proof.
  assert (W : df_wf scenario_table) by (repeat constructor).
  assert (M : In (Config.interpolation_method Config.settings)
                 (dict_keys INTERPOLATION_METHODS)) by (simpl; tauto).
  assert (T : 1 <= Config.target_width Config.settings) by (simpl; lia).
  split; [exact W |]. split; [exact stable_sort_contract |].
  split; [exact nearest_resize_contract |].
  split; [exact M |]. split; [exact T |].
  destruct (validate_and_clean stable_sort scenario_table)
    as [[[depths pixels] report] |] eqn:E; [| discriminate E].
  destruct (run_ingestion_raises_after_writing (fun _ => "x") (fun _ => "x")
              (fun _ _ => Returned scenario_table) stable_sort exact_float32
              nearest_resize 0 repr_key Config.settings empty_database
              scenario_table depths pixels report eq_refl W E
              stable_sort_contract nearest_resize_contract M T)
    as (db_after & resized & _ & H2 & _ & _ & H5 & H6).
  exists depths, pixels, report, db_after. split; [reflexivity |].
  split; [exact H2 |]. split; [exact (proj1 (H6 eq_refl)) | exact H5].
Defined.

(** *** Running the ingestion again *)

Lemma fold_meta_split (items t : list (string * string)) :
  fold_left Sql.insert_or_replace_meta items t
  = filter (fun x => negb (existsb (String.eqb (fst x)) (map fst items))) t
    ++ fold_left Sql.insert_or_replace_meta items [].
Proof.
  revert t. induction items as [| r items IH]; intros t.
  - simpl. rewrite app_nil_r. symmetry. now apply filter_all.
  - cbn [fold_left]. rewrite IH.
    rewrite (IH (Sql.insert_or_replace_meta [] r)).
    unfold Sql.insert_or_replace_meta. simpl filter at 3.
    rewrite filter_app, filter_twice, app_nil_l, <- app_assoc.
    f_equal. apply filter_ext. intros x. simpl. now rewrite negb_orb.
Qed.

Lemma fold_meta_in (items t : list (string * string)) (x : string * string) :
  In x (fold_left Sql.insert_or_replace_meta items t) -> In x t \/ In x items.
Proof.
  revert t. induction items as [| r items IH]; intros t; simpl.
  - now left.
  - intros H. apply IH in H. destruct H as [H | H]; [| now right; right].
    unfold Sql.insert_or_replace_meta in H. apply in_app_or in H.
    destruct H as [H | [<- | []]].
    + apply filter_In in H. now left.
    + right. now left.
Qed.

Lemma fold_meta_twice (items t : list (string * string)) :
  fold_left Sql.insert_or_replace_meta items
    (fold_left Sql.insert_or_replace_meta items t)
  = fold_left Sql.insert_or_replace_meta items t.
Proof.
  rewrite (fold_meta_split items (fold_left _ items t)).
  rewrite (fold_meta_split items t) at 1.
  rewrite filter_app, filter_twice.
  rewrite (filter_none _ (fold_left _ items [])).
  - rewrite app_nil_r, (fold_meta_split items t). f_equal.
    apply filter_ext. intros x. now rewrite andb_diag.
  - intros x Hx. apply fold_meta_in in Hx. destruct Hx as [[] | Hx].
    apply negb_false_iff, existsb_exists. exists (fst x).
    split; [now apply in_map | apply String.eqb_refl].
Qed.

Lemma bulk_insert_scans_returned (self : ImageRepository) (depths : list cell)
  (pixel_array : ndarray) (n : nat) :
  fst (bulk_insert_scans self depths pixel_array) = Returned n ->
  _conn self = true
  /\ length depths = shape0 pixel_array
  /\ dtype pixel_array = uint8.
Proof.
  unfold bulk_insert_scans, conn.
  destruct (Nat.eqb_spec (length depths) (shape0 pixel_array)) as [E | E];
    simpl; [| discriminate].
  destruct (dtype pixel_array); simpl; try discriminate.
  destruct (_conn self); [auto | discriminate].
Qed.

(** Whether the bulk write raises does not depend on the file. *)
Lemma bulk_insert_scans_raises_alike (db0 db1 : database) (depths : list cell)
  (pixel_array : ndarray) (e : exn) :
  fst (bulk_insert_scans (connect (mk_repo db0 false)) depths pixel_array)
  = Raised e ->
  fst (bulk_insert_scans (connect (mk_repo db1 false)) depths pixel_array)
  = Raised e.
Proof.
  unfold bulk_insert_scans, conn.
  destruct (negb (length depths =? shape0 pixel_array)%nat); [trivial |].
  destruct (negb (np_dtype_eqb (dtype pixel_array) uint8)); [trivial |].
  simpl. discriminate.
Qed.

(** X25.  Running the same ingestion again changes nothing more: whatever
    the outcome of [run_ingestion] and the database file it leaves, running
    it on that file with the same settings and source has the same outcome
    and leaves the same file. *)
Theorem run_ingestion_idempotent
  (str_float format_0f : cell -> string)
  (load_csv : string -> string -> outcome DataFrame)
  (sort_values : list df_row -> list df_row)
  (to_float32 : real -> real)
  (resample : list (list cell) -> Z * nat -> Z -> outcome (list (list cell)))
  (invalid_cast : Z) (py_repr : string -> string)
  (settings : Config.Settings) (db0 db1 : database)
  (result : outcome ValidationReport) :
  sort_values_contract sort_values ->
  run_ingestion str_float format_0f load_csv sort_values to_float32 resample
                invalid_cast py_repr settings db0
  = (result, db1) ->
  run_ingestion str_float format_0f load_csv sort_values to_float32 resample
                invalid_cast py_repr settings db1
  = (result, db1).
Proof.
  intros Hsort. unfold run_ingestion.
  destruct (load_csv _ _) as [df | e];
    [| intros H; inversion H; reflexivity].
  destruct (validate_and_clean sort_values df) as [[[depths pixels] rep] | e]
    eqn:V; [| intros H; inversion H; reflexivity].
  destruct (resize_image _ _ _ _ _ _) as [resized | e];
    [| intros H; inversion H; reflexivity].
  destruct (validate_and_clean_depths _ _ _ _ _ Hsort V) as [Hnum _].
  assert (Hkeys := scan_rows_have_depth depths (frame_of_rows resized) Hnum).
  unfold store_to_database.
  revert Hkeys. generalize (frame_of_rows resized). intros pa Hkeys.
  destruct (bulk_insert_scans (connect (mk_repo db0 false)) depths pa)
    as [r repo1] eqn:B.
  destruct r as [n | e].
  - assert (P := bulk_insert_scans_returned _ depths pa n (f_equal fst B)).
    destruct P as (_ & Hs & Hd).
    rewrite (bulk_insert_scans_ok (connect (mk_repo db0 false)) depths pa
               eq_refl Hs Hd) in B.
    inversion B; subst n repo1. clear B.
    rewrite (bulk_insert_scans_ok (connect (mk_repo db1 false)) depths pa
               eq_refl Hs Hd).
    destruct (json_dumps (validation_summary rep)) as [summary | e].
    + rewrite !set_all_metadata_connected by reflexivity.
      cbn [fst snd close connect db image_scans metadata].
      intros H. pose proof (f_equal fst H) as Hr.
      pose proof (f_equal snd H) as Hdb.
      cbn [fst snd] in Hr, Hdb. clear H. subst result db1.
      cbn [image_scans metadata].
      now rewrite (executemany_twice _ _ Hkeys), fold_meta_twice.
    + cbn [fst snd close connect db image_scans metadata].
      intros H. pose proof (f_equal fst H) as Hr.
      pose proof (f_equal snd H) as Hdb.
      cbn [fst snd] in Hr, Hdb. clear H. subst result db1.
      cbn [image_scans metadata].
      now rewrite (executemany_twice _ _ Hkeys).
  - assert (U := bulk_insert_scans_raise_unchanged _ depths pa e
                   (f_equal fst B)).
    assert (R := bulk_insert_scans_raises_alike db0 db1 depths pa e
                   (f_equal fst B)).
    rewrite B in U. cbn [snd] in U. subst repo1.
    cbn [fst snd close connect db].
    intros H. pose proof (f_equal fst H) as Hr.
    pose proof (f_equal snd H) as Hdb.
    cbn [fst snd] in Hr, Hdb. clear H. subst result db1.
    assert (U1 := bulk_insert_scans_raise_unchanged _ depths pa e R).
    destruct (bulk_insert_scans (connect (mk_repo db0 false)) depths pa)
      as [r1 repo1].
    cbn [fst snd] in *. subst r1 repo1. reflexivity.
Qed.

Lemma run_ingestion_idempotent_witness :
  sort_values_contract stable_sort
  /\ exists (result : outcome ValidationReport) (db1 : database),
       run_ingestion (fun _ => "x") (fun _ => "x")
         (fun _ _ => Returned scenario_table) stable_sort exact_float32
         nearest_resize 0 repr_key Config.settings empty_database
       = (result, db1)
       /\ image_scans db1 <> []
       /\ run_ingestion (fun _ => "x") (fun _ => "x")
            (fun _ _ => Returned scenario_table) stable_sort exact_float32
            nearest_resize 0 repr_key Config.settings db1
          = (result, db1).
Proof.
  split; [exact stable_sort_contract |].
  destruct (run_ingestion (fun _ => "x") (fun _ => "x")
              (fun _ _ => Returned scenario_table) stable_sort exact_float32
              nearest_resize 0 repr_key Config.settings empty_database)
    as [result db1] eqn:E.
  exists result, db1. split; [reflexivity |]. split.
  - vm_compute in E. inversion E. discriminate.
  - exact (run_ingestion_idempotent _ _ _ _ _ _ _ _ _ _ _ _ stable_sort_contract
             E).
Defined.

(** X30.  [run_ingestion] returns no report, whatever the source, the
    settings and the file: either it raises before the store, or the bulk
    write raises, or [json.dumps] does. *)
Theorem run_ingestion_never_returns
  (str_float format_0f : cell -> string)
  (load_csv : string -> string -> outcome DataFrame)
  (sort_values : list df_row -> list df_row)
  (to_float32 : real -> real)
  (resample : list (list cell) -> Z * nat -> Z -> outcome (list (list cell)))
  (invalid_cast : Z) (py_repr : string -> string)
  (settings : Config.Settings) (db_file : database) :
  exists e : exn,
    fst (run_ingestion str_float format_0f load_csv sort_values to_float32
           resample invalid_cast py_repr settings db_file)
    = Raised e.
Proof.
  unfold run_ingestion.
  destruct (load_csv _ _) as [df | e]; [| now exists e].
  destruct (validate_and_clean sort_values df) as [[[depths pixels] rep] | e]
    eqn:V; [| now exists e].
  destruct (resize_image _ _ _ _ _ _) as [resized | e]; [| now exists e].
  unfold store_to_database.
  rewrite (validation_summary_not_serializable _ _ _ _ _ V).
  destruct (bulk_insert_scans _ _ _) as [[n | e] repo1]; cbn [fst snd];
    eexists; reflexivity.
Qed.

(* ================================================================== *)
(** * Properties of the colormap registry *)

Lemma dict_get_set_same {V : Type} (d : list (string * V)) (k : string) (v : V) :
  dict_get (dict_set d k v) k = Some v.
Proof.
  induction d as [| [k0 v0] d IH]; simpl.
  - now rewrite String.eqb_refl.
  - destruct (String.eqb_spec k0 k) as [E | N]; simpl.
    + subst. now rewrite String.eqb_refl.
    + destruct (String.eqb_spec k k0); [congruence | exact IH].
Qed.

Lemma dict_get_set_other {V : Type} (d : list (string * V)) (k k' : string)
  (v : V) :
  k' <> k -> dict_get (dict_set d k v) k' = dict_get d k'.
Proof.
  intros Hne. induction d as [| [k0 v0] d IH]; simpl.
  - destruct (String.eqb_spec k' k); [congruence | reflexivity].
  - destruct (String.eqb_spec k0 k) as [E | N]; simpl.
    + subst. destruct (String.eqb_spec k' k); [congruence | reflexivity].
    + now rewrite IH.
Qed.

Lemma dict_keys_set {V : Type} (d : list (string * V)) (k k' : string) (v : V) :
  In k' (dict_keys (dict_set d k v)) <-> k' = k \/ In k' (dict_keys d).
Proof.
  unfold dict_keys. induction d as [| [k0 v0] d IH]; simpl.
  - intuition congruence.
  - destruct (String.eqb_spec k0 k) as [E | N]; simpl.
    + subst. intuition congruence.
    + rewrite IH. tauto.
Qed.

Lemma dict_keys_set_unique {V : Type} (d : list (string * V)) (k : string)
  (v : V) :
  NoDup (dict_keys d) -> NoDup (dict_keys (dict_set d k v)).
Proof.
  unfold dict_keys. induction d as [| [k0 v0] d IH]; simpl; intros H.
  - constructor; [intros [] | constructor].
  - inversion H as [| ? ? Hx Hd]; subst.
    destruct (String.eqb_spec k0 k) as [E | N]; simpl.
    + now constructor.
    + constructor; [| now apply IH].
      intros Hin. apply (dict_keys_set d k k0 v) in Hin. intuition congruence.
Qed.

Lemma dict_get_in {V : Type} (d : list (string * V)) (k : string) :
  (exists v, dict_get d k = Some v) <-> In k (dict_keys d).
Proof.
  unfold dict_keys. induction d as [| [k0 v0] d IH]; simpl.
  - split; [intros (v & H); discriminate | contradiction].
  - destruct (String.eqb_spec k k0) as [E | N].
    + split; [now left | intros _; now exists v0].
    + rewrite IH. intuition congruence.
Qed.

Lemma has_spec {C : Type} (self : ColormapRegistry C) (name : string) :
  has C self name = true <-> In name (dict_keys (_colormaps C self)).
Proof.
  unfold has. rewrite existsb_exists. split.
  - intros (k & Hk & E). apply String.eqb_eq in E. now subst.
  - intros H. exists name. split; [exact H | apply String.eqb_refl].
Qed.

(** X26.  Register then look up.  After [register(name, cmap, description)]
    the registry has [name] and [get(name)] returns [cmap], also when the
    name was registered before; for every other name [has] answers as before
    and a colormap that [get] returned is still returned. *)
Theorem register_then_get
  (C : Type) (py_repr : string -> string)
  (self : ColormapRegistry C) (name description : string) (cmap : C) :
  let self' := register C self name cmap description in
  has C self' name = true
  /\ get C py_repr self' name = Found cmap
  /\ forall other, other <> name ->
       has C self' other = has C self other
       /\ forall c, get C py_repr self other = Found c ->
                    get C py_repr self' other = Found c.
Proof.
  intros self'. subst self'. split; [| split].
  - apply has_spec. simpl. apply dict_keys_set. now left.
  - unfold get, register. simpl. now rewrite dict_get_set_same.
  - intros other Hne. split.
    + destruct (has C self other) eqn:E.
      * apply has_spec. apply has_spec in E. simpl. apply dict_keys_set.
        now right.
      * destruct (has C (register C self name cmap description) other) eqn:E';
          [| reflexivity].
        apply has_spec in E'. simpl in E'. apply dict_keys_set in E'.
        destruct E' as [E' | E']; [contradiction |].
        apply has_spec in E'. congruence.
    + intros c. unfold get, register. simpl.
      rewrite dict_get_set_other by exact Hne.
      destruct (dict_get (_colormaps C self) other); [auto | discriminate].
Qed.

Lemma register_then_get_witness :
  get nat repr_key
      (register nat (register nat (mk_registry nat [] []) "gray" 1%nat "first")
                "gray" 2%nat "second")
      "gray"
  = Found 2%nat.
Proof.
  exact (proj1 (proj2 (register_then_get nat repr_key
           (register nat (mk_registry nat [] []) "gray" 1%nat "first")
           "gray" "second" 2%nat))).
Defined.

(** X27.  [get] raises [KeyError] exactly for the names the registry does
    not have, and then [apply] raises the same error whatever the encoder
    would do; for a name it has, [get] returns a colormap registered under
    that name and [apply] returns the encoding of the array with it. *)
Theorem get_unknown_colormap
  (C : Type) (py_repr : string -> string)
  (self : ColormapRegistry C) (name : string) :
  (has C self name = false ->
   exists msg,
     get C py_repr self name = KeyError msg
     /\ forall encode pixel_array output_format jpeg_quality,
          apply C encode py_repr self name pixel_array output_format
                jpeg_quality
          = KeyError msg)
  /\ (has C self name = true ->
      exists cmap,
        get C py_repr self name = Found cmap
        /\ In (name, cmap) (_colormaps C self)
        /\ forall encode pixel_array output_format jpeg_quality,
             apply C encode py_repr self name pixel_array output_format
                   jpeg_quality
             = Found (encode cmap pixel_array output_format jpeg_quality)).
Proof.
  unfold apply, get. split.
  - intros H. destruct (dict_get (_colormaps C self) name) as [c |] eqn:E.
    + exfalso. assert (Hin : In name (dict_keys (_colormaps C self)))
        by (apply dict_get_in; now exists c).
      apply has_spec in Hin. congruence.
    + eexists. split; [reflexivity |]. reflexivity.
  - intros H. apply has_spec, dict_get_in in H. destruct H as (c & E).
    rewrite E. exists c. split; [reflexivity |]. split; [| reflexivity].
    clear -E. induction (_colormaps C self) as [| [k0 v0] d IH];
      simpl in *; [discriminate |].
    destruct (String.eqb_spec name k0) as [-> | N].
    + inversion E; subst. now left.
    + right. now apply IH.
Qed.

Lemma get_unknown_colormap_witness :
  has nat (mk_registry nat [("gray", 7%nat)] [("gray", "g")]) "nonexistent"
  = false
  /\ exists msg,
       get nat repr_key (mk_registry nat [("gray", 7%nat)] [("gray", "g")])
           "nonexistent"
       = KeyError msg.
Proof.
  split; [reflexivity |].
  destruct (proj1 (get_unknown_colormap nat repr_key
              (mk_registry nat [("gray", 7%nat)] [("gray", "g")])
              "nonexistent") eq_refl) as (msg & H & _).
  exists msg. exact H.
Defined.

Lemma string_leb_trans (s1 s2 s3 : string) :
  String.leb s1 s2 = true -> String.leb s2 s3 = true -> String.leb s1 s3 = true.
Proof.
  unfold String.leb. revert s2 s3.
  induction s1 as [| c1 s1 IH]; intros [| c2 s2] [| c3 s3]; simpl; auto;
    try discriminate.
  unfold Ascii.compare.
  destruct (N.compare_spec (N_of_ascii c1) (N_of_ascii c2)) as [E12 | L12 | G12];
    destruct (N.compare_spec (N_of_ascii c2) (N_of_ascii c3)) as [E23 | L23 | G23];
    try discriminate; intros H1 H2.
  - rewrite E12, E23, N.compare_refl. now apply IH with s2.
  - rewrite E12. now rewrite (proj2 (N.compare_lt_iff _ _) L23).
  - rewrite <- E23. now rewrite (proj2 (N.compare_lt_iff _ _) L12).
  - now rewrite (proj2 (N.compare_lt_iff _ _) (N.lt_trans _ _ _ L12 L23)).
Qed.

Lemma registered_unique {C : Type} (calls : list (string * C * string))
  (self : ColormapRegistry C) :
  NoDup (dict_keys (_colormaps C self)) ->
  NoDup (dict_keys (_colormaps C (registered C calls self))).
Proof.
  revert self. induction calls as [| c calls IH]; intros self H; simpl;
    [exact H |].
  apply IH. simpl. now apply dict_keys_set_unique.
Qed.

(** X28.  For a registry built by any sequence of [register] calls,
    [list_names] is in ascending order, holds no name twice and holds
    exactly the names the registry has; [list_colormaps] has one entry per
    such name, in the same order. *)
Theorem list_names_sorted_unique
  (C : Type) (calls : list (string * C * string)) :
  let self := registered C calls (mk_registry C [] []) in
  StronglySorted (holds String.leb) (list_names C self)
  /\ NoDup (list_names C self)
  /\ (forall name, In name (list_names C self) <-> has C self name = true)
  /\ map (fun entry => dict_get entry "name") (list_colormaps C self)
     = map Some (list_names C self).
Proof.
  intros self. unfold list_names.
  assert (Hperm := sort_by_perm String.leb (dict_keys (_colormaps C self))).
  split; [| split; [| split]].
  - apply sort_by_sorted; [apply String.leb_total | apply string_leb_trans].
  - apply (Permutation_NoDup (Permutation_sym Hperm)).
    apply registered_unique. constructor.
  - intros name. rewrite has_spec. split; intros H.
    + now apply (Permutation_in _ Hperm).
    + now apply (Permutation_in _ (Permutation_sym Hperm)).
  - unfold list_colormaps, list_names. rewrite map_map. reflexivity.
Qed.

Lemma list_names_sorted_unique_witness :
  list_names nat
    (registered nat [("viridis", 1%nat, "v"); ("gray", 2%nat, "g");
                     ("viridis", 3%nat, "w")]
                (mk_registry nat [] []))
  = ["gray"; "viridis"]
  /\ NoDup (list_names nat
      (registered nat [("viridis", 1%nat, "v"); ("gray", 2%nat, "g");
                       ("viridis", 3%nat, "w")]
                  (mk_registry nat [] []))).
Proof.
  split; [reflexivity |].
  exact (proj1 (proj2 (list_names_sorted_unique nat
           [("viridis", 1%nat, "v"); ("gray", 2%nat, "g");
            ("viridis", 3%nat, "w")]))).
Defined.

(** X29.  The registry as constructed has every value of the routes'
    [ColormapName] enumeration, so the handlers' unknown-colormap answer
    cannot occur for a member of the enumeration; its [list_names] are the
    six names in ascending order. *)
Theorem new_registry_has_enum_names
  (C : Type) (from_list : string -> list string -> Z -> C)
  (reversed : C -> C) (get_cmap : string -> C) (py_repr : string -> string)
  (name : string) :
  In name ColormapName ->
  has C (new_registry C from_list reversed get_cmap) name = true
  /\ (exists cmap,
        get C py_repr (new_registry C from_list reversed get_cmap) name
        = Found cmap)
  /\ list_names C (new_registry C from_list reversed get_cmap)
     = [ "conductivity"; "geological"; "gray"; "high_contrast"; "resistivity";
         "viridis" ].
Proof.
  intros H. simpl in H.
  destruct H as [<- | [<- | [<- | [<- | [<- | [<- | []]]]]]];
    (split; [reflexivity | split; [eexists; reflexivity | reflexivity]]).
Qed.

Lemma new_registry_has_enum_names_witness :
  In "gray" ColormapName
  /\ has nat (new_registry nat (fun _ _ _ => 0%nat) (fun c => c)
                           (fun _ => 1%nat)) "gray"
     = true.
Proof.
  assert (H : In "gray" ColormapName) by (simpl; tauto).
  split; [exact H |].
  exact (proj1 (new_registry_has_enum_names nat (fun _ _ _ => 0%nat)
                  (fun c => c) (fun _ => 1%nat) repr_key "gray" H)).
Defined.
